(* ===== verification/_CoqProject ===== *)
-Q . S2P
Prelude.v
Pil.v
Pbm.v
PyStr.v
Geometry.v
SvgPath.v
PotraceSvg.v
World.v
Sampling.v
Decimate.v
Binarize.v
SvgToDxf.v
Pipeline.v
Traced.v
