(* ===== verification/Prelude.v ===== *)
(** * linux_cadtrace: a verification development of [src/linux_cadtrace.py]

    The program is a five-function Python script that turns a raster
    image into a DXF drawing of closed polylines:
    - [convert_to_pbm] (lines 12-17) decodes the image as 8-bit grey,
      thresholds it at 128 and saves a bitmap at [splitext(path)[0] + ".pbm"];
    - [trace_with_potrace] (lines 19-26) runs the external tracer potrace
      on the bitmap, asking for an SVG at [pbm_path.replace(".pbm", ".svg")],
      and returns that path when potrace exits with status 0;
    - [svg_path_to_dxf_coords] (lines 28-34) samples every segment of an SVG
      path at [t = i / samples] and flips the y axis; [svg_to_dxf]
      (lines 36-74) repeats that loop inline with 40 samples, decimates the
      points greedily (a point is kept when it is more than 0.1 away from the
      last kept point), adds a closed polyline for every path that keeps two
      points or more, and saves the drawing only if it added one;
    - [main] (lines 76-97) chains the three stages, aborting on a missing
      input or a tracer failure, and returns the drawing's path.
    The stages communicate only through files, so the model's state is a
    [World.world]: the file system (a [gmap] from path to typed content,
    with directories and the potrace program) and the list of printed
    messages.  Python exceptions are values of [Prelude.result]; an
    effectful function is an [io world A], a state and exception monad in
    which an exception keeps the effects done before it.

    ** Files and what they model
    - [Prelude] (this file): exceptions (the script's own and the
      [OSError]s of [open] and [subprocess.run]), [result], Python list
      indexing ([l[0]], [l[-1]], [l[1:]], [range]), list comprehensions
      ([map_res]) and [for] loops ([fold_res]) that may raise, the [io]
      monad, the [cadtrace] hint database, the [cadtrace_rw] rewrite
      database and the shared tactics.
    - [Pil]: the part of Pillow [convert_to_pbm] calls: a decoded image by
      mode ("1", "L", "LA", "P", "RGB", "RGBA", "I"), [convert('L')] with
      Pillow's converters on integers (the fixed-point luma
      [(19595 R + 38470 G + 7471 B + 0x8000) >> 16], [Z.shiftr]), and the
      256-entry lookup table [img.point] builds from the threshold lambda.
    - [Pbm]: the raw PBM file [bw.save(pbm_path)] writes (Pillow's P4
      writer: the header [P4\n<w> <h>\n], rows packed eight pixels to a
      byte by [pack1I]) and the P4 reader potrace and PIL apply to it
      (numbers after white space and [#] comments, one separator byte,
      [(w + 7) / 8] bytes a row).
    - [PyStr]: Python strings as [list ascii]; [os.path.splitext] after
      CPython's POSIX [_splitext] ([rfind], the leading-dot loop),
      [os.path.dirname] and [str.replace] (every non-overlapping
      occurrence, left to right).
    - [Geometry]: [complex] (svgpathtools points), [vec2] (ezdxf's [Vec2]),
      the separation test [far] of line 61, and the [SvgSegment] class, the
      interface [segment.point(t)] the script relies on, with an instance for
      svgpathtools' [Line], [QuadraticBezier] and [CubicBezier].
    - [SvgPath]: svgpathtools' path-data parser [parse_path], which
      [svg2paths2] (line 39) applies to the [d] attribute of every path:
      the tokenizer [_tokenize_path] (command letters and [FLOAT_RE]
      numerals, [float()] raising [ValueError]), and the loop over the
      reversed token list with its locals ([pstate]) in the [io] monad,
      one branch of [exec_command] per command letter, implicit repeated
      commands, [Z] adding a closing [Line] only when the pen is away from
      the subpath's start.  Arcs are kept as their parameters.
    - [PotraceSvg]: the [d] attribute potrace [-s] writes for a traced
      path and its holes (its [backend_svg]: [M] or a relative [m] to the
      curve's start, relative [l] and [c] with the letter only when the
      operation changes, [z], integer coordinates), and the segments
      [path_segments] it stands for.
    - [World]: the file contents (directory, program, decoded image,
      the bytes of a PBM bitmap, parsed SVG, ezdxf drawing), the printed messages, the
      primitive effects, and the checks of [open(path, 'w')]: the parent
      ([os.path.dirname]) must be a directory and the path must not be one,
      else [FileNotFoundError], [NotADirectoryError] or
      [IsADirectoryError].  [write_file] raises them (Python's [bw.save],
      [doc.saveas]); [fopen_write] returns [false] (potrace's [fopen]).  The
      invariant [world_wf] says the file system is a tree.
    - [Sampling]: [sample_params] and [svg_path_to_dxf_coords].
    - [Decimate]: the decimation fragment of [svg_to_dxf] (lines 59-62),
      generic in the point constructor and the separation test, with the
      streaming recursion [greedy] it equals.
    - [Binarize]: [convert_to_pbm]: [Image.open] ([pil_open], which reads
      a PBM input through [Pbm.pbm_decode] and makes Pillow's size checks
      [Pil.open_checks]: [OSError] for a zero size,
      [DecompressionBombError] above [2 * MAX_IMAGE_PIXELS] pixels), the
      bitmap [bitmap_of]
      (conversion, then lookup table), the [.pbm] path and the save of
      the bytes [Pbm.pbm_encode].
    - [SvgToDxf]: [svg_to_dxf], with the inlined sampling loop
      [path_coords], the loop body [process_path], and the specification
      [dxf_polylines] it refines.
    - [Pipeline]: [potrace_path] (line 10), the [Potrace] class (the
      tracer's contract: the traced shapes, each curve with a segment, or
      a non-zero exit status with its standard error), [run_potrace]
      ([subprocess.run] raises when the program is missing; potrace opens
      its output, then reads its input as a P4 file and writes the path
      data [PotraceSvg.shape_d] of every shape), [trace_with_potrace] and
      [main].
    - [Traced]: no new definition of the program; general theorems on
      what [svg_to_dxf] draws for the paths potrace writes: straight
      sides, polygons of corners, short segments, shapes with holes.
    The stages are composed through the files as the program composes
    them: [convert_to_pbm] writes the bytes [Pbm.pbm_encode], which potrace
    decodes; potrace writes path text, which [svg_to_dxf] parses with
    [SvgPath.parse_path] ([svg2paths2_potrace], from the round trip
    [parse_potrace_path]).

    ** What the theorems show
    - Refinement and equivalence: [svg_to_dxf] in every branch equals its
      specification, [doc.saveas] errors included ([svg_to_dxf_refines]);
      the inlined sampling loop equals the helper ([path_coords_equiv]);
      the list-state decimation loop equals the streaming recursion
      ([decimate_greedy]).
    - Type: [convert('L')] of a well-formed image of any mode is a
      well-formed "L" image of the same shape ([convert_L_wf]).
    - Invariants: decimated polylines start
      at the first point, are subsequences of the samples and keep
      consecutive points more than 0.1 apart ([decimate_invariant]); every
      polyline of the drawing has two points or more
      ([dxf_polylines_invariant]); a path returned by [main] names such a
      drawing ([main_output_invariant]); the bitmap has two levels for
      every input ([binarize_two_levels]).
    - Safety: [main] writes nothing but the bitmap, the SVG and the
      drawing derived from its input, whatever it returns or raises
      ([main_writes_only], by the [World.frame] combinators).
    - Liveness: under an image that decodes, an installed potrace,
      writable output paths and a tracer that yields a usable shape, [main]
      reaches "Done." and returns the drawing's path, the drawing being
      made of the segments svgpathtools reads back from potrace's text
      ([main_succeeds]).
    - Functional behaviour and bounds: the y flip at every sample index
      ([svg_path_to_dxf_coords_spec]); the parameters [i / N] in [[0, 1]]
      with both endpoints ([sample_params_spec]); the luma is a byte,
      exact on grays and within 0.502 of ITU-R 601-2 ([rgb2l_luma]); the
      alpha band is ignored ([bitmap_of_ignores_alpha]); the bitmap is 0
      exactly where the gray value is below 128 ([bitmap_of_threshold]);
      decimation covers every input point and may drop the end point; the
      output path of [main] for ordinary names ([main_output_path_plain]);
      [str.replace] replaces every occurrence left to right
      ([replace_spec]); [os.path.splitext] as POSIX defines it
      ([splitext_spec]); a blank image gives no drawing
      ([main_blank_image]).
    - What the drawing holds ([Traced]): a path of straight sides longer
      than [0.1 * samples] keeps every sample, [k * samples + 1] points
      for [k] sides ([straight_path_keeps_samples]); a polygon potrace
      traces becomes one closed polyline of that many points whose last
      point repeats the first, 321 for the traced square of side 10
      ([traced_polygon_polyline]); a short segment keeps its start and one
      sample and drops its end ([short_segment_drops_end]); a hole is
      joined to its outer curve by an edge on neither curve
      ([shape_polyline_joins_hole]).
    - Errors: a path with no segment raises [IndexError] in [svg_to_dxf]
      ([dxf_polylines_error]), but potrace never writes one, so the only
      exceptions [main] lets escape are [OSError]s and PIL's
      [DecompressionBombError] ([main_raises_os_error]); a non-positive
      sample count raises [ZeroDivisionError] or [IndexError]
      ([svg_to_dxf_nonpositive_samples]); a
      missing potrace raises [FileNotFoundError] ([main_potrace_missing]);
      a directory whose name contains ".svg" is renamed in the drawing's
      path, and [doc.saveas] raises when the renamed directory is missing
      ([main_output_path_directory]); a tracer failure, a missing file and
      an undecodable image.
    - Round trips: the bitmap file read back by potrace or PIL is the
      bitmap saved ([pbm_roundtrip]), so [convert_to_pbm] run on its own
      output saves the same bytes again ([binarize_idempotent]).  An input named [stem.pbm] is overwritten
      by its own bitmap ([main_overwrites_pbm_input]).  svgpathtools'
      [parse_path] reads back the path data potrace prints, with any white
      space between tokens, as the curves' segments in absolute
      coordinates and with no closing line added ([parse_potrace_path]).
    - Termination: the parser's
      loop within one step per token: with that fuel it stops only when
      every token is consumed or on an exception
      ([parse_path_consumes_tokens]), and more fuel changes nothing
      ([parse_loop_fuel]).
    Every theorem with a hypothesis has a witness that applies it to a
    concrete input, evaluated by [vm_compute].

    ** Modelling choices, bounds and fuel
    - Python floats are exact rationals [Q].  The test
      [Vec2.distance(..) > 0.1] is [0.1 * 0.1 < distance2], which is exact
      for real numbers; rounding of the double-precision computation is
      not modelled, so results near the 0.1 threshold may differ from the
      program's.
    - Pixel values are [Z]; well-formedness ([Pil.image_wf]) bounds 8-bit
      bands to [[0, 255]] and mode "I" to 32 bits, as Pillow's storage
      does.  The luma sum is at most [255 * 65536 + 32768 < 2^31], so the
      C arithmetic on [INT32]/[UINT32] does not overflow and [Z] is exact.
    - [str.replace] is a [Fixpoint] with fuel [length s], enough because
      each step consumes a character ([PyStr.replace_go_fuel]).  svgpathtools'
      tokenizer runs with fuel [length d], and its parse loop with fuel the
      number of tokens: every iteration pops at least one token
      ([parse_step_pops]), so the fuel never runs out ([parse_loop_fuel]).
      Every other loop is structural on a list.
    - The sample count is an unbounded [Z], like a Python [int]; the script
      uses 40 ([samples_per_curve_default]) and the unused helper 100.
    - Paths are compared as strings: no normalisation of [..], [//] or
      symbolic links.  Only the immediate parent is checked by [open]; the
      invariant [world_wf] makes that enough.

    ** Not modelled
    The decoding of image file formats other than PBM (a raster file
    holds its decoded PIL image), Pillow's modes other than the seven
    above, potrace's tracing (its bitmap-to-curves algorithm, external C
    code: its contract only, the [Potrace] class), the XML document
    potrace writes around its path data (the [<svg>] element and a group
    with transform [translate(0,H) scale(0.1,-0.1)], which [svg2paths2]
    ignores, so the coordinates are those of the path data,
    untransformed), svgpathtools' XML reading (an SVG file holds the [d]
    attributes of its [<path>] elements, or [None] when it is not XML;
    other shape elements, which potrace does not write, are not modelled)
    and the geometry of its [Arc] segments ([svg2paths2] yields [None] on
    an arc, outside the model; potrace never writes an arc), the DXF
    encoding written by [doc.saveas], file permissions other than the
    program bit, and the console text of the messages (each [print] is a
    constructor of [World.msg]).  The script has no command-line entry
    point: [main] is never called.

    What remains is outside the repository (potrace's tracing, Pillow's
    decoders, ezdxf's DXF writer, floating-point rounding) or absent
    from it (a command-line entry); every line of the script is
    modelled. *)

From stdpp Require Export base list strings gmap.
From Stdlib Require Export ZArith Ascii Lia.

(** ** Python exceptions raised by the modelled code *)

(** The exceptions that can escape the functions of the script: an
    [IndexError] from [coords[0]] and [simplified[-1]], a
    [ZeroDivisionError] from [i / samples], an [OSError] when PIL cannot
    decode the input image (PIL's [UnidentifiedImageError] is an
    [OSError]), PIL's [DecompressionBombError] (a plain [Exception]) for
    an image of more than [2 * MAX_IMAGE_PIXELS] pixels, and the [OSError] subclasses the operating system raises
    through [open] and [subprocess.run]: [FileNotFoundError] (a missing
    file, a missing parent directory, a missing program),
    [IsADirectoryError] (opening a directory as a file),
    [NotADirectoryError] (a parent that is a file) and [PermissionError]
    (running a file that is not a program); svgpathtools' path parser
    raises a [ValueError] ([float] of a command letter, a path that cannot
    be closed), a [TypeError] ([None in 'CS']) and an [AttributeError]
    (a control point asked of a segment that has none). *)
Inductive exn :=
| IndexError
| ZeroDivisionError
| DecompressionBombError
| OSError
| FileNotFoundError
| IsADirectoryError
| NotADirectoryError
| PermissionError
| ValueError
| TypeError
| AttributeError.

#[export] Instance exn_eq_dec : EqDecision exn.
Proof. solve_decision. Defined.

(** [isinstance(e, OSError)]: [OSError] and the subclasses above. *)
Definition os_error (e : exn) : bool :=
  match e with
  | OSError | FileNotFoundError | IsADirectoryError | NotADirectoryError | PermissionError => true
  | _ => false
  end.

(** A Python call either returns a value or raises. *)
Inductive result (A : Type) :=
| Ok (a : A)
| Raise (e : exn).
Arguments Ok {A} a.
Arguments Raise {A} e.

Definition res_bind {A B} (r : result A) (k : A -> result B) : result B :=
  match r with
  | Ok a => k a
  | Raise e => Raise e
  end.

Definition res_map {A B} (f : A -> B) (r : result A) : result B :=
  res_bind r (fun a => Ok (f a)).

#[export] Instance result_ret : MRet result := @Ok.
#[export] Instance result_mbind : MBind result := fun A B k r => res_bind r k.

(** ** Python list indexing *)

(** [l[0]]: raises [IndexError] on an empty list. *)
Definition py_first {A} (l : list A) : result A :=
  match l with
  | [] => Raise IndexError
  | x :: _ => Ok x
  end.

(** [l[-1]]: raises [IndexError] on an empty list. *)
Definition py_last {A} (l : list A) : result A :=
  match last l with
  | Some x => Ok x
  | None => Raise IndexError
  end.

(** [l[1:]]: never raises. *)
Definition py_tail {A} (l : list A) : list A := drop 1 l.

(** [range(n)] for a Python int [n]: empty when [n <= 0]. *)
Definition py_range (n : Z) : list Z := map Z.of_nat (seq 0 (Z.to_nat n)).

(** A list comprehension [[f(x) for x in l]] whose element expression
    may raise: elements are evaluated left to right and the first
    exception propagates. *)
Fixpoint map_res {A B} (f : A -> result B) (l : list A) : result (list B) :=
  match l with
  | [] => Ok []
  | x :: l' =>
      match f x with
      | Ok y => res_map (cons y) (map_res f l')
      | Raise e => Raise e
      end
  end.

(** A Python [for x in l:] loop whose body updates [acc] and may raise. *)
Fixpoint fold_res {A B} (body : B -> A -> result B) (l : list A) (acc : B) : result B :=
  match l with
  | [] => Ok acc
  | x :: l' =>
      match body acc x with
      | Ok acc' => fold_res body l' acc'
      | Raise e => Raise e
      end
  end.

(** ** Decimal numbers *)

(** The decimal digits of [n], least significant first; [fuel] bounds
    the number of divisions by ten ([S n] is enough). *)
Fixpoint rev_digits (fuel n : nat) : list nat :=
  match fuel with
  | O => []
  | S f => n mod 10 :: (if n <? 10 then [] else rev_digits f (n / 10))
  end.

(** ** A state and exception monad for the script's I/O *)

(** [io S A] runs against a world [S]; an exception keeps the effects
    done before it (Python does not roll back written files). *)
Definition io (S A : Type) : Type := S -> result A * S.

Definition io_ret {S A} (a : A) : io S A := fun s => (Ok a, s).
Definition io_raise {S A} (e : exn) : io S A := fun s => (Raise e, s).
Definition io_lift {S A} (r : result A) : io S A := fun s => (r, s).
Definition io_get {S} : io S S := fun s => (Ok s, s).
Definition io_modify {S} (f : S -> S) : io S unit := fun s => (Ok tt, f s).
Definition io_bind {S A B} (c : io S A) (k : A -> io S B) : io S B :=
  fun s =>
    match c s with
    | (Ok a, s') => k a s'
    | (Raise e, s') => (Raise e, s')
    end.

#[export] Instance io_mret {S} : MRet (io S) := @io_ret S.
#[export] Instance io_mbind {S} : MBind (io S) := fun A B k c => io_bind c k.

(** Code of the modelled functions is written with stdpp's monadic
    notation [x ← c; k] and [c ;; k], for [result] and for [io S]. *)

(** ** Shared lemmas *)

Create HintDb cadtrace discriminated.
Create Rewrite HintDb cadtrace_rw.

Lemma res_bind_Ok {A B} (a : A) (k : A -> result B) : res_bind (Ok a) k = k a.
Proof. reflexivity. Qed.

Lemma res_bind_Raise {A B} e (k : A -> result B) : res_bind (Raise e) k = Raise e.
Proof. reflexivity. Qed.

Lemma res_bind_eq_Ok {A B} (r : result A) (k : A -> result B) b :
  res_bind r k = Ok b -> exists a, r = Ok a /\ k a = Ok b.
Proof. destruct r; simpl; [eauto | discriminate]. Qed.

Lemma py_last_snoc {A} (l : list A) x : py_last (l ++ [x]) = Ok x.
Proof. unfold py_last. by rewrite last_snoc. Qed.

Lemma py_last_cons_Ok {A} (x : A) l : exists y, py_last (x :: l) = Ok y.
Proof.
  unfold py_last. destruct (last (x :: l)) eqn:E; [eauto |].
  apply last_None in E. discriminate.
Qed.

Lemma io_bind_Ok {S A B} (c : io S A) (k : A -> io S B) s a s' :
  c s = (Ok a, s') -> io_bind c k s = k a s'.
Proof. intros E. unfold io_bind. by rewrite E. Qed.

Lemma io_bind_Raise {S A B} (c : io S A) (k : A -> io S B) s e s' :
  c s = (Raise e, s') -> io_bind c k s = (Raise e, s').
Proof. intros E. unfold io_bind. by rewrite E. Qed.

Lemma io_bind_lift {S A B} (r : result A) (k : A -> io S B) s :
  io_bind (io_lift r) k s = match r with Ok a => k a s | Raise e => (Raise e, s) end.
Proof. by destruct r. Qed.

Lemma io_bind_ret {S A B} (a : A) (k : A -> io S B) s :
  io_bind (io_ret a) k s = k a s.
Proof. reflexivity. Qed.

Lemma length_py_range n : length (py_range n) = Z.to_nat n.
Proof. unfold py_range. by rewrite length_map, length_seq. Qed.

Lemma py_range_nonpos n : (n <= 0)%Z -> py_range n = [].
Proof. intros H. unfold py_range. by replace (Z.to_nat n) with 0%nat by lia. Qed.

Lemma map_res_total {A B} (f : A -> result B) (g : A -> B) l :
  (forall x, x ∈ l -> f x = Ok (g x)) -> map_res f l = Ok (map g l).
Proof.
  induction l as [|x l IH]; intros Hf; [done |]. simpl.
  rewrite Hf by set_solver. rewrite IH by set_solver. done.
Qed.

Lemma rev_digits_spec f n :
  n < f ->
  fold_left (fun a d => a * 10 + d) (rev (rev_digits f n)) 0 = n /\
  Forall (fun d => d < 10) (rev_digits f n) /\ rev_digits f n <> [].
Proof.
  revert n. induction f as [|f IH]; intros n Hn; [lia |]. cbn [rev_digits].
  pose proof (Nat.mod_upper_bound n 10 ltac:(lia)) as Hm.
  destruct (Nat.ltb_spec n 10) as [Hlt | Hge].
  - rewrite Nat.mod_small by done. cbn [rev app fold_left]. split; [lia |]. split; [by constructor |]. done.
  - destruct (IH (n / 10)) as (Hv & Hd & _).
    { assert (n / 10 < n) by (apply Nat.div_lt; lia). lia. }
    cbn [rev]. rewrite fold_left_app, Hv. cbn [fold_left].
    split; [pose proof (Nat.div_mod_eq n 10); lia |]. split; [by constructor |]. done.
Qed.

#[export] Hint Rewrite @res_bind_Ok @res_bind_Raise @py_last_snoc @io_bind_ret @io_bind_lift
  @length_py_range : cadtrace_rw.

(** [invc H]: invert and clean up. *)
Ltac invc H := inversion H; subst; clear H.

(** [unfold_monads]: expose the binds of [result] and [io]. *)
Ltac unfold_monads :=
  unfold mbind, mret, result_mbind, result_ret, io_mbind, io_mret,
    io_bind, io_ret, io_lift, io_raise, io_get, io_modify in *.

(** [io_destr H x s]: in a hypothesis [H] about an [io] program, case on
    the result of its first [io_bind]; [x] names the value returned, [s]
    the world after it. *)
Ltac io_destr H x s :=
  match type of H with
  | context [io_bind ?c ?k ?w] =>
      let E := fresh "E" in
      destruct (c w) as [[x|?] s] eqn:E;
      [rewrite (io_bind_Ok c k w _ _ E) in H | rewrite (io_bind_Raise c k w _ _ E) in H];
      cbv beta in H
  end.

(** [res_cases]: case on every [res_bind] scrutinee in the goal. *)
Ltac res_cases :=
  repeat match goal with
  | |- context [res_bind ?r _] =>
      let E := fresh "E" in destruct r eqn:E; simpl
  end.
