(* ===== verification/Pil.v ===== *)
(** * Pil: the Pillow operations behind [convert_to_pbm] (lines 13-14)

    [Image.open(path).convert('L')] decodes the input and converts it to
    an 8-bit grayscale ("L") image; [img.point(lambda ..., '1')] turns
    the lambda into a 256-entry lookup table and maps every pixel of the
    "L" image through it into a one-bit ("1") image.  Pillow is a library
    the script calls; this file models the part of it the script relies
    on, after Pillow's [Image.convert], [Image.point] and the C routines
    they call (libImaging/Convert.c, Point.c, _imaging.c):
    - [pil_image], a decoded image by its mode and its pixel rows, band
      values as [Z] (8-bit bands in [0, 255], mode "I" a signed 32-bit
      integer), with its well-formedness [image_wf];
    - [convert_L], Pillow's converters to "L": [bit2l], the copy of an
      "L" image, [la2l], [p2l], [rgb2l] (used for RGBA too, so the alpha
      band is dropped) and [i2l] (clipping, [clip8]);
    - [point_table] and [point_L_to_1]: the table [Image.point] builds
      from a callable ([CLIP8] of the callable on [range(256)]) and its
      application to an "L" image ([im_point_8_8]).
    An image as the script uses it is its rows of pixel values: the "L"
    image and the "1" image are [list (list Z)]. *)

From S2P Require Import Prelude.

Module Pil.

(** [CLIP8(v)]: [v <= 0 ? 0 : v < 256 ? v : 255]. *)
Definition clip8 (v : Z) : Z := if (v <=? 0)%Z then 0%Z else if (v <? 256)%Z then v else 255%Z.

(** A decoded image, by mode.  Mode "1" stores 0 or 255 per pixel; "P"
    has its palette of RGB entries and a palette index per pixel. *)
Inductive pil_image :=
| Image1 (rows : list (list Z))
| ImageL (rows : list (list Z))
| ImageLA (rows : list (list (Z * Z)))
| ImageP (palette : list (Z * Z * Z)) (rows : list (list Z))
| ImageRGB (rows : list (list (Z * Z * Z)))
| ImageRGBA (rows : list (list (Z * Z * Z * Z)))
| ImageI (rows : list (list Z)).

(** [#define L24(rgb) ((rgb)[0] * 19595 + (rgb)[1] * 38470 + (rgb)[2] * 7471 + 0x8000)]:
    the ITU-R 601-2 luma weights in 16-bit fixed point, plus one half
    for rounding. *)
Definition L24 (r g b : Z) : Z := (r * 19595 + g * 38470 + b * 7471 + 0x8000)%Z.

(** [rgb2l]: [*out = L24(in) >> 16]. *)
Definition rgb2l (r g b : Z) : Z := Z.shiftr (L24 r g b) 16.

(** [bit2l]: [*out = ( *in != 0) ? 255 : 0]. *)
Definition bit2l (v : Z) : Z := if (v =? 0)%Z then 0%Z else 255%Z.

(** A palette entry; the entries past the palette's size keep the gray
    ramp [ImagingPaletteNew] initialises them to. *)
Definition palette_entry (pal : list (Z * Z * Z)) (i : Z) : Z * Z * Z :=
  default (i, i, i) (pal !! Z.to_nat i).

(** [p2l]: [L24(&palette->palette[*in * 4]) >> 16]. *)
Definition p2l (pal : list (Z * Z * Z)) (i : Z) : Z :=
  let '(r, g, b) := palette_entry pal i in rgb2l r g b.

(** [im.convert('L')], by the rows of the "L" image it returns: the
    converter of the source mode applied to every pixel; an "L" image is
    copied; "LA" keeps the luminance ([la2l]); "RGBA" uses [rgb2l], so
    the alpha band is not looked at; "I" clips ([i2l]). *)
Definition convert_L (im : pil_image) : list (list Z) :=
  match im with
  | Image1 rows => map (map bit2l) rows
  | ImageL rows => rows
  | ImageLA rows => map (map fst) rows
  | ImageP pal rows => map (map (p2l pal)) rows
  | ImageRGB rows => map (map (fun '(r, g, b) => rgb2l r g b)) rows
  | ImageRGBA rows => map (map (fun '(r, g, b, _) => rgb2l r g b)) rows
  | ImageI rows => map (map clip8) rows
  end.

(** [Image.point(f, mode)] with a callable on an "L" image:
    [flatLut = [f(i) for i in range(256)]], then [lut[i] = CLIP8(data[i])]. *)
Definition point_table (f : Z -> Z) : list Z :=
  map (fun i => clip8 (f (Z.of_nat i))) (seq 0 256).

(** [im_point_8_8]: [out[x] = table[in[x]]].  A pixel of an "L" image is
    a byte, so the index is always in the table; the default is never
    used on an image Pillow built. *)
Definition point_L_to_1 (lut : list Z) (rows : list (list Z)) : list (list Z) :=
  map (map (fun v => default 0%Z (lut !! Z.to_nat v))) rows.

(** ** Well-formed images *)

Definition byte_ok (v : Z) : bool := (0 <=? v)%Z && (v <=? 255)%Z.
Definition bit_ok (v : Z) : bool := (v =? 0)%Z || (v =? 255)%Z.
Definition int32_ok (v : Z) : bool := (- 2 ^ 31 <=? v)%Z && (v <? 2 ^ 31)%Z.
Definition rgb_ok (px : Z * Z * Z) : bool :=
  let '(r, g, b) := px in byte_ok r && byte_ok g && byte_ok b.

(** The width of every row. *)
Definition shape {A} (rows : list (list A)) : list nat := map length rows.

(** All rows have the same width. *)
Definition rect {A} (rows : list (list A)) : bool :=
  match shape rows with
  | [] => true
  | n :: ns => forallb (Nat.eqb n) ns
  end.

Definition rows_ok {A} (ok : A -> bool) (rows : list (list A)) : bool :=
  rect rows && forallb (forallb ok) rows.

(** What Pillow's decoders produce: a rectangle of pixels whose bands
    are in the mode's range, palette indices included. *)
Definition image_wf (im : pil_image) : bool :=
  match im with
  | Image1 rows => rows_ok bit_ok rows
  | ImageL rows => rows_ok byte_ok rows
  | ImageLA rows => rows_ok (fun '(l, a) => byte_ok l && byte_ok a) rows
  | ImageP pal rows => forallb rgb_ok pal && rows_ok byte_ok rows
  | ImageRGB rows => rows_ok rgb_ok rows
  | ImageRGBA rows => rows_ok (fun '(rgb, a) => rgb_ok rgb && byte_ok a) rows
  | ImageI rows => rows_ok int32_ok rows
  end.

Definition image_shape (im : pil_image) : list nat :=
  match im with
  | Image1 rows | ImageL rows | ImageP _ rows | ImageI rows => shape rows
  | ImageLA rows => shape rows
  | ImageRGB rows => shape rows
  | ImageRGBA rows => shape rows
  end.

(** [im.size]: the width of the first row (every row has it in a
    well-formed image) and the number of rows. *)
Definition image_size (im : pil_image) : nat * nat :=
  let sh := image_shape im in (default 0 (head sh), length sh).

(** [Image.MAX_IMAGE_PIXELS = int(1024 * 1024 * 1024 // 4 // 3)]. *)
Definition MAX_IMAGE_PIXELS : Z := 89478485.

(** The checks [Image.open] makes on the size the decoder reads:
    [ImageFile.__init__] refuses a zero width or height (the file is then
    not identified: [UnidentifiedImageError], an [OSError]), and
    [_decompression_bomb_check] raises [DecompressionBombError] above
    [2 * MAX_IMAGE_PIXELS] pixels. *)
Definition open_checks (im : pil_image) : result pil_image :=
  let '(w, h) := image_size im in
  if (w =? 0) || (h =? 0) then Raise OSError
  else if (2 * MAX_IMAGE_PIXELS <? Z.of_nat w * Z.of_nat h)%Z then Raise DecompressionBombError
  else Ok im.

(** A well-formed "L" image and a well-formed "1" image. *)
Definition gray_wf (rows : list (list Z)) : bool := rows_ok byte_ok rows.
Definition bitmap_wf (rows : list (list Z)) : bool := rows_ok bit_ok rows.

(** ** Concrete inputs *)

(** A palette image whose second index is past its palette. *)
Definition palette_scan : pil_image := ImageP [(255, 0, 0); (0, 0, 255)]%Z [[0; 1]; [7; 0]]%Z.

(** ** Properties *)

Lemma byte_ok_spec v : byte_ok v = true <-> (0 <= v <= 255)%Z.
Proof. unfold byte_ok. by rewrite andb_true_iff, !Z.leb_le. Qed.

Lemma clip8_bounds v : (0 <= clip8 v <= 255)%Z.
Proof. unfold clip8. destruct (Z.leb_spec v 0), (Z.ltb_spec v 256); lia. Qed.

Lemma clip8_id v : (0 <= v <= 255)%Z -> clip8 v = v.
Proof. unfold clip8. destruct (Z.leb_spec v 0), (Z.ltb_spec v 256); lia. Qed.

(** The shift is a floor division by [2^16]. *)
Lemma rgb2l_div r g b : rgb2l r g b = (L24 r g b / 65536)%Z.
Proof. unfold rgb2l. by rewrite Z.shiftr_div_pow2 by lia. Qed.

Lemma rgb2l_bounds r g b :
  (0 <= r <= 255)%Z -> (0 <= g <= 255)%Z -> (0 <= b <= 255)%Z ->
  (0 <= rgb2l r g b <= 255)%Z.
Proof.
  intros. rewrite rgb2l_div. unfold L24. split.
  - apply Z.div_pos; lia.
  - apply Z.lt_succ_r, Z.div_lt_upper_bound; lia.
Qed.

(** The luma of an RGB pixel within [1/2 + 0.002] of
    [R * 299/1000 + G * 587/1000 + B * 114/1000]. *)
Lemma rgb2l_itu_bound r g b :
  (0 <= r <= 255)%Z -> (0 <= g <= 255)%Z -> (0 <= b <= 255)%Z ->
  (Z.abs (1000 * rgb2l r g b - (299 * r + 587 * g + 114 * b)) <= 502)%Z.
Proof.
  intros. rewrite rgb2l_div.
  pose proof (Z.div_mod (L24 r g b) 65536 ltac:(lia)).
  pose proof (Z.mod_pos_bound (L24 r g b) 65536 ltac:(lia)).
  unfold L24 in *. lia.
Qed.

Lemma rgb2l_gray v : (0 <= v <= 255)%Z -> rgb2l v v v = v.
Proof.
  intros. rewrite rgb2l_div. symmetry. apply (Z.div_unique _ _ _ 32768); [lia |].
  unfold L24. lia.
Qed.

Lemma rgb_ok_spec r g b :
  rgb_ok (r, g, b) = true <-> (0 <= r <= 255)%Z /\ (0 <= g <= 255)%Z /\ (0 <= b <= 255)%Z.
Proof. cbn. rewrite !andb_true_iff, !byte_ok_spec. tauto. Qed.

Lemma rgb2l_ok r g b : rgb_ok (r, g, b) = true -> byte_ok (rgb2l r g b) = true.
Proof. rewrite rgb_ok_spec, byte_ok_spec. intros (? & ? & ?). by apply rgb2l_bounds. Qed.

Lemma p2l_ok pal i :
  forallb rgb_ok pal = true -> byte_ok i = true -> byte_ok (p2l pal i) = true.
Proof.
  intros Hpal Hi. unfold p2l, palette_entry.
  destruct (pal !! Z.to_nat i) as [[[r g] b]|] eqn:E; cbn [default].
  - apply rgb2l_ok. apply list_elem_of_lookup_2 in E.
    apply list_elem_of_In in E. by apply forallb_forall with (x := (r, g, b)) in Hpal.
  - apply rgb2l_ok, rgb_ok_spec. apply byte_ok_spec in Hi. lia.
Qed.

Lemma shape_map {A B} (f : A -> B) rows : shape (map (map f) rows) = shape rows.
Proof. unfold shape. rewrite map_map. apply map_ext. intros. apply length_map. Qed.

(** Mapping a pixel function keeps a rectangle and carries the range of
    the pixels. *)
Lemma rows_ok_map {A B} (ok : A -> bool) (ok' : B -> bool) (f : A -> B) rows :
  (forall x, ok x = true -> ok' (f x) = true) ->
  rows_ok ok rows = true -> rows_ok ok' (map (map f) rows) = true.
Proof.
  unfold rows_ok, rect. rewrite shape_map, !andb_true_iff, !forallb_forall.
  intros Hf [Hr Hall]. split; [done |].
  intros r' (r & <- & Hin)%in_map_iff. apply forallb_forall.
  intros y (x & <- & Hx)%in_map_iff. apply Hf.
  specialize (Hall r Hin). rewrite forallb_forall in Hall. auto.
Qed.

Lemma rows_ok_elem {A} (ok : A -> bool) rows r x :
  rows_ok ok rows = true -> In r rows -> In x r -> ok x = true.
Proof.
  unfold rows_ok. rewrite andb_true_iff, forallb_forall. intros [_ Hall] Hr Hx.
  specialize (Hall r Hr). rewrite forallb_forall in Hall. auto.
Qed.

Lemma point_table_lookup f v :
  (0 <= v <= 255)%Z -> point_table f !! Z.to_nat v = Some (clip8 (f v)).
Proof.
  intros Hv. unfold point_table.
  rewrite list_lookup_fmap, lookup_seq_lt by lia. cbn. by rewrite Z2Nat.id by lia.
Qed.

(** ** Claims *)

(** [convert('L')] of a well-formed image of
    any mode is a well-formed "L" image (every pixel a byte, every row as
    wide as the first) of the same shape. *)
Lemma convert_L_gray im :
  image_wf im = true -> gray_wf (convert_L im) = true /\ shape (convert_L im) = image_shape im.
Proof.
  destruct im as [rows|rows|rows|pal rows|rows|rows|rows]; cbn [image_wf convert_L image_shape];
    intros Hwf; (split; [| by rewrite ?shape_map]); unfold gray_wf.
  - refine (rows_ok_map _ _ _ _ _ Hwf). intros v _. unfold bit2l. by case_match.
  - done.
  - refine (rows_ok_map _ _ _ _ _ Hwf). intros [l a]. cbn. by rewrite andb_true_iff; intros [? ?].
  - apply andb_true_iff in Hwf as [Hpal Hrows].
    refine (rows_ok_map _ _ _ _ _ Hrows). intros i. by apply p2l_ok.
  - refine (rows_ok_map _ _ _ _ _ Hwf). intros [[r g] b]. apply rgb2l_ok.
  - refine (rows_ok_map _ _ _ _ _ Hwf). intros [[[r g] b] a].
    cbn -[rgb_ok]. rewrite andb_true_iff. intros [? _]. by apply rgb2l_ok.
  - refine (rows_ok_map _ _ _ _ _ Hwf). intros v _. apply byte_ok_spec, clip8_bounds.
Qed.

(** C31: Pillow's fixed-point luma agrees with the ITU-R 601-2 transform
    its documentation states ([L = R * 299/1000 + G * 587/1000 + B *
    114/1000]) to within rounding: for 8-bit bands the "L" value of an RGB
    pixel is a byte, an exact gray [(v, v, v)] converts to [v], and the
    value is within 0.502 of the documented formula. *)
Theorem rgb2l_luma r g b :
  (0 <= r <= 255)%Z -> (0 <= g <= 255)%Z -> (0 <= b <= 255)%Z ->
  (0 <= rgb2l r g b <= 255)%Z /\ rgb2l r r r = r /\
  (Z.abs (1000 * rgb2l r g b - (299 * r + 587 * g + 114 * b)) <= 502)%Z.
Proof.
  intros. split; [by apply rgb2l_bounds |]. split; [by apply rgb2l_gray |].
  by apply rgb2l_itu_bound.
Qed.

(** A pixel of [point_L_to_1 lut] is an entry of [lut] or the default. *)
Lemma point_L_to_1_elem lut rows row x :
  row ∈ point_L_to_1 lut rows -> x ∈ row -> x ∈ lut \/ x = 0%Z.
Proof.
  unfold point_L_to_1. intros (r & -> & _)%list_elem_of_fmap (v & -> & _)%list_elem_of_fmap.
  destruct (lut !! _) eqn:E; [left; by eapply list_elem_of_lookup_2 | by right].
Qed.

Lemma point_table_elem f x :
  x ∈ point_table f -> exists i, (0 <= i <= 255)%Z /\ x = clip8 (f i).
Proof.
  unfold point_table. intros (n & -> & Hn)%list_elem_of_fmap.
  apply elem_of_seq in Hn. exists (Z.of_nat n). split; [lia | done].
Qed.

(** The "L" conversion of an RGBA image is the conversion of its colour
    bands alone. *)
Lemma convert_L_rgba rows :
  convert_L (ImageRGBA rows) = convert_L (ImageRGB (map (map fst) rows)).
Proof.
  cbn [convert_L]. rewrite map_map. apply map_ext. intros r.
  rewrite map_map. apply map_ext. by intros [[[? ?] ?] ?].
Qed.

(** C9: Type of the conversion: [convert('L')] of a well-formed image of
    any mode is a well-formed "L" image (every pixel a byte, every row as
    wide as the first) of the same shape. *)
Theorem convert_L_wf im :
  image_wf im = true -> gray_wf (convert_L im) = true /\ shape (convert_L im) = image_shape im.
Proof. apply convert_L_gray. Qed.

(** ** Witnesses *)

Lemma rgb2l_luma_witness :
  (0 <= 30 <= 255)%Z /\ (0 <= 60 <= 255)%Z /\ (0 <= 10 <= 255)%Z /\
  (0 <= rgb2l 30 60 10 <= 255)%Z /\ rgb2l 30 30 30 = 30%Z /\
  (Z.abs (1000 * rgb2l 30 60 10 - (299 * 30 + 587 * 60 + 114 * 10)) <= 502)%Z.
Proof.
  assert (H1 : (0 <= 30 <= 255)%Z) by lia.
  assert (H2 : (0 <= 60 <= 255)%Z) by lia.
  assert (H3 : (0 <= 10 <= 255)%Z) by lia.
  split; [exact H1 |]. split; [exact H2 |]. split; [exact H3 |].
  exact (rgb2l_luma _ _ _ H1 H2 H3).
Defined.

Lemma convert_L_wf_witness :
  image_wf palette_scan = true /\
  gray_wf (convert_L palette_scan) = true /\ shape (convert_L palette_scan) = image_shape palette_scan.
Proof.
  assert (H : image_wf palette_scan = true) by reflexivity.
  split; [exact H | exact (convert_L_wf _ H)].
Defined.

End Pil.
