(* ===== verification/Pbm.v ===== *)
(** * Pbm: the bitmap file [bw.save(pbm_path)] writes (line 16)

    Pillow saves a mode "1" image as a raw PBM ([PpmImagePlugin._save]:
    rawmode "1;I", header [b"P4"]): the header [P4\n<width> <height>\n]
    with the numbers in decimal ([b"%d %d" % im.size]), then every row
    packed by [pack1I] (libImaging/Pack.c) into [(width + 7) / 8] bytes,
    most significant bit first, a set bit for a black (zero) pixel, the
    last byte of a row padded with white.  potrace (line 22) and
    [Image.open] read the file back as the PBM format says: the magic
    number, two decimal numbers after white space and comments, one
    white-space character, then the rows.

    Bytes are [Z] values; [pbm_encode] and [pbm_decode] are the writer
    and the reader, and [pbm_roundtrip] shows that the reader gives back
    every well-formed bitmap the writer saves.  A body shorter than the
    header announces makes [pbm_decode] fail: PIL raises when it loads
    such a file, while potrace pads the missing rows with white and only
    warns; the script never writes such a file. *)

From S2P Require Import Prelude Pil.

Module Pbm.
Import Pil.

Abbreviation bytes := (list Z).

(** The byte of an ASCII character. *)
Definition byte_of (c : ascii) : Z := Z.of_nat (nat_of_ascii c).

(** ** Writing *)

(** [b"%d" % n]. *)
Definition show_nat (n : nat) : bytes :=
  map (fun d => 48 + Z.of_nat d)%Z (rev (rev_digits (S n) n)).

(** [pack1I]: [if (in[i] == 0) b |= m; m >>= 1; if (m == 0) { *out++ = b;
    b = 0; m = 128; }], and after the loop [if (m != 128) *out++ = b]. *)
Fixpoint pack1I_go (px : list Z) (b m : Z) : bytes :=
  match px with
  | [] => if (m =? 128)%Z then [] else [b]
  | v :: px' =>
      let b' := if (v =? 0)%Z then Z.lor b m else b in
      let m' := Z.shiftr m 1 in
      if (m' =? 0)%Z then b' :: pack1I_go px' 0 128 else pack1I_go px' b' m'
  end.

Definition pack1I (px : list Z) : bytes := pack1I_go px 0 128.

(** [im.size] of an image given by its rows. *)
Definition width (rows : list (list Z)) : nat :=
  match rows with
  | r :: _ => length r
  | [] => O
  end.

(** [bw.save(pbm_path)] for a mode "1" image: [fp.write(b"P4" +
    b"\n%d %d\n" % im.size)], then the raw encoder packs each row. *)
Definition pbm_encode (rows : list (list Z)) : bytes :=
  [byte_of "P"; byte_of "4"; 10]%Z ++ show_nat (width rows) ++ [32%Z] ++
  show_nat (length rows) ++ [10%Z] ++ mjoin (map pack1I rows).

(** ** Reading *)

Definition is_digit (b : Z) : bool := (48 <=? b)%Z && (b <=? 57)%Z.
Definition is_space (b : Z) : bool := (b =? 32)%Z || ((9 <=? b)%Z && (b <=? 13)%Z).

(** White space and comments ([#] to the end of the line) before a
    number; [in_comment] is the state of the scan. *)
Fixpoint skip_space (in_comment : bool) (bs : bytes) : bytes :=
  match bs with
  | [] => []
  | b :: bs' =>
      if in_comment then skip_space (negb (b =? 10)%Z) bs'
      else if is_space b then skip_space false bs'
      else if (b =? 35)%Z then skip_space true bs'
      else bs
  end.

(** The digits of a number, accumulated from the left. *)
Fixpoint read_digits (bs : bytes) (acc : nat) : nat * bytes :=
  match bs with
  | b :: bs' => if is_digit b then read_digits bs' (acc * 10 + Z.to_nat (b - 48)) else (acc, bs)
  | [] => (acc, [])
  end.

(** A header number: white space, then at least one digit. *)
Definition read_num (bs : bytes) : option (nat * bytes) :=
  match skip_space false bs with
  | b :: bs' => if is_digit b then Some (read_digits (b :: bs') 0) else None
  | [] => None
  end.

(** The bytes of a row of [w] pixels. *)
Definition row_bytes (w : nat) : nat := (w + 7) / 8.

(** The eight pixels of a byte, the most significant bit first; a set
    bit is black (0). *)
Definition unpack_byte (b : Z) : list Z :=
  map (fun k => if Z.testbit b (Z.of_nat (7 - k)) then 0%Z else 255%Z) (seq 0 8).

Definition unpack_row (w : nat) (row : bytes) : list Z := take w (mjoin (map unpack_byte row)).

(** [h] rows of [w] pixels; [None] when the data ends early. *)
Fixpoint read_rows (h w : nat) (bs : bytes) : option (list (list Z)) :=
  match h with
  | O => Some []
  | S h' =>
      if bool_decide (row_bytes w <= length bs)
      then rows ← read_rows h' w (drop (row_bytes w) bs);
           Some (unpack_row w (take (row_bytes w) bs) :: rows)
      else None
  end.

(** A raw PBM file: [P4], the width, the height, one white-space
    character, the rows. *)
Definition pbm_decode (bs : bytes) : option (list (list Z)) :=
  match bs with
  | m1 :: m2 :: rest =>
      if (m1 =? byte_of "P")%Z && (m2 =? byte_of "4")%Z then
        '(w, r1) ← read_num rest;
        '(h, r2) ← read_num r1;
        match r2 with
        | _ :: body => read_rows h w body
        | [] => None
        end
      else None
  | _ => None
  end.

(** A pixel of a "1" image. *)
Definition bit (v : Z) : Prop := v = 0%Z \/ v = 255%Z.

(** A bitmap of two rows of ten pixels: the second byte of each row is
    partial. *)
Definition sample_bitmap : list (list Z) :=
  [[0; 255; 0; 0; 255; 255; 255; 0; 0; 255]; [255; 255; 255; 255; 255; 255; 255; 255; 0; 0]]%Z.

(** ** The decimal numbers of the header *)

Lemma read_digits_app ds r acc :
  Forall (fun d => d < 10) ds ->
  read_digits (map (fun d => 48 + Z.of_nat d)%Z ds ++ r) acc =
    read_digits r (fold_left (fun a d => a * 10 + d) ds acc).
Proof.
  intros Hds. revert acc. induction Hds as [|d ds Hd _ IH]; intros acc; [done |].
  cbn. assert (Hdig : is_digit (48 + Z.of_nat d) = true)
    by (unfold is_digit; apply andb_true_iff; split; apply Z.leb_le; lia).
  rewrite Hdig, IH. do 3 f_equal. lia.
Qed.

Lemma show_nat_cons n : exists b bs, show_nat n = b :: bs /\ is_digit b = true.
Proof.
  destruct (rev_digits_spec (S n) n ltac:(lia)) as (_ & Hd & Hne).
  unfold show_nat. destruct (rev (rev_digits (S n) n)) as [|d ds] eqn:E.
  - apply (f_equal (@rev nat)) in E. rewrite rev_involutive in E. by subst.
  - eexists _, _. split; [reflexivity |].
    assert (Hd' : d < 10).
    { apply Forall_rev in Hd. rewrite E in Hd. by inversion Hd. }
    unfold is_digit. apply andb_true_iff; split; apply Z.leb_le; lia.
Qed.

(** The reader gives back the number [b"%d"] wrote, when a non-digit
    follows it. *)
Lemma read_num_show n b r :
  is_digit b = false -> read_num (show_nat n ++ b :: r) = Some (n, b :: r).
Proof.
  intros Hb. destruct (show_nat_cons n) as (c & cs & Hs & Hc).
  destruct (rev_digits_spec (S n) n ltac:(lia)) as (Hv & Hd & _).
  unfold read_num. rewrite Hs. cbn [app skip_space].
  assert (Hsp : is_space c = false).
  { unfold is_digit, is_space in *. apply andb_true_iff in Hc as [H1 H2].
    apply Z.leb_le in H1, H2. apply orb_false_iff. split; [apply Z.eqb_neq; lia |].
    apply andb_false_iff. right. apply Z.leb_gt. lia. }
  assert (H35 : (c =? 35)%Z = false).
  { unfold is_digit in Hc. apply andb_true_iff in Hc as [H1 _]. apply Z.leb_le in H1.
    apply Z.eqb_neq. lia. }
  rewrite Hsp, H35, Hc, app_comm_cons, <- Hs. unfold show_nat.
  rewrite read_digits_app by (by apply Forall_rev). rewrite Hv. cbn. by rewrite Hb.
Qed.

Lemma read_num_space b bs : is_space b = true -> read_num (b :: bs) = read_num bs.
Proof. intros Hb. unfold read_num. cbn [skip_space]. by rewrite Hb. Qed.

(** ** Packing and unpacking a row *)

Lemma pack1I_cons8 v0 v1 v2 v3 v4 v5 v6 v7 r :
  pack1I (v0 :: v1 :: v2 :: v3 :: v4 :: v5 :: v6 :: v7 :: r) =
    pack1I [v0; v1; v2; v3; v4; v5; v6; v7] ++ pack1I r.
Proof. reflexivity. Qed.

(** [bits_cases]: split every pixel hypothesis [bit v] of the context. *)
Ltac bits_cases :=
  repeat match goal with
         | H : Forall bit (_ :: _) |- _ => apply Forall_cons in H as [[-> | ->] H]
         end.

Lemma unpack_pack8 v0 v1 v2 v3 v4 v5 v6 v7 :
  Forall bit [v0; v1; v2; v3; v4; v5; v6; v7] ->
  mjoin (map unpack_byte (pack1I [v0; v1; v2; v3; v4; v5; v6; v7])) = [v0; v1; v2; v3; v4; v5; v6; v7].
Proof. intros H. bits_cases. all: reflexivity. Qed.

(** A last, partial byte. *)
Lemma unpack_pack_short r :
  0 < length r < 8 -> Forall bit r ->
  take (length r) (mjoin (map unpack_byte (pack1I r))) = r /\ length (pack1I r) = 1.
Proof.
  intros Hl H.
  destruct r as [|v0 [|v1 [|v2 [|v3 [|v4 [|v5 [|v6 [|v7 r]]]]]]]]; cbn [length] in Hl; try lia;
    bits_cases; split; reflexivity.
Qed.

Lemma pack_row r :
  Forall bit r ->
  unpack_row (length r) (pack1I r) = r /\ length (pack1I r) = row_bytes (length r).
Proof.
  unfold unpack_row, row_bytes.
  induction r as [r IH] using (induction_ltof1 _ (@length Z)); unfold ltof in IH.
  intros Hr. destruct (decide (length r < 8)) as [Hs | Hs].
  - destruct r as [|v r']; [done |].
    destruct (unpack_pack_short (v :: r')) as [H1 H2]; [cbn in *; lia | done |].
    rewrite H1, H2. split; [done |]. cbn [length] in Hs |- *.
    apply (Nat.div_unique _ 8 1 (length r')); lia.
  - destruct r as [|v0 [|v1 [|v2 [|v3 [|v4 [|v5 [|v6 [|v7 r']]]]]]]]; cbn [length] in Hs; try lia.
    do 8 (apply Forall_cons in Hr as [? Hr]).
    assert (H8 : Forall bit [v0; v1; v2; v3; v4; v5; v6; v7]) by (do 8 (constructor; [assumption |]); constructor).
    destruct (IH r') as [IH1 IH2]; [cbn; lia | done |].
    rewrite pack1I_cons8, map_app, join_app, unpack_pack8 by done. cbn [length].
    change (S (S (S (S (S (S (S (S (length r'))))))))) with (length [v0; v1; v2; v3; v4; v5; v6; v7] + length r').
    split; [by rewrite take_app_add, IH1 |].
    rewrite length_app, IH2. cbn [length]. change (length (pack1I [v0; v1; v2; v3; v4; v5; v6; v7])) with 1.
    assert (E : 8 + length r' + 7 = (length r' + 7) + 1 * 8) by lia.
    rewrite E, Nat.div_add by lia. lia.
Qed.

(** ** The rows of a file *)

Lemma read_rows_pack w rows rest :
  Forall (fun r => length r = w /\ Forall bit r) rows ->
  read_rows (length rows) w (mjoin (map pack1I rows) ++ rest) = Some rows.
Proof.
  induction 1 as [|r rows [<- Hr] _ IH]; [done |].
  destruct (pack_row r Hr) as [Hu Hl]. cbn [length read_rows].
  change (mjoin (map pack1I (r :: rows))) with (pack1I r ++ mjoin (map pack1I rows)).
  rewrite <- app_assoc, bool_decide_true by (rewrite length_app; lia).
  rewrite drop_app_length', take_app_length', IH, Hu by done. done.
Qed.

Lemma bit_ok_bit v : bit_ok v = true -> bit v.
Proof. unfold bit_ok, bit. rewrite orb_true_iff, !Z.eqb_eq. done. Qed.

Lemma rect_width rows : rect rows = true -> Forall (fun r => length r = width rows) rows.
Proof.
  destruct rows as [|r0 rs]; intros H; [constructor |].
  unfold rect, shape in H. cbn in H. constructor; [done |].
  apply List.Forall_forall. intros r Hin.
  eapply forallb_forall in H; [| by apply in_map]. by apply Nat.eqb_eq in H.
Qed.

Lemma bitmap_wf_rows rows :
  bitmap_wf rows = true -> Forall (fun r => length r = width rows /\ Forall bit r) rows.
Proof.
  unfold bitmap_wf, rows_ok. rewrite andb_true_iff, forallb_forall. intros [Hrect Hok].
  apply List.Forall_forall. intros r Hin. split.
  - by apply (proj1 (List.Forall_forall _ _) (rect_width rows Hrect)).
  - apply List.Forall_forall. intros v Hv. apply bit_ok_bit.
    by apply (proj1 (forallb_forall _ _) (Hok r Hin)).
Qed.

(** ** The file *)

(** Reading back the bytes of a well-formed bitmap. *)
Lemma pbm_decode_encode rows :
  bitmap_wf rows = true -> pbm_decode (pbm_encode rows) = Some rows.
Proof.
  intros Hwf. unfold pbm_encode, pbm_decode. cbn [app]. rewrite !Z.eqb_refl. cbn [andb].
  rewrite read_num_space by done. rewrite read_num_show by done. cbn [mbind option_bind].
  rewrite read_num_space by done. rewrite read_num_show by done. cbn [mbind option_bind].
  rewrite <- (app_nil_r (mjoin _)). by apply read_rows_pack, bitmap_wf_rows.
Qed.

(** C29: reading back the file [bw.save(pbm_path)] writes gives the
    bitmap that was saved: the raw PBM encoding (header [P4], width,
    height, rows packed by [pack1I]) is inverted by the reader for every
    well-formed bitmap (rectangular, pixels 0 or 255). *)
Theorem pbm_roundtrip rows :
  bitmap_wf rows = true -> pbm_decode (pbm_encode rows) = Some rows.
Proof. apply pbm_decode_encode. Qed.

Lemma pbm_roundtrip_witness :
  bitmap_wf sample_bitmap = true /\ pbm_decode (pbm_encode sample_bitmap) = Some sample_bitmap.
Proof. split; [reflexivity | apply pbm_roundtrip; reflexivity]. Defined.

End Pbm.
