(* ===== verification/PyStr.v ===== *)
(** * PyStr: the Python string operations the script uses on paths

    Paths are Python [str] values, modelled as [list ascii] ([pystr]).
    This file models [os.path.splitext] (POSIX [genericpath._splitext],
    called at [convert_to_pbm], line 15) and [str.replace] (called at
    [trace_with_potrace], line 20, and at [main], line 91), with their
    termination, round-trip and functional lemmas. *)

From S2P Require Import Prelude.

Abbreviation pystr := (list ascii).

(** A Python string literal. *)
Definition lit (s : string) : pystr := String.list_ascii_of_string s.

Definition ascii_eqb (a b : ascii) : bool := bool_decide (a = b).

Module PyStr.

(** [s.rfind(c)] for a one-character [c]: the last index of [c], or -1. *)
Fixpoint rfind_go (s : pystr) (c : ascii) (i : nat) (acc : Z) : Z :=
  match s with
  | [] => acc
  | x :: s' => rfind_go s' c (S i) (if ascii_eqb x c then Z.of_nat i else acc)
  end.

Definition rfind (s : pystr) (c : ascii) : Z := rfind_go s c 0 (-1)%Z.

(** The loop of [_splitext] that skips leading dots:
    [while filenameIndex < dotIndex: if p[filenameIndex:filenameIndex+1]
    != extsep: return ...; filenameIndex += 1]; [n] is the number of
    iterations left, [i] is [filenameIndex].  [true] is the early return. *)
Fixpoint skip_dots (p : pystr) (n i : nat) : bool :=
  match n with
  | O => false
  | S n' =>
      match p !! i with
      | Some c => if ascii_eqb c "." then skip_dots p n' (S i) else true
      | None => true
      end
  end.

(** [os.path.splitext(p)] on POSIX ([sep = '/'], no [altsep],
    [extsep = '.']). *)
Definition splitext (p : pystr) : pystr * pystr :=
  let sepIndex := rfind p "/" in
  let dotIndex := rfind p "." in
  if (sepIndex <? dotIndex)%Z then
    if skip_dots p (Z.to_nat (dotIndex - (sepIndex + 1))) (Z.to_nat (sepIndex + 1))
    then (take (Z.to_nat dotIndex) p, drop (Z.to_nat dotIndex) p)
    else (p, [])
  else (p, []).

(** [s.replace(old, new)]: every non-overlapping occurrence of [old],
    scanned from the left, is replaced by [new].  Each step consumes at
    least one character, so [length s] steps are enough (see
    [replace_go_fuel]). *)
Fixpoint replace_go (fuel : nat) (old new s : pystr) : pystr :=
  match fuel with
  | O => s
  | S f =>
      match s with
      | [] => []
      | c :: s' =>
          if bool_decide (old `prefix_of` s)
          then new ++ replace_go f old new (drop (length old) s)
          else c :: replace_go f old new s'
      end
  end.

(** An empty [old] inserts [new] before every character and at the end,
    as CPython does. *)
Definition replace (s old new : pystr) : pystr :=
  match old with
  | [] => new ++ mjoin (map (fun c => [c] ++ new) s)
  | _ => replace_go (length s) old new s
  end.

(** [old] occurs in [s]. *)
Definition occurs (old s : pystr) : Prop := exists a b, s = a ++ old ++ b.

(** [old in s], as Python computes it. *)
Definition occursb (old s : pystr) : bool :=
  existsb (fun i => bool_decide (old `prefix_of` drop i s)) (seq 0 (S (length s))).

(** [s.lstrip(c)] for a one-character [c]. *)
Fixpoint lstrip (c : ascii) (s : pystr) : pystr :=
  match s with
  | [] => []
  | x :: s' => if ascii_eqb x c then lstrip c s' else s
  end.

(** [s.rstrip(c)]. *)
Definition rstrip (c : ascii) (s : pystr) : pystr := rev (lstrip c (rev s)).

(** [os.path.dirname(p)] on POSIX:
    [i = p.rfind(sep) + 1; head = p[:i];
     if head and head != sep*len(head): head = head.rstrip(sep)]. *)
Definition dirname (p : pystr) : pystr :=
  let head := take (Z.to_nat (rfind p "/" + 1)) p in
  if bool_decide (head <> []) && negb (forallb (fun c => ascii_eqb c "/") head)
  then rstrip "/" head
  else head.

(** ** Lemmas *)

Lemma ascii_eqb_refl a : ascii_eqb a a = true.
Proof. unfold ascii_eqb. by apply bool_decide_true. Qed.

Lemma ascii_eqb_ne a b : a <> b -> ascii_eqb a b = false.
Proof. unfold ascii_eqb. by apply bool_decide_false. Qed.

Section Replace.
Context (old new : pystr).
Hypothesis old_nonempty : old <> [].

Lemma length_drop_old s :
  old `prefix_of` s -> s <> [] -> length (drop (length old) s) < length s.
Proof.
  intros _ Hs. rewrite length_drop.
  destruct old; [congruence |]. destruct s; [congruence |]. simpl. lia.
Qed.

Lemma replace_go_fuel f g s :
  length s <= f -> length s <= g ->
  replace_go f old new s = replace_go g old new s.
Proof.
  revert g s. induction f as [|f IH]; intros g s Hf Hg.
  - destruct s; [destruct g |]; simpl in *; [done | done | lia].
  - destruct s as [|c s']; [by destruct g |].
    destruct g as [|g]; [simpl in Hg; lia |]. simpl.
    case_bool_decide as Hp.
    + pose proof (length_drop_old (c :: s') Hp ltac:(done)) as Hl.
      simpl in *. f_equal. apply IH; lia.
    + simpl in *. f_equal. apply IH; lia.
Qed.

Lemma occurs_cons c s : occurs old s -> occurs old (c :: s).
Proof. intros (a & b & ->). by exists (c :: a), b. Qed.

Lemma replace_go_no_occurs f s :
  ~ occurs old s -> replace_go f old new s = s.
Proof.
  revert s. induction f as [|f IH]; intros s Hno; [done |].
  destruct s as [|c s']; [done |]. simpl.
  case_bool_decide as Hp.
  - exfalso. apply Hno. destruct Hp as [k ->]. by exists [], k.
  - f_equal. apply IH. intros Ho. by apply Hno, occurs_cons.
Qed.

(** An occurrence of [old] that starts inside [u] and ends inside the
    [old] that follows it is impossible when the first character of
    [old] does not occur again in [old]. *)
Lemma prefix_app_self d w u :
  old = d :: w -> d ∉ w -> u <> [] ->
  old `prefix_of` u ++ old -> occurs old u.
Proof.
  intros Hold Hd Hne [k Hk].
  destruct (app_eq_app _ _ _ _ Hk) as [l [[Hu _] | [Hu Hl]]].
  - exists [], l. by rewrite Hu.
  - destruct l as [|e l'].
    + exists [], []. rewrite Hu. simpl. by rewrite !app_nil_r.
    + destruct u as [|x u']; [done |].
      exfalso. apply Hd. rewrite Hold in Hu, Hl.
      simpl in Hu, Hl. injection Hu as -> ->. injection Hl as -> _.
      set_solver.
Qed.

Lemma replace_go_app_old d w f s :
  old = d :: w -> d ∉ w -> ~ occurs old s ->
  length (s ++ old) <= f ->
  replace_go f old new (s ++ old) = s ++ new.
Proof.
  intros Hold Hd. revert f. induction s as [|c s IH]; intros f Hno Hf.
  - destruct f as [|f]; [rewrite Hold in Hf; simpl in Hf; lia |].
    rewrite Hold. simpl. rewrite bool_decide_true by done.
    rewrite <- Hold, drop_all. destruct f; simpl; by rewrite ?app_nil_r.
  - destruct f as [|f]; [simpl in Hf; lia |]. simpl.
    rewrite bool_decide_false.
    + f_equal. apply IH; [| simpl in Hf; lia].
      intros Ho. by apply Hno, occurs_cons.
    + intros Hp. apply Hno. by apply (prefix_app_self d w (c :: s)).
Qed.

(** Replacing [old] by a different string of the same length changes any
    string in which [old] occurs. *)
Lemma replace_go_changes f s :
  length new = length old -> new <> old -> occurs old s -> length s <= f ->
  replace_go f old new s <> s.
Proof.
  intros Hlen Hne. revert s. induction f as [|f IH]; intros s Hocc Hf.
  - destruct Hocc as (a & b & ->). destruct old; [done |].
    rewrite !length_app in Hf. simpl in Hf. lia.
  - destruct s as [|c s'].
    + destruct Hocc as (a & b & Hab). apply (f_equal length) in Hab.
      rewrite !length_app in Hab. destruct old; [done |]. simpl in Hab. lia.
    + simpl. case_bool_decide as Hp.
      * destruct Hp as [k Hk]. rewrite Hk. rewrite drop_app_length. intros Heq.
        by apply app_inj_1 in Heq as [? _].
      * intros [= Heq]. revert Heq. apply IH; [| simpl in Hf; lia].
        destruct Hocc as ([|x a] & b & Hab).
        -- exfalso. apply Hp. by exists b.
        -- injection Hab as -> ->. by exists a, b.
Qed.
(** An occurrence of [old] cannot run over a character that [old] does
    not contain. *)
Lemma prefix_sep x c y : c ∉ old -> old `prefix_of` x ++ c :: y -> old `prefix_of` x.
Proof.
  intros Hc [k Hk]. destruct (app_eq_app _ _ _ _ Hk) as [l [[Hx _] | [Ho Hl]]].
  - by exists l.
  - destruct l as [|e l']; [exists []; rewrite Ho; by rewrite !app_nil_r |].
    exfalso. apply Hc. rewrite Ho. simpl in Hl. injection Hl as -> _. set_solver.
Qed.

(** [replace] works on both sides of such a character separately. *)
Lemma replace_go_sep f x c y :
  c ∉ old -> length (x ++ c :: y) <= f ->
  replace_go f old new (x ++ c :: y) = replace_go (length x) old new x ++ c :: replace_go (length y) old new y.
Proof.
  intros Hc. revert f y.
  induction x as [x IH] using (induction_ltof1 _ (@length ascii)); unfold ltof in IH.
  intros f y Hf. destruct f as [|f]; [rewrite length_app in Hf; simpl in Hf; lia |].
  destruct x as [|x0 x'].
  - cbn [app replace_go]. rewrite bool_decide_false.
    + cbn [length replace_go app]. f_equal. apply replace_go_fuel; simpl in Hf; lia.
    + intros Hp. destruct old as [|o os]; [done |]. destruct Hp as [k Hk].
      injection Hk as -> _. set_solver.
  - cbn [app replace_go length]. case_bool_decide as Hp.
    + pose proof (prefix_sep (x0 :: x') c y Hc Hp) as Hp'.
      rewrite bool_decide_true by exact Hp'.
      pose proof (prefix_length _ _ Hp') as Hlen.
      assert (Ho : 0 < length old) by (destruct old; [done | simpl; lia]).
      change (x0 :: x' ++ c :: y) with ((x0 :: x') ++ c :: y).
      rewrite (drop_app_le (x0 :: x')) by done.
      rewrite (IH (drop (length old) (x0 :: x'))); [| rewrite length_drop; simpl; lia |].
      * rewrite <- app_assoc. f_equal. f_equal. apply replace_go_fuel; rewrite ?length_drop; simpl; lia.
      * rewrite length_app, length_drop. simpl in *. rewrite length_app in Hf. simpl in Hf. lia.
    + rewrite bool_decide_false
        by (intros Hp'; apply Hp; change (x0 :: x' ++ c :: y) with ((x0 :: x') ++ c :: y);
            by apply prefix_app_r).
      cbn [app]. f_equal. apply IH; [simpl; lia |]. simpl in Hf. lia.
Qed.

Lemma replace_go_length f s :
  length new = length old -> length (replace_go f old new s) = length s.
Proof.
  intros Hl. revert s. induction f as [|f IH]; intros s; [done |].
  destruct s as [|c s']; [done |]. cbn [replace_go]. case_bool_decide as Hp.
  - rewrite length_app, IH, length_drop, Hl. pose proof (prefix_length _ _ Hp). lia.
  - simpl. by rewrite IH.
Qed.

Lemma replace_go_notin f s c : c ∉ s -> c ∉ new -> c ∉ replace_go f old new s.
Proof.
  revert s. induction f as [|f IH]; intros s Hs Hn; [done |].
  destruct s as [|x s']; [done |]. cbn [replace_go]. case_bool_decide.
  - rewrite elem_of_app. intros [? | Hin]; [done |]. revert Hin. apply IH; [| done].
    intros Hd. apply Hs. apply list_elem_of_lookup in Hd as [i Hi]. rewrite lookup_drop in Hi.
    by eapply list_elem_of_lookup_2.
  - rewrite elem_of_cons. intros [-> | Hin]; [set_solver |]. revert Hin. apply IH; [set_solver | done].
Qed.

Lemma replace_go_nil f s : new <> [] -> replace_go f old new s = [] -> s = [].
Proof.
  intros Hn. destruct f as [|f]; [done |]. destruct s as [|c s']; [done |].
  cbn [replace_go]. case_bool_decide; [by destruct new | done].
Qed.

(** The last character of the result is the last character of [s] or
    one of [new]. *)
Lemma replace_go_last f s z :
  new <> [] -> last (replace_go f old new s) = Some z -> last s = Some z \/ z ∈ new.
Proof.
  intros Hn. revert s. induction f as [|f IH]; intros s Hz; [by left |].
  destruct s as [|c s']; [done |]. cbn [replace_go] in Hz. case_bool_decide as Hp.
  - rewrite last_app in Hz. destruct (last (replace_go f old new _)) as [z'|] eqn:E.
    + injection Hz as ->. destruct (IH _ E) as [Hl | Hin]; [left | by right].
      rewrite <- (take_drop (length old) (c :: s')), last_app, Hl. done.
    + right. by apply last_Some_elem_of.
  - rewrite last_cons in Hz. destruct (last (replace_go f old new s')) as [z'|] eqn:E.
    + injection Hz as ->. destruct (IH _ E) as [Hl | Hin]; [left | by right].
      by rewrite last_cons, Hl.
    + injection Hz as ->. left. apply last_None, replace_go_nil in E; [| done]. by subst.
Qed.
Lemma replace_go_step_prefix f s :
  old `prefix_of` s -> s <> [] ->
  replace_go (S f) old new s = new ++ replace_go f old new (drop (length old) s).
Proof. intros Hp Hs. destruct s as [|c s']; [done |]. cbn [replace_go]. by rewrite bool_decide_true. Qed.

(** [replace] from the left: the characters before the first occurrence
    are kept, the occurrence becomes [new], and the rest is replaced in
    turn. *)
Lemma replace_go_first f u v :
  (forall i, i < length u -> ~ old `prefix_of` drop i (u ++ old ++ v)) ->
  length (u ++ old ++ v) <= f ->
  replace_go f old new (u ++ old ++ v) = u ++ new ++ replace_go (length v) old new v.
Proof.
  assert (Hlo : 0 < length old) by (destruct old; [done | simpl; lia]).
  revert f. induction u as [|c u IH]; intros f Hfirst Hf.
  - cbn [app] in *. rewrite length_app in Hf.
    destruct f as [|f]; [lia |].
    rewrite replace_go_step_prefix; [| by exists v | by intros [? _]%app_eq_nil].
    rewrite drop_app_length. f_equal. apply replace_go_fuel; lia.
  - destruct f as [|f]; [simpl in Hf; lia |]. cbn [app replace_go].
    rewrite bool_decide_false by (apply (Hfirst 0); simpl; lia).
    f_equal. apply IH; [| simpl in Hf; lia].
    intros i Hi. apply (Hfirst (S i)). simpl. lia.
Qed.
End Replace.

(** [str.replace] on both sides of a character [old] does not contain. *)
Lemma replace_sep s1 c s2 old new :
  old <> [] -> c ∉ old -> replace (s1 ++ c :: s2) old new = replace s1 old new ++ c :: replace s2 old new.
Proof.
  intros Ho Hc. unfold replace. destruct old as [|o os]; [done |].
  apply replace_go_sep; [done | done | lia].
Qed.

Lemma replace_length s old new :
  old <> [] -> length new = length old -> length (replace s old new) = length s.
Proof. intros Ho Hl. unfold replace. destruct old as [|o os]; [done |]. by apply replace_go_length. Qed.

Lemma replace_notin s old new c :
  old <> [] -> c ∉ s -> c ∉ new -> c ∉ replace s old new.
Proof. intros Ho Hs Hn. unfold replace. destruct old as [|o os]; [done |]. by apply replace_go_notin. Qed.

Lemma replace_last s old new z :
  old <> [] -> new <> [] -> last (replace s old new) = Some z -> last s = Some z \/ z ∈ new.
Proof. intros Ho Hn. unfold replace. destruct old as [|o os]; [done |]. by apply replace_go_last. Qed.

(** C37: [str.replace] (lines 20 and 91) replaces every occurrence of
    [old], scanning from the left without overlaps: a string in which
    [old] does not occur is unchanged, and when the first occurrence of
    [old] in [s] follows the prefix [u], [s.replace(old, new)] is
    [u + new + rest.replace(old, new)] for the [rest] after that
    occurrence. *)
Theorem replace_spec old new :
  old <> [] ->
  (forall s, ~ occurs old s -> replace s old new = s) /\
  (forall u v, (forall i, i < length u -> ~ old `prefix_of` drop i (u ++ old ++ v)) ->
     replace (u ++ old ++ v) old new = u ++ new ++ replace v old new).
Proof.
  intros Ho. split.
  - intros s Hno. unfold replace. destruct old; [done |]. by apply replace_go_no_occurs.
  - intros u v Hfirst. unfold replace. destruct old as [|o os]; [done |].
    rewrite (replace_go_first (o :: os) new ltac:(done) _ u v Hfirst) by lia.
    by destruct v.
Qed.

Lemma replace_no_occurs s old new :
  old <> [] -> ~ occurs old s -> replace s old new = s.
Proof.
  intros Hne Hno. unfold replace. destruct old; [done |].
  by apply replace_go_no_occurs.
Qed.

Lemma replace_changes s old new :
  old <> [] -> length new = length old -> new <> old -> occurs old s -> replace s old new <> s.
Proof.
  intros Ho Hl Hn Hocc. unfold replace. destruct old as [|o os]; [done |].
  by apply replace_go_changes.
Qed.

(** Replacing a suffix. *)
Lemma replace_app_suffix s d w new :
  d ∉ w -> ~ occurs (d :: w) s ->
  replace (s ++ d :: w) (d :: w) new = s ++ new.
Proof.
  intros Hd Hno. unfold replace.
  apply (replace_go_app_old (d :: w) new) with (d := d) (w := w); done.
Qed.

Section Splitext.

Lemma rfind_go_app s1 s2 c i acc :
  rfind_go (s1 ++ s2) c i acc = rfind_go s2 c (i + length s1) (rfind_go s1 c i acc).
Proof.
  revert i acc. induction s1 as [|x s1 IH]; intros i acc; simpl.
  - by rewrite Nat.add_0_r.
  - rewrite IH. f_equal. lia.
Qed.

Lemma rfind_go_notin s c i acc : c ∉ s -> rfind_go s c i acc = acc.
Proof.
  revert i acc. induction s as [|x s IH]; intros i acc Hc; [done |]. simpl.
  unfold ascii_eqb. rewrite bool_decide_false by set_solver.
  apply IH. set_solver.
Qed.

Lemma rfind_go_bound s c i acc :
  (acc < Z.of_nat i)%Z ->
  (-1 <= acc)%Z -> (-1 <= rfind_go s c i acc < Z.of_nat (i + length s))%Z.
Proof.
  revert i acc. induction s as [|x s IH]; intros i acc Hi Ha; simpl; [lia |].
  unfold ascii_eqb.
  case_bool_decide; (edestruct IH as [H1 H2]; [| | split; [exact H1 | ]]); lia.
Qed.

Lemma rfind_snoc r x c :
  rfind (r ++ [x]) c = if ascii_eqb x c then Z.of_nat (length r) else rfind r c.
Proof. unfold rfind. rewrite rfind_go_app. done. Qed.

Lemma rfind_range r c : (-1 <= rfind r c < Z.of_nat (length r))%Z.
Proof. unfold rfind. apply (rfind_go_bound r c 0); lia. Qed.

Lemma skip_dots_true p n i j x :
  i <= j < i + n -> p !! j = Some x -> x <> "."%char -> skip_dots p n i = true.
Proof.
  revert i. induction n as [|n IH]; intros i Hj Hx Hdot; [lia |]. simpl.
  destruct (p !! i) as [y|] eqn:Hy; [| done].
  unfold ascii_eqb. case_bool_decide as Hd; [| done].
  subst y. destruct (decide (i = j)) as [->|Hne]; [congruence |].
  apply IH; [lia | done | done].
Qed.

(** [rfind] finds the last occurrence, or none. *)
Lemma rfind_spec p c :
  (rfind p c = (-1)%Z /\ c ∉ p) \/
  (exists i, rfind p c = Z.of_nat i /\ p !! i = Some c /\ forall j, i < j -> p !! j <> Some c).
Proof.
  induction p as [|x r IH] using rev_ind; [left; split; [done | apply not_elem_of_nil] |].
  rewrite rfind_snoc. unfold ascii_eqb. case_bool_decide as Hx.
  - subst x. right. exists (length r). split; [done |].
    split; [by apply list_lookup_middle |].
    intros j Hj. rewrite lookup_ge_None_2; [done | rewrite length_app; simpl; lia].
  - destruct IH as [[Hm Hn] | (i & Hi & Hl & Hmax)]; [left | right].
    + split; [done |]. rewrite elem_of_app, list_elem_of_singleton. intros [? | ?]; [done | congruence].
    + exists i. split; [done |]. split; [by apply lookup_app_l_Some |].
      intros j Hj. destruct (decide (j < length r)).
      * rewrite lookup_app_l by done. by apply Hmax.
      * rewrite lookup_app_r by lia. destruct (j - length r) as [|k]; simpl; [congruence | done].
Qed.

Lemma skip_dots_false p n i :
  skip_dots p n i = false -> forall j, i <= j < i + n -> p !! j = Some "."%char.
Proof.
  revert i. induction n as [|n IH]; intros i Hs j Hj; [lia |]. cbn [skip_dots] in Hs.
  destruct (p !! i) as [x|] eqn:Hx; [| done]. unfold ascii_eqb in Hs.
  case_bool_decide as Hd; [| done]. subst x.
  destruct (decide (j = i)) as [-> | Hne]; [done |]. apply (IH (S i)); [done | lia].
Qed.

Lemma skip_dots_true_inv p n i :
  skip_dots p n i = true -> exists j, i <= j < i + n /\ p !! j <> Some "."%char.
Proof.
  revert i. induction n as [|n IH]; intros i Hs; [done |]. cbn [skip_dots] in Hs.
  destruct (p !! i) as [x|] eqn:Hx.
  - unfold ascii_eqb in Hs. case_bool_decide as Hd.
    + destruct (IH (S i) Hs) as (j & Hj & Hn). exists j. split; [lia | done].
    + exists i. split; [lia |]. rewrite Hx. congruence.
  - exists i. split; [lia |]. by rewrite Hx.
Qed.

(** A dot in a last path component [b] of [p = q + b]. *)
Lemma basename_dot p q b x y :
  p = q ++ b -> b = x ++ "."%char :: y -> "/"%char ∉ b ->
  p !! (length q + length x) = Some "."%char /\
  (forall k, k < length x -> p !! (length q + k) = x !! k) /\
  (forall j, p !! j = Some "/"%char -> j < length q).
Proof.
  intros -> -> Hb. split; [| split].
  - rewrite lookup_app_r by lia. replace (length q + length x - length q) with (length x) by lia.
    by apply list_lookup_middle.
  - intros k Hk. rewrite lookup_app_r by lia. replace (length q + k - length q) with k by lia.
    by rewrite lookup_app_l.
  - intros j Hj. destruct (decide (j < length q)); [done |]. exfalso. apply Hb.
    rewrite lookup_app_r in Hj by lia. by eapply list_elem_of_lookup_2.
Qed.
End Splitext.

(** A string that does not end with a separator is not all separators. *)
Lemma forallb_sep_last X :
  X <> [] -> last X <> Some "/"%char -> forallb (fun c => ascii_eqb c "/") X = false.
Proof.
  intros HX Hl. destruct (last X) as [z|] eqn:Hz; [| by apply last_None in Hz].
  apply last_Some in Hz as [X' ->]. rewrite forallb_app. cbn [forallb].
  rewrite ascii_eqb_ne by congruence. by rewrite andb_false_r.
Qed.

(** [os.path.dirname(X + "/" + Y)] is [X] when [Y] has no separator and
    [X] does not end with one. *)
Lemma dirname_sep X Y :
  "/"%char ∉ Y -> X <> [] -> last X <> Some "/"%char -> dirname (X ++ "/"%char :: Y) = X.
Proof.
  intros HY HX Hl. unfold dirname.
  assert (Hr : rfind (X ++ "/"%char :: Y) "/" = Z.of_nat (length X)).
  { unfold rfind. rewrite rfind_go_app. cbn [rfind_go]. rewrite ascii_eqb_refl.
    by apply rfind_go_notin. }
  rewrite Hr. replace (Z.to_nat (Z.of_nat (length X) + 1)) with (length X + 1) by lia.
  rewrite take_app, take_ge by lia. replace (length X + 1 - length X) with 1 by lia. cbn [take].
  rewrite bool_decide_true by (by intros [? _]%app_eq_nil).
  rewrite forallb_app, (forallb_sep_last X HX Hl). cbn [andb negb].
  destruct (last X) as [z|] eqn:Hz; [| by apply last_None in Hz].
  apply last_Some in Hz as [X' ->]. unfold rstrip.
  rewrite rev_unit. cbn [lstrip]. rewrite ascii_eqb_refl, rev_unit. cbn [lstrip].
  rewrite ascii_eqb_ne by congruence. cbn [rev]. by rewrite rev_involutive.
Qed.

(** [splitext] of an ordinary file name. *)
Lemma splitext_plain r x ext :
  x <> "."%char -> x <> "/"%char -> "."%char ∉ ext -> "/"%char ∉ ext ->
  splitext ((r ++ [x]) ++ "."%char :: ext) = (r ++ [x], "."%char :: ext).
Proof.
  intros Hx1 Hx2 Hd Hs.
  assert (Hdot : rfind ((r ++ [x]) ++ "."%char :: ext) "." = Z.of_nat (length (r ++ [x]))).
  { unfold rfind. rewrite rfind_go_app. cbn [rfind_go].
    rewrite ascii_eqb_refl. apply rfind_go_notin, Hd. }
  assert (Hsep : rfind ((r ++ [x]) ++ "."%char :: ext) "/" = rfind r "/").
  { unfold rfind at 1. rewrite rfind_go_app, rfind_go_notin.
    - change (rfind (r ++ [x]) "/" = rfind r "/").
      by rewrite rfind_snoc, ascii_eqb_ne.
    - apply not_elem_of_cons. split; [done | exact Hs]. }
  pose proof (rfind_range r "/") as Hr.
  unfold splitext. rewrite Hdot, Hsep, length_app. simpl length.
  rewrite (proj2 (Z.ltb_lt _ _)) by lia.
  erewrite (skip_dots_true _ _ _ (length r) x); [| lia | | done].
  - replace (Z.to_nat (Z.of_nat (length r + 1))) with (length (r ++ [x]))
      by (rewrite length_app; simpl; lia).
    by rewrite take_app_length, drop_app_length.
  - rewrite <- app_assoc. by apply list_lookup_middle.
Qed.

Lemma occursb_false old s : occursb old s = false -> ~ occurs old s.
Proof.
  intros Hb (a & b & ->). unfold occursb in Hb.
  assert (Hin : existsb (fun i => bool_decide (old `prefix_of` drop i (a ++ old ++ b)))
                  (seq 0 (S (length (a ++ old ++ b)))) = true).
  { apply existsb_exists. exists (length a). split.
    - apply in_seq. rewrite !length_app. lia.
    - apply bool_decide_true. rewrite drop_app_length. by exists b. }
  congruence.
Qed.

Lemma replace_nonempty s old new :
  old <> [] -> new <> [] -> s <> [] -> replace s old new <> [].
Proof.
  intros Ho Hn Hs. unfold replace. destruct old as [|o os]; [done |].
  destruct s as [|c s']; [done |]. simpl.
  case_bool_decide; [by destruct new | done].
Qed.

(** Replacing the extension: if [old] does not occur in [s] and its first
    character (the dot) does not occur again in it, then
    [(s + old).replace(old, new) == s + new]. *)
Theorem replace_suffix s d w new :
  d ∉ w -> ~ occurs (d :: w) s ->
  replace (s ++ d :: w) (d :: w) new = s ++ new.
Proof. apply replace_app_suffix. Qed.

(** [os.path.splitext] on an ordinary file name: when the last character
    of [root] is neither a dot nor a separator and [ext] holds neither,
    [splitext(root + "." + ext) == (root, "." + ext)]. *)
Theorem splitext_ext r x ext :
  x <> "."%char -> x <> "/"%char -> "."%char ∉ ext -> "/"%char ∉ ext ->
  splitext ((r ++ [x]) ++ "."%char :: ext) = (r ++ [x], "."%char :: ext).
Proof. apply splitext_plain. Qed.

(** C35: [os.path.splitext(p)] (line 15) as POSIX defines it: [root +
    ext == p]; a non-empty [ext] is a dot followed by neither a dot nor a
    separator, and the last path component of [root] has a character
    other than a dot; and [ext] is empty only when every dot of the last
    path component of [p] belongs to its leading dots (so [.bashrc] has no
    extension and [a.b.c] has [.c]). *)
Theorem splitext_spec p :
  let '(root, ext) := splitext p in
  root ++ ext = p /\
  (ext = [] \/ exists e, ext = "."%char :: e /\ ("."%char ∉ e) /\ ("/"%char ∉ e) /\
     exists r1 r2 c, root = r1 ++ r2 /\ ("/"%char ∉ r2) /\ c ∈ r2 /\ c <> "."%char) /\
  (ext = [] -> forall q b x y, p = q ++ b -> ("/"%char ∉ b) -> b = x ++ "."%char :: y ->
     Forall (fun c => c = "."%char) x).
Proof.
  assert (Hstart : exists st, (rfind p "/" + 1 = Z.of_nat st)%Z /\
            (forall j, st <= j -> p !! j <> Some "/"%char) /\
            (forall q b, p = q ++ b -> "/"%char ∉ b -> st <= length q)).
  { destruct (rfind_spec p "/") as [[-> Hn] | (i & -> & Hl & Hmax)].
    - exists 0. split; [done |]. split; [| intros; lia].
      intros j _ Hj. apply Hn. by eapply list_elem_of_lookup_2.
    - exists (S i). split; [lia |]. split; [intros j Hj; apply Hmax; lia |].
      intros q b -> Hb. destruct (decide (i < length q)); [lia |]. exfalso. apply Hb.
      rewrite lookup_app_r in Hl by lia. by eapply list_elem_of_lookup_2. }
  destruct Hstart as (st & Hst & Hnosep & Hbase).
  pose proof (rfind_range p "/") as Hsr.
  unfold splitext. cbv zeta.
  replace (Z.to_nat (rfind p "/" + 1)) with st by lia.
  destruct (rfind_spec p ".") as [[Hd Hdn] | (di & Hd & Hdl & Hdmax)]; rewrite Hd.
  - rewrite (proj2 (Z.ltb_ge _ _)) by lia.
    split; [apply app_nil_r |]. split; [by left |].
    intros _ q b x y Hp Hb Hx. exfalso. apply Hdn. rewrite Hp, Hx. set_solver.
  - assert (Hdot : forall q b x y, p = q ++ b -> "/"%char ∉ b -> b = x ++ "."%char :: y ->
                     st <= length q /\ length q + length x <= di /\
                     forall k, k < length x -> p !! (length q + k) = x !! k).
    { intros q b x y Hp Hb Hx. destruct (basename_dot p q b x y Hp Hx Hb) as (Hm & Hxk & _).
      split; [exact (Hbase q b Hp Hb) |]. split; [| exact Hxk].
      destruct (decide (length q + length x <= di)); [done |].
      exfalso. exact (Hdmax (length q + length x) ltac:(lia) Hm). }
    destruct (Z.ltb_spec (rfind p "/") (Z.of_nat di)) as [Hlt | Hge].
    + replace (Z.to_nat (Z.of_nat di - (rfind p "/" + 1))) with (di - st) by lia.
      rewrite Nat2Z.id. destruct (skip_dots p (di - st) st) eqn:Hsk.
      * split; [apply take_drop |]. rewrite (drop_S p "."%char di Hdl).
        split; [right | intros [=]].
        exists (drop (S di) p). split; [done |]. split; [| split].
        -- intros Hin. apply list_elem_of_lookup in Hin as [k Hk]. rewrite lookup_drop in Hk.
           exact (Hdmax (S di + k) ltac:(lia) Hk).
        -- intros Hin. apply list_elem_of_lookup in Hin as [k Hk]. rewrite lookup_drop in Hk.
           exact (Hnosep (S di + k) ltac:(lia) Hk).
        -- destruct (skip_dots_true_inv _ _ _ Hsk) as (j & Hj & Hjd).
           pose proof (lookup_lt_Some _ _ _ Hdl) as Hdlen.
           destruct (p !! j) as [c|] eqn:Hc; [| apply lookup_ge_None in Hc; lia].
           exists (take st (take di p)), (drop st (take di p)), c.
           split; [by rewrite take_drop |]. split; [| split].
           ++ intros Hin. apply list_elem_of_lookup in Hin as [k Hk]. rewrite lookup_drop in Hk.
              destruct (decide (st + k < di)).
              ** rewrite lookup_take_lt in Hk by done. exact (Hnosep (st + k) ltac:(lia) Hk).
              ** rewrite lookup_take_ge in Hk by lia. discriminate.
           ++ apply list_elem_of_lookup. exists (j - st).
              rewrite lookup_drop, lookup_take_lt by lia. by replace (st + (j - st)) with j by lia.
           ++ intros ->. congruence.
      * split; [apply app_nil_r |]. split; [by left |].
        intros _ q b x y Hp Hb Hx. destruct (Hdot q b x y Hp Hb Hx) as (Hq & Hmd & Hxk).
        apply Forall_forall. intros c Hc. apply list_elem_of_lookup in Hc as [k Hk].
        pose proof (lookup_lt_Some _ _ _ Hk).
        pose proof (skip_dots_false p (di - st) st Hsk (length q + k) ltac:(lia)) as Hd'.
        rewrite Hxk in Hd' by done. congruence.
    + split; [apply app_nil_r |]. split; [by left |].
      intros _ q b x y Hp Hb Hx. exfalso. destruct (Hdot q b x y Hp Hb Hx) as (Hq & Hmd & _). lia.
Qed.

(** ** Witnesses *)

Lemma replace_spec_witness :
  lit ".svg" <> [] /\
  (forall s, ~ occurs (lit ".svg") s -> replace s (lit ".svg") (lit ".dxf") = s) /\
  (forall u v, (forall i, i < length u -> ~ lit ".svg" `prefix_of` drop i (u ++ lit ".svg" ++ v)) ->
     replace (u ++ lit ".svg" ++ v) (lit ".svg") (lit ".dxf") = u ++ lit ".dxf" ++ replace v (lit ".svg") (lit ".dxf")).
Proof.
  assert (H : lit ".svg" <> []) by discriminate.
  split; [exact H | exact (replace_spec (lit ".svg") (lit ".dxf") H)].
Defined.

Lemma replace_suffix_witness :
  ("."%char ∉ lit "pbm") /\ ~ occurs (lit ".pbm") (lit "scan") /\
  replace (lit "scan" ++ lit ".pbm") (lit ".pbm") (lit ".svg") = lit "scan" ++ lit ".svg".
Proof.
  assert (Hd : "."%char ∉ lit "pbm") by (apply (bool_decide_unpack _); vm_compute; exact I).
  assert (Ho : ~ occurs (lit ".pbm") (lit "scan")) by (apply occursb_false; vm_compute; reflexivity).
  split; [exact Hd |]. split; [exact Ho |].
  exact (replace_suffix (lit "scan") "." (lit "pbm") (lit ".svg") Hd Ho).
Defined.

Lemma splitext_ext_witness :
  "n"%char <> "."%char /\ "n"%char <> "/"%char /\
  ("."%char ∉ lit "png") /\ ("/"%char ∉ lit "png") /\
  splitext ((lit "/tmp/sca" ++ ["n"%char]) ++ "."%char :: lit "png")
    = (lit "/tmp/sca" ++ ["n"%char], "."%char :: lit "png").
Proof.
  assert (H1 : "n"%char <> "."%char) by discriminate.
  assert (H2 : "n"%char <> "/"%char) by discriminate.
  assert (H3 : "."%char ∉ lit "png") by (apply (bool_decide_unpack _); vm_compute; exact I).
  assert (H4 : "/"%char ∉ lit "png") by (apply (bool_decide_unpack _); vm_compute; exact I).
  split; [exact H1 |]. split; [exact H2 |]. split; [exact H3 |]. split; [exact H4 |].
  exact (splitext_ext (lit "/tmp/sca") "n" (lit "png") H1 H2 H3 H4).
Defined.

End PyStr.
