(* ===== verification/Geometry.v ===== *)
(** * Geometry: the numeric values the script handles

    [complex] is Python's complex number as returned by svgpathtools'
    [segment.point(t)]; [vec2] is ezdxf's [Vec2].  Python floats are
    modelled as exact rationals [Q] (see the root header).  The
    [SvgSegment] class is the interface the script relies on: anything
    with a [point(t)] method; [svg_segment] gives it the segment classes
    svgpathtools builds from potrace's output (lines and Bezier curves),
    written from svgpathtools' own [point] methods. *)

From S2P Require Import Prelude.
From Stdlib Require Import QArith Qround Lqa.

Record complex := Cplx { re : Q; im : Q }.

Definition cadd (a b : complex) : complex := Cplx (re a + re b) (im a + im b).
Definition csub (a b : complex) : complex := Cplx (re a - re b) (im a - im b).
Definition cscale (t : Q) (a : complex) : complex := Cplx (t * re a) (t * im a).

(** ezdxf's [Vec2(x, y)]. *)
Record vec2 := Vec2 { vx : Q; vy : Q }.

#[export] Instance Q_eq_dec : EqDecision Q.
Proof. solve_decision. Defined.

#[export] Instance vec2_eq_dec : EqDecision vec2.
Proof. solve_decision. Defined.

(** The squared Euclidean distance [|p - q|^2]. *)
Definition distance2 (p q : vec2) : Q :=
  (vx p - vx q) * (vx p - vx q) + (vy p - vy q) * (vy p - vy q).

(** [Vec2( *pt).distance(last) > 0.1].  [distance] is the square root of
    [distance2]; both sides are non-negative, so the test is
    [0.1 * 0.1 < distance2]. *)
Definition min_separation : Q := 1 # 10.

Definition far (p q : vec2) : bool :=
  negb (Qle_bool (distance2 p q) (min_separation * min_separation)).

(** Two points with equal coordinates as numbers ([Qeq]), whatever the
    fractions that represent them. *)
Definition vec2_equiv (p q : vec2) : Prop := vx p == vx q /\ vy p == vy q.

(** ** The segment interface *)

Class SvgSegment (S : Type) := { point : S -> Q -> complex }.

(** svgpathtools' segment classes. *)
Inductive svg_segment :=
| Line (start end_ : complex)
| QuadraticBezier (start control end_ : complex)
| CubicBezier (start control1 control2 end_ : complex).

(** [Line.point]: [self.start + (self.end - self.start) * t];
    [QuadraticBezier.point]: [(1-t)**2*start + 2*(1-t)*t*control + t**2*end];
    [CubicBezier.point]: the Bernstein form. *)
Definition svg_segment_point (s : svg_segment) (t : Q) : complex :=
  match s with
  | Line a b => cadd a (cscale t (csub b a))
  | QuadraticBezier a c b =>
      cadd (cadd (cscale ((1 - t) * (1 - t)) a) (cscale (2 * (1 - t) * t) c))
           (cscale (t * t) b)
  | CubicBezier a c1 c2 b =>
      cadd (cadd (cscale ((1 - t) * (1 - t) * (1 - t)) a)
                 (cscale (3 * (1 - t) * (1 - t) * t) c1))
           (cadd (cscale (3 * (1 - t) * t * t) c2) (cscale (t * t * t) b))
  end.

#[export] Instance svg_segment_SvgSegment : SvgSegment svg_segment :=
  {| point := svg_segment_point |}.

(** ** Lemmas *)

#[export] Instance vec2_equiv_Equivalence : Equivalence vec2_equiv.
Proof.
  split.
  - intros p. split; reflexivity.
  - intros p q [Hx Hy]. split; symmetry; assumption.
  - intros p q r [Hx1 Hy1] [Hx2 Hy2]. split; etransitivity; eassumption.
Qed.

#[export] Instance distance2_proper : Proper (vec2_equiv ==> vec2_equiv ==> Qeq) distance2.
Proof.
  intros p p' [Hx Hy] q q' [Hx' Hy']. unfold distance2.
  rewrite Hx, Hy, Hx', Hy'. reflexivity.
Qed.

(** The separation test depends on the points' values only. *)
#[export] Instance far_proper : Proper (vec2_equiv ==> vec2_equiv ==> eq) far.
Proof.
  intros p p' Hp q q' Hq. unfold far. by rewrite Hp, Hq.
Qed.

Lemma distance2_diag p : distance2 p p == 0.
Proof. unfold distance2. ring. Qed.

Lemma distance2_sym p q : distance2 p q == distance2 q p.
Proof. unfold distance2. ring. Qed.

(** No point is farther than the minimum separation from itself: the
    decimation never keeps a repeated point. *)
Lemma far_irrefl p : far p p = false.
Proof.
  unfold far. rewrite (Qleb_comp _ _ (distance2_diag p) _ _ (Qeq_refl _)).
  reflexivity.
Qed.

Lemma far_sym p q : far p q = far q p.
Proof.
  unfold far. by rewrite (Qleb_comp _ _ (distance2_sym p q) _ _ (Qeq_refl _)).
Qed.

Lemma far_spec p q :
  far p q = true <-> min_separation * min_separation < distance2 p q.
Proof.
  unfold far. rewrite negb_true_iff.
  split; intros H.
  - apply Qnot_le_lt. intros Hle. apply Qle_bool_iff in Hle. congruence.
  - destruct (Qle_bool _ _) eqn:E; [| done].
    apply Qle_bool_iff in E. exfalso. by apply (Qlt_not_le _ _ H).
Qed.
