(* ===== verification/SvgPath.v ===== *)
(** * SvgPath: svgpathtools' parser of an SVG path's [d] attribute

    [svg2paths2(svg_path)] (line 39) turns the [d] attribute of every
    [<path>] element into a [Path] with svgpathtools' [parse_path]:
    - [_tokenize_path] splits the string at the command letters
      ([COMMAND_RE.split]) and collects the numbers of every piece with
      [FLOAT_RE.findall], [FLOAT_RE] being
      [[-+]?[0-9]*\.?[0-9]+(?:[eE][-+]?[0-9]+)?]; everything else
      (white space, commas, stray letters) is skipped;
    - [parse_path] reverses the tokens and pops them: a command letter
      sets [command] (upper-cased) and [absolute]; numbers without a
      letter repeat the last command (a [M] is repeated as [L]); every
      command pops its arguments with [float(elements.pop())] and
      appends a [Line], [QuadraticBezier], [CubicBezier] or [Arc] built
      from [current_pos]; [Z] appends the closing [Line] when the current
      point is not the subpath's start and sets [closed], which raises
      unless the last end point starts some segment.
    [tokenize_path] and [parse_path] model both; the token list is kept
    in reading order, so [elements.pop()] takes its head.  Python's
    exceptions ([IndexError] from [pop], [ValueError] from [float] of a
    command letter or from [closed], [TypeError] from [None in 'CS'])
    are [Raise]; [svg2paths2]'s caller catches them all.  An arc is kept
    as the parameters of svgpathtools' [Arc], whose geometry (square
    roots and trigonometry) is not modelled. *)

From S2P Require Import Prelude PyStr Geometry.
From Stdlib Require Import QArith.

Module SvgPath.

Local Open Scope char_scope.

(** ** Tokens *)

(** The commands, by their upper-case letter. *)
Inductive cmd := CmdM | CmdZ | CmdL | CmdH | CmdV | CmdC | CmdS | CmdQ | CmdT | CmdA.

#[export] Instance cmd_eq_dec : EqDecision cmd.
Proof. solve_decision. Defined.

(** [x in COMMANDS] for a letter [x], with [x.upper()] and
    [x in UPPERCASE]: the command and whether it is absolute. *)
Definition command_of (c : ascii) : option (cmd * bool) :=
  match c with
  | "M" => Some (CmdM, true) | "m" => Some (CmdM, false)
  | "Z" => Some (CmdZ, true) | "z" => Some (CmdZ, false)
  | "L" => Some (CmdL, true) | "l" => Some (CmdL, false)
  | "H" => Some (CmdH, true) | "h" => Some (CmdH, false)
  | "V" => Some (CmdV, true) | "v" => Some (CmdV, false)
  | "C" => Some (CmdC, true) | "c" => Some (CmdC, false)
  | "S" => Some (CmdS, true) | "s" => Some (CmdS, false)
  | "Q" => Some (CmdQ, true) | "q" => Some (CmdQ, false)
  | "T" => Some (CmdT, true) | "t" => Some (CmdT, false)
  | "A" => Some (CmdA, true) | "a" => Some (CmdA, false)
  | _ => None
  end.

Definition is_command (c : ascii) : bool := bool_decide (is_Some (command_of c)).

Definition is_ascii_digit (c : ascii) : bool :=
  (48 <=? nat_of_ascii c)%nat && (nat_of_ascii c <=? 57)%nat.

(** [[0-9]*]: the longest run of digits. *)
Fixpoint span_digits (s : pystr) : pystr * pystr :=
  match s with
  | c :: r => if is_ascii_digit c then let '(d, r') := span_digits r in (c :: d, r') else ([], s)
  | [] => ([], [])
  end.

(** [[-+]?]. *)
Definition match_sign (s : pystr) : pystr * pystr :=
  match s with
  | "+" :: r => (["+"], r)
  | "-" :: r => (["-"], r)
  | _ => ([], s)
  end.

(** [[0-9]*\.?[0-9]+] with the regex engine's backtracking: the digits,
    then a dot and at least one digit if they follow, else the digits
    alone when there is one. *)
Definition match_mantissa (s : pystr) : option (pystr * pystr * pystr) :=
  let '(d1, s1) := span_digits s in
  let int_only := match d1 with [] => None | _ => Some (d1, [], s1) end in
  match s1 with
  | "." :: s2 =>
      let '(d2, s3) := span_digits s2 in
      match d2 with [] => int_only | _ => Some (d1, d2, s3) end
  | _ => int_only
  end.

(** [(?:[eE][-+]?[0-9]+)?]: the exponent's text, sign and digits. *)
Definition match_exponent (s : pystr) : pystr * pystr * pystr * pystr :=
  match s with
  | e :: r =>
      if bool_decide (e = "e" \/ e = "E") then
        let '(sg, r1) := match_sign r in
        let '(d, r2) := span_digits r1 in
        match d with [] => ([], [], [], s) | _ => (e :: sg ++ d, sg, d, r2) end
      else ([], [], [], s)
  | [] => ([], [], [], [])
  end.

(** The integer a run of digits denotes. *)
Definition digits_val (ds : pystr) : Z :=
  fold_left (fun a c => a * 10 + (Z.of_nat (nat_of_ascii c) - 48))%Z ds 0%Z.

Definition signed (sg : pystr) (v : Z) : Z :=
  match sg with ["-"] => (- v)%Z | _ => v end.

(** The value [± m * 10^e] of a decimal numeral. *)
Definition dec_value (m e : Z) : Q :=
  if (0 <=? e)%Z then inject_Z (m * 10 ^ e) else Qmake m (Z.to_pos (10 ^ (- e))).

(** A match of [FLOAT_RE] at the head of [s]: the text matched, its value
    and the rest. *)
Definition match_float (s : pystr) : option (pystr * Q * pystr) :=
  let '(sg, s1) := match_sign s in
  '(d1, d2, s2) ← match_mantissa s1;
  let '(etxt, esg, ed, s3) := match_exponent s2 in
  let text := sg ++ d1 ++ (match d2 with [] => [] | _ => "." :: d2 end) ++ etxt in
  let e := (signed esg (digits_val ed) - Z.of_nat (length d2))%Z in
  Some (text, dec_value (signed sg (digits_val (d1 ++ d2))) e, s3).

(** [_tokenize_path]: command letters, and the matches of [FLOAT_RE]
    between them; [fuel] bounds the steps ([length d] is enough, each
    step consumes a character). *)
Fixpoint tokenize_go (fuel : nat) (s : pystr) : list pystr :=
  match fuel with
  | O => []
  | S f =>
      match s with
      | [] => []
      | c :: r =>
          if is_command c then [c] :: tokenize_go f r
          else match match_float s with
               | Some (tok, _, rest) => tok :: tokenize_go f rest
               | None => tokenize_go f r
               end
      end
  end.

Definition tokenize_path (d : pystr) : list pystr := tokenize_go (length d) d.

(** [float(x)] on a token: the value of a numeral, [ValueError] on a
    command letter. *)
Definition py_float (x : pystr) : result Q :=
  match match_float x with
  | Some (_, v, []) => Ok v
  | _ => Raise ValueError
  end.

(** ** The parser *)

(** The segments of a parsed path: svgpathtools' [Line],
    [QuadraticBezier] and [CubicBezier], and the parameters of an [Arc]. *)
Inductive pseg :=
| Seg (s : svg_segment)
| ArcSeg (start radius : complex) (rotation large_arc sweep : Q) (end_ : complex).

Definition seg_start (s : pseg) : complex :=
  match s with
  | Seg (Line a _) | Seg (QuadraticBezier a _ _) | Seg (CubicBezier a _ _ _) => a
  | ArcSeg a _ _ _ _ _ => a
  end.

Definition seg_end (s : pseg) : complex :=
  match s with
  | Seg (Line _ b) | Seg (QuadraticBezier _ _ b) | Seg (CubicBezier _ _ _ b) => b
  | ArcSeg _ _ _ _ _ b => b
  end.

(** [==] on complex numbers. *)
Definition ceqb (a b : complex) : bool := Qeq_bool (re a) (re b) && Qeq_bool (im a) (im b).

(** The variables of [parse_path]'s loop; [elements] holds the tokens
    still to read, the next one first. *)
Record pstate := PState {
  elements : list pystr;
  segments : list pseg;
  current_pos : complex;
  start_pos : option complex;
  command : option cmd;
  absolute : bool }.

Abbreviation parser := (io pstate).

(** [elements.pop()]. *)
Definition pop : parser pystr := fun st =>
  match elements st with
  | x :: r => (Ok x, PState r (segments st) (current_pos st) (start_pos st) (command st) (absolute st))
  | [] => (Raise IndexError, st)
  end.

Definition append (s : pseg) : parser unit := io_modify (fun st =>
  PState (elements st) (segments st ++ [s]) (current_pos st) (start_pos st) (command st) (absolute st)).

Definition set_current (p : complex) : parser unit := io_modify (fun st =>
  PState (elements st) (segments st) p (start_pos st) (command st) (absolute st)).

Definition set_start (p : option complex) : parser unit := io_modify (fun st =>
  PState (elements st) (segments st) (current_pos st) p (command st) (absolute st)).

Definition set_command (c : option cmd) (abs : bool) : parser unit := io_modify (fun st =>
  PState (elements st) (segments st) (current_pos st) (start_pos st) c abs).

Definition gets {A} (f : pstate -> A) : parser A := fun st => (Ok (f st), st).

(** [float(elements.pop())]. *)
Definition pop_float : parser Q := x ← pop; io_lift (py_float x).

(** [float(elements.pop()) + float(elements.pop()) * 1j]. *)
Definition pop_complex : parser complex := x ← pop_float; y ← pop_float; mret (Cplx x y).

(** [x = elements.pop(); y = elements.pop(); float(x) + float(y) * 1j]. *)
Definition pop_xy : parser complex :=
  x ← pop; y ← pop; fx ← io_lift (py_float x); fy ← io_lift (py_float y); mret (Cplx fx fy).

(** [if not absolute: p += current_pos]. *)
Definition rel (abs : bool) (cur p : complex) : complex := if abs then p else cadd p cur.

(** [segments.closed = True]: [Path._is_closable], the last end point
    must start some segment. *)
Definition close_path : parser unit :=
  segs ← gets segments;
  last_seg ← io_lift (py_last segs);
  if existsb (fun s => ceqb (seg_start s) (seg_end last_seg)) segs then mret tt
  else io_raise ValueError.

(** [segments[-1].control2] and [segments[-1].control]. *)
Definition last_control2 : parser complex :=
  segs ← gets segments;
  s ← io_lift (py_last segs);
  match s with Seg (CubicBezier _ _ c2 _) => mret c2 | _ => io_raise AttributeError end.

Definition last_control : parser complex :=
  segs ← gets segments;
  s ← io_lift (py_last segs);
  match s with Seg (QuadraticBezier _ c _) => mret c | _ => io_raise AttributeError end.

(** [current_pos + current_pos - segments[-1].control2] and
    [current_pos + current_pos - segments[-1].control]. *)
Definition reflect_control2 (cur : complex) : parser complex :=
  c2 ← last_control2; mret (csub (cadd cur cur) c2).

Definition reflect_control (cur : complex) : parser complex :=
  c ← last_control; mret (csub (cadd cur cur) c).

(** [last_command in s], which raises [TypeError] on [None]. *)
Definition last_in (lc : option cmd) (s : list cmd) : parser bool :=
  match lc with
  | None => io_raise TypeError
  | Some c => mret (bool_decide (c ∈ s))
  end.

(** The body of one command. *)
Definition exec_command (c : cmd) (abs : bool) (lc : option cmd) : parser unit :=
  cur ← gets current_pos;
  match c with
  | CmdM =>
      pos ← pop_xy;
      let p := if abs then pos else cadd cur pos in
      set_current p;; set_start (Some p);; set_command (Some CmdL) abs
  | CmdZ =>
      sp ← gets start_pos;
      match sp with
      | None => io_raise ValueError
      | Some s =>
          (if ceqb cur s then mret tt else append (Seg (Line cur s)));;
          close_path;; set_current s;; set_command None abs
      end
  | CmdL =>
      pos ← pop_xy;
      let p := rel abs cur pos in
      append (Seg (Line cur p));; set_current p
  | CmdH =>
      x ← pop; fx ← io_lift (py_float x);
      let p := if abs then Cplx fx (im cur) else Cplx (fx + re cur) (im cur) in
      append (Seg (Line cur p));; set_current p
  | CmdV =>
      y ← pop; fy ← io_lift (py_float y);
      let p := if abs then Cplx (re cur) fy else Cplx (re cur) (fy + im cur) in
      append (Seg (Line cur p));; set_current p
  | CmdC =>
      c1 ← pop_complex; c2 ← pop_complex; e ← pop_complex;
      append (Seg (CubicBezier cur (rel abs cur c1) (rel abs cur c2) (rel abs cur e)));;
      set_current (rel abs cur e)
  | CmdS =>
      io_bind (last_in lc [CmdC; CmdS]) (fun smooth =>
      c1 ← (if smooth then reflect_control2 cur else io_ret cur);
      c2 ← pop_complex; e ← pop_complex;
      append (Seg (CubicBezier cur c1 (rel abs cur c2) (rel abs cur e)));;
      set_current (rel abs cur e))
  | CmdQ =>
      c1 ← pop_complex; e ← pop_complex;
      append (Seg (QuadraticBezier cur (rel abs cur c1) (rel abs cur e)));;
      set_current (rel abs cur e)
  | CmdT =>
      io_bind (last_in lc [CmdQ; CmdT]) (fun smooth =>
      c1 ← (if smooth then reflect_control cur else io_ret cur);
      e ← pop_complex;
      append (Seg (QuadraticBezier cur c1 (rel abs cur e)));;
      set_current (rel abs cur e))
  | CmdA =>
      radius ← pop_complex; rotation ← pop_float; arc ← pop_float; sweep ← pop_float;
      e ← pop_complex;
      let e' := rel abs cur e in
      (if Qeq_bool (re radius) 0 || Qeq_bool (im radius) 0
       then append (Seg (Line cur e'))
       else append (ArcSeg cur radius rotation arc sweep e'));;
      set_current e'
  end.

(** [elements[-1] in COMMANDS]: the next token is a command letter. *)
Definition next_command (es : list pystr) : option (cmd * bool) :=
  match es with
  | [x] :: _ => command_of x
  | _ => None
  end.

(** One iteration of [while elements:]: a command letter starts a new
    command, a number repeats the current one ([ValueError] when there is
    none). *)
Definition parse_step : parser unit :=
  st ← io_get;
  '(c, abs) ← (match next_command (elements st) with
               | Some ca => _ ← pop; mret ca
               | None =>
                   match command st with
                   | Some c => mret (c, absolute st)
                   | None => io_raise ValueError
                   end
               end);
  set_command (Some c) abs;;
  exec_command c abs (command st).

(** [while elements:], with [fuel] iterations (the number of tokens is
    enough: every iteration pops one or raises). *)
Fixpoint parse_loop (fuel : nat) : parser unit :=
  match fuel with
  | O => mret tt
  | S f =>
      es ← gets elements;
      match es with
      | [] => mret tt
      | _ => parse_step;; parse_loop f
      end
  end.

Definition init_state (toks : list pystr) : pstate := PState toks [] (Cplx 0 0) None None false.

(** [parse_path(pathdef)]. *)
Definition parse_path (d : pystr) : result (list pseg) :=
  let toks := tokenize_path d in
  match parse_loop (length toks) (init_state toks) with
  | (Ok _, st) => Ok (segments st)
  | (Raise e, _) => Raise e
  end.

(** ** Tokenizer lemmas *)

Local Open Scope nat_scope.

Lemma span_digits_app s : (span_digits s).1 ++ (span_digits s).2 = s.
Proof.
  induction s as [|c r IH]; [done |]. cbn.
  destruct (is_ascii_digit c); [| done]. destruct (span_digits r). cbn in *. by rewrite IH.
Qed.

(** [ascii_cases c]: the 256 bytes. *)
Ltac ascii_cases c := destruct c as [[] [] [] [] [] [] [] []].

Lemma match_sign_app s : (match_sign s).1 ++ (match_sign s).2 = s.
Proof. destruct s as [|c r]; [done |]. ascii_cases c; reflexivity. Qed.

Lemma match_mantissa_app s d1 d2 r :
  match_mantissa s = Some (d1, d2, r) ->
  s = d1 ++ (match d2 with [] => [] | _ => "." :: d2 end) ++ r /\ (d1 <> [] \/ d2 <> []).
Proof.
  unfold match_mantissa. pose proof (span_digits_app s) as Hs.
  destruct (span_digits s) as [e1 s1]. cbn in Hs. subst s.
  assert (Hint : match e1 with [] => None | _ => Some (e1, [], s1) end = Some (d1, d2, r) ->
                 e1 ++ s1 = d1 ++ (match d2 with [] => [] | _ => "." :: d2 end) ++ r /\
                 (d1 <> [] \/ d2 <> [])).
  { destruct e1; intros H; simplify_eq. split; [done | by left]. }
  destruct s1 as [|c s2]; [exact Hint |].
  ascii_cases c; try exact Hint.
  pose proof (span_digits_app s2) as Hl. destruct (span_digits s2) as [d' s3]. cbn in Hl. subst s2.
  destruct d'; [exact Hint |]. intros H; simplify_eq. split; [done | by right].
Qed.

Lemma match_exponent_app s t sg d r : match_exponent s = (t, sg, d, r) -> s = t ++ r.
Proof.
  unfold match_exponent. destruct s as [|e s]; [by intros; simplify_eq |].
  case_match; [| by intros; simplify_eq].
  pose proof (match_sign_app s) as Hs. destruct (match_sign s) as [sg' s1].
  pose proof (span_digits_app s1) as Hd. destruct (span_digits s1) as [d' s2].
  cbn in *. subst. destruct d'; intros; simplify_eq; [done |]. cbn. by rewrite <- app_assoc.
Qed.

(** A match consumes its text. *)
Lemma match_float_app s tok v rest :
  match_float s = Some (tok, v, rest) -> s = tok ++ rest /\ tok <> [].
Proof.
  unfold match_float. pose proof (match_sign_app s) as Hs.
  destruct (match_sign s) as [sg s1]. cbn in Hs. subst s.
  destruct (match_mantissa s1) as [[[d1 d2] s2]|] eqn:Hm; [cbn | done].
  apply match_mantissa_app in Hm as [-> Hne].
  destruct (match_exponent s2) as [[[t esg] ed] s3] eqn:He.
  apply match_exponent_app in He as ->. intros H; simplify_eq. split.
  - by rewrite <- !app_assoc.
  - intros Hnil. apply (f_equal length) in Hnil. rewrite !length_app in Hnil.
    destruct Hne as [Hne | Hne]; [destruct d1 | destruct d2]; cbn in Hnil; try done; lia.
Qed.

Lemma match_float_length s tok v rest :
  match_float s = Some (tok, v, rest) -> length rest < length s.
Proof.
  intros (-> & Hne)%match_float_app. rewrite length_app.
  destruct tok; [done | cbn; lia].
Qed.

(** Any fuel from [length s] on gives the same tokens. *)
Lemma tokenize_go_fuel f f' s :
  length s <= f -> length s <= f' -> tokenize_go f s = tokenize_go f' s.
Proof.
  revert f' s. induction f as [|f IH]; intros [|f'] s Hf Hf'; cbn.
  - done.
  - by destruct s; [| cbn in Hf; lia].
  - by destruct s; [| cbn in Hf'; lia].
  - destruct s as [|c r]; [done |]. cbn in Hf, Hf'.
    case_match; [f_equal; apply IH; lia |].
    destruct (match_float (c :: r)) as [[[tok v] rest]|] eqn:E.
    + apply match_float_length in E. cbn in E. f_equal. apply IH; lia.
    + apply IH; lia.
Qed.

(** A command letter is a token of its own. *)
Lemma tokenize_path_command c r :
  is_command c = true -> tokenize_path (c :: r) = [c] :: tokenize_path r.
Proof. intros Hc. unfold tokenize_path. cbn [length tokenize_go]. by rewrite Hc. Qed.

(** White space. *)
Definition is_ws (c : ascii) : bool :=
  match c with " " | "010" | "013" | "009" => true | _ => false end.

Lemma tokenize_path_ws c r : is_ws c = true -> tokenize_path (c :: r) = tokenize_path r.
Proof.
  intros Hc. unfold tokenize_path. cbn [length tokenize_go].
  assert (Hcmd : is_command c = false /\ match_float (c :: r) = None)
    by (ascii_cases c; by cbn in Hc |- *).
  destruct Hcmd as [-> ->]. apply tokenize_go_fuel; lia.
Qed.

(** A numeral followed by [rest] is one token when [rest] cannot extend it. *)
Lemma tokenize_path_float s tok v rest :
  is_command (hd "a" s) = false -> match_float s = Some (tok, v, rest) ->
  tokenize_path s = tok :: tokenize_path rest.
Proof.
  intros Hc Hm. pose proof (match_float_length _ _ _ _ Hm) as Hl.
  unfold tokenize_path. destruct s as [|c r]; [done |]. cbn [length tokenize_go]. cbn in Hc.
  rewrite Hc, Hm. f_equal. apply tokenize_go_fuel; cbn in Hl; lia.
Qed.

(** Characters that cannot continue a numeral: not a digit, a dot or an
    exponent mark. *)
Definition stops (r : pystr) : bool :=
  match r with
  | c :: _ => negb (is_ascii_digit c) && negb (bool_decide (c = "." \/ c = "e" \/ c = "E"))
  | [] => true
  end.

Lemma span_digits_run ds r :
  Forall (fun c => is_ascii_digit c = true) ds -> stops r = true -> span_digits (ds ++ r) = (ds, r).
Proof.
  induction 1 as [|c ds Hc _ IH]; intros Hr.
  - destruct r as [|c r]; [done |]. cbn in Hr |- *.
    by destruct (is_ascii_digit c); [discriminate |].
  - cbn. by rewrite Hc, IH.
Qed.

Lemma match_sign_digit c r : is_ascii_digit c = true -> match_sign (c :: r) = ([], c :: r).
Proof. ascii_cases c; by cbn. Qed.

Lemma match_mantissa_int ds r :
  ds <> [] -> Forall (fun c => is_ascii_digit c = true) ds -> stops r = true ->
  match_mantissa (ds ++ r) = Some (ds, [], r).
Proof.
  intros Hne Hds Hr. unfold match_mantissa. rewrite span_digits_run by done.
  destruct ds as [|d ds]; [done |].
  destruct r as [|c r]; [done |]. ascii_cases c; by cbn in Hr |- *.
Qed.

Lemma match_exponent_stop r : stops r = true -> match_exponent r = ([], [], [], r).
Proof. destruct r as [|c r]; [done |]. ascii_cases c; by cbn. Qed.

(** A decimal integer, with an optional minus sign, is matched whole and
    read as the integer. *)
Lemma match_float_int sg ds r :
  (sg = [] \/ sg = ["-"]) -> ds <> [] -> Forall (fun c => is_ascii_digit c = true) ds ->
  stops r = true ->
  match_float (sg ++ ds ++ r) = Some (sg ++ ds, inject_Z (signed sg (digits_val ds)), r).
Proof.
  intros Hsg Hne Hds Hr. unfold match_float.
  assert (Hs : match_sign (sg ++ ds ++ r) = (sg, ds ++ r)).
  { destruct Hsg as [-> | ->]; [| done].
    destruct ds as [|d ds]; [done |]. apply match_sign_digit. by inversion Hds. }
  rewrite Hs, match_mantissa_int by done. cbn [mbind option_bind].
  rewrite match_exponent_stop by done. rewrite !app_nil_r.
  unfold dec_value. cbn. by rewrite Z.mul_1_r.
Qed.

(** ** Parser lemmas: every iteration reads a token *)

(** [tame m]: [m] reads tokens without adding any and leaves [command]
    alone; [pops m]: it also reads at least one. *)
Definition tame {A} (m : parser A) : Prop :=
  forall st a st', m st = (Ok a, st') ->
  length (elements st') <= length (elements st) /\ command st' = command st.

Definition pops {A} (m : parser A) : Prop :=
  forall st a st', m st = (Ok a, st') ->
  length (elements st') < length (elements st) /\ command st' = command st.

Lemma tame_ret {A} (a : A) : tame (io_ret a).
Proof. intros st ? st' H. by injection H as <- <-. Qed.

Lemma tame_raise {A} e : tame (A := A) (io_raise e).
Proof. by intros st ? st' H. Qed.

Lemma tame_lift {A} (r : result A) : tame (io_lift r).
Proof. intros st ? st' H. unfold io_lift in H. destruct r; by simplify_eq. Qed.

Lemma tame_gets {A} (f : pstate -> A) : tame (gets f).
Proof. intros st ? st' H. by injection H as <- <-. Qed.

Lemma tame_get : tame io_get.
Proof. intros st ? st' H. by injection H as <- <-. Qed.

Lemma tame_modify f :
  (forall st, elements (f st) = elements st /\ command (f st) = command st) -> tame (io_modify f).
Proof. intros Hf st ? st' H. injection H as <- <-. destruct (Hf st) as [-> ->]. done. Qed.

Lemma pops_pop : pops pop.
Proof.
  intros [es segs cur sp c abs] ? st' H. unfold pop in H. cbn in H.
  destruct es; simplify_eq. cbn. split; [lia | done].
Qed.

Lemma tame_pops {A} (m : parser A) : pops m -> tame m.
Proof. intros Hm st a st' H. destruct (Hm _ _ _ H). split; [lia | done]. Qed.

Lemma tame_bind {A B} (m : parser A) (k : A -> parser B) :
  tame m -> (forall a, tame (k a)) -> tame (io_bind m k).
Proof.
  intros Hm Hk st b st' H. unfold io_bind in H.
  destruct (m st) as [[a|e] st1] eqn:E; [| discriminate].
  destruct (Hm _ _ _ E), (Hk a _ _ _ H). split; [lia | congruence].
Qed.

Lemma pops_bind_l {A B} (m : parser A) (k : A -> parser B) :
  pops m -> (forall a, tame (k a)) -> pops (io_bind m k).
Proof.
  intros Hm Hk st b st' H. unfold io_bind in H.
  destruct (m st) as [[a|e] st1] eqn:E; [| discriminate].
  destruct (Hm _ _ _ E), (Hk a _ _ _ H). split; [lia | congruence].
Qed.

Lemma pops_bind_r {A B} (m : parser A) (k : A -> parser B) :
  tame m -> (forall a, pops (k a)) -> pops (io_bind m k).
Proof.
  intros Hm Hk st b st' H. unfold io_bind in H.
  destruct (m st) as [[a|e] st1] eqn:E; [| discriminate].
  destruct (Hm _ _ _ E), (Hk a _ _ _ H). split; [lia | congruence].
Qed.

Create HintDb svgpath.

#[export] Hint Resolve tame_ret tame_raise tame_lift tame_gets tame_get pops_pop : svgpath.

(** [tame_tac] and [pops_tac]: split a parser action at its binds. *)
Ltac tame_tac :=
  unfold mbind, mret, io_mbind, io_mret; cbv zeta;
  repeat first
    [ apply tame_bind; [| intros ?]
    | apply tame_modify; intros []; split; reflexivity
    | apply tame_pops; solve [eauto with svgpath]
    | solve [eauto with svgpath]
    | progress case_match ].

Ltac pops_tac :=
  unfold mbind, mret, io_mbind, io_mret; cbv zeta;
  first
    [ solve [eauto with svgpath]
    | apply pops_bind_l; [pops_tac | intros ?; tame_tac]
    | apply pops_bind_r; [tame_tac | intros ?; pops_tac] ].

Lemma pops_pop_float : pops pop_float.
Proof. unfold pop_float. pops_tac. Qed.

Lemma pops_pop_complex : pops pop_complex.
Proof. unfold pop_complex. pops_tac. Qed.

Lemma pops_pop_xy : pops pop_xy.
Proof. unfold pop_xy. pops_tac. Qed.

#[export] Hint Resolve pops_pop_float pops_pop_complex pops_pop_xy : svgpath.

Lemma tame_append s : tame (append s).
Proof. unfold append. tame_tac. Qed.

Lemma tame_set_current p : tame (set_current p).
Proof. unfold set_current. tame_tac. Qed.

Lemma tame_set_start p : tame (set_start p).
Proof. unfold set_start. tame_tac. Qed.

Lemma tame_close_path : tame close_path.
Proof. unfold close_path. tame_tac. Qed.

Lemma tame_reflect_control2 cur : tame (reflect_control2 cur).
Proof. unfold reflect_control2, last_control2. tame_tac. Qed.

Lemma tame_reflect_control cur : tame (reflect_control cur).
Proof. unfold reflect_control, last_control. tame_tac. Qed.

Lemma tame_last_in lc l : tame (last_in lc l).
Proof. unfold last_in. tame_tac. Qed.

#[export] Hint Resolve tame_append tame_set_current tame_set_start tame_close_path
  tame_reflect_control2 tame_reflect_control tame_last_in : svgpath.

(** Every command but [Z] reads a token; all but [M] and [Z] leave
    [command] alone. *)
Lemma exec_command_pops c abs lc :
  c <> CmdM -> c <> CmdZ -> pops (exec_command c abs lc).
Proof.
  intros HM HZ. unfold exec_command. apply pops_bind_r; [tame_tac | intros cur].
  destruct c; try done; pops_tac.
Qed.

Lemma io_bind_Ok_inv {A B} (m : parser A) (k : A -> parser B) st b st' :
  io_bind m k st = (Ok b, st') -> exists a st1, m st = (Ok a, st1) /\ k a st1 = (Ok b, st').
Proof. unfold io_bind. destruct (m st) as [[a|e] st1]; [eauto | discriminate]. Qed.

(** [M] reads its point and leaves [L] as the command to repeat. *)
Lemma exec_M_pops abs lc st a st' :
  exec_command CmdM abs lc st = (Ok a, st') ->
  length (elements st') < length (elements st) /\ command st' = Some CmdL.
Proof.
  unfold exec_command, mbind, io_mbind. intros H.
  apply io_bind_Ok_inv in H as (cur & st1 & H1 & H). injection H1 as <- <-.
  apply io_bind_Ok_inv in H as (pos & st2 & H2 & H). destruct (pops_pop_xy _ _ _ H2) as [Hl _].
  cbv zeta in H. apply io_bind_Ok_inv in H as (? & st3 & H3 & H). injection H3 as <- <-.
  apply io_bind_Ok_inv in H as (? & st4 & H4 & H). injection H4 as <- <-.
  injection H as <- <-. done.
Qed.

(** [Z] reads nothing and clears the command. *)
Lemma exec_Z_tame abs lc st a st' :
  exec_command CmdZ abs lc st = (Ok a, st') ->
  length (elements st') <= length (elements st) /\ command st' = None.
Proof.
  unfold exec_command, mbind, io_mbind. intros H.
  apply io_bind_Ok_inv in H as (cur & st1 & H1 & H). injection H1 as _ <-.
  apply io_bind_Ok_inv in H as (sp & st2 & H2 & H). injection H2 as _ <-.
  destruct sp as [s|]; [| discriminate].
  apply io_bind_Ok_inv in H as (? & st3 & H3 & H).
  assert (Hif : tame (if ceqb cur s then mret tt else append (Seg (Line cur s))))
    by (case_match; tame_tac).
  destruct (Hif _ _ _ H3) as [Hl1 _].
  apply io_bind_Ok_inv in H as (? & st4 & H4 & H). destruct (tame_close_path _ _ _ H4) as [Hl2 _].
  apply io_bind_Ok_inv in H as (? & st5 & H5 & H). injection H5 as <- <-.
  injection H as <- <-. cbn in *. split; [lia | done].
Qed.

(** One iteration reads at least one token, and never leaves [Z] to be
    repeated. *)
Lemma parse_step_pops st st' :
  command st <> Some CmdZ -> parse_step st = (Ok tt, st') ->
  length (elements st') < length (elements st) /\ command st' <> Some CmdZ.
Proof.
  intros HZ H. unfold parse_step, mbind, io_mbind in H.
  apply io_bind_Ok_inv in H as (st0 & st1 & H0 & H). injection H0 as <- <-.
  apply io_bind_Ok_inv in H as ([c abs] & st2 & H2 & H).
  assert (Hc : length (elements st2) <= length (elements st) /\
               (next_command (elements st) = None -> command st = Some c) /\
               (next_command (elements st) <> None -> length (elements st2) < length (elements st))).
  { destruct (next_command (elements st)) as [ca|].
    - apply io_bind_Ok_inv in H2 as (? & st3 & H3 & H2). destruct (pops_pop _ _ _ H3) as [Hl _].
      injection H2 as _ <-. split; [lia |]. split; [done | intros _; lia].
    - destruct (command st) as [c'|]; [| discriminate]. injection H2 as <- <- <-.
      split; [done |]. split; [done | done]. }
  destruct Hc as (Hle & Himpl & Hexpl).
  apply io_bind_Ok_inv in H as (? & st3 & H3 & H). injection H3 as <- <-.
  destruct (decide (c = CmdM)) as [-> |].
  { destruct (exec_M_pops _ _ _ _ _ H) as [Hl ->]. cbn in Hl. split; [lia | done]. }
  destruct (decide (c = CmdZ)) as [-> |].
  { destruct (exec_Z_tame _ _ _ _ _ H) as [Hl ->]. cbn in Hl.
    destruct (next_command (elements st)); [| by rewrite Himpl in HZ].
    split; [specialize (Hexpl ltac:(done)); lia | done]. }
  destruct (exec_command_pops c abs (command st) ltac:(done) ltac:(done) _ _ _ H) as [Hl ->].
  cbn in *. split; [lia | congruence].
Qed.

Lemma parse_loop_nil f st : elements st = [] -> parse_loop f st = (Ok tt, st).
Proof. intros Hn. destruct f; [done |]. cbn [parse_loop]. unfold mbind, io_mbind, io_bind, gets. by rewrite Hn. Qed.

(** Any fuel from the number of tokens on gives the same run. *)
Lemma parse_loop_fuel f f' st :
  command st <> Some CmdZ -> length (elements st) <= f -> length (elements st) <= f' ->
  parse_loop f st = parse_loop f' st.
Proof.
  revert f' st. induction f as [|f IH]; intros f' st HZ Hf Hf'.
  - rewrite !parse_loop_nil; [done | by destruct (elements st); [| cbn in Hf; lia] ..].
  - destruct f' as [|f'].
    { rewrite !parse_loop_nil; [done | by destruct (elements st); [| cbn in Hf'; lia] ..]. }
    cbn [parse_loop]. unfold mbind, io_mbind, io_bind, gets.
    destruct (elements st) as [|t ts] eqn:E; [done |]. cbn [length] in Hf, Hf'.
    destruct (parse_step st) as [[[]|e] st1] eqn:Hs; [| done].
    destruct (parse_step_pops st st1 HZ Hs) as [Hl HZ1]. rewrite E in Hl. cbn in Hl.
    apply IH; [done | lia | lia].
Qed.

(** [parse_path] in the dispatch of one iteration: a command letter. *)
Lemma parse_step_explicit st x rest c abs :
  elements st = [x] :: rest -> command_of x = Some (c, abs) ->
  parse_step st =
    exec_command c abs (command st)
      (PState rest (segments st) (current_pos st) (start_pos st) (Some c) abs).
Proof.
  intros He Hx. unfold parse_step, mbind, io_mbind, io_bind, io_get.
  unfold next_command. rewrite He, Hx. unfold pop. rewrite He. reflexivity.
Qed.

(** Numbers repeating the current command. *)
Lemma parse_step_implicit st c :
  next_command (elements st) = None -> command st = Some c ->
  parse_step st = exec_command c (absolute st) (Some c) st.
Proof.
  intros Hn Hc. unfold parse_step, mbind, io_mbind, io_bind, io_get.
  rewrite Hn, Hc. cbn. unfold set_command, io_modify. rewrite <- Hc. by destruct st.
Qed.

(** ** The commands on well-formed arguments *)

Ltac exec_simpl :=
  unfold exec_command, pop_xy, pop_complex, pop_float, pop, append, set_current, set_start,
    set_command, close_path, gets, mbind, mret, io_mbind, io_mret, io_bind, io_ret, io_lift,
    io_modify, io_raise;
  cbn -[py_float ceqb existsb].

(** [floats_simpl]: read the numerals whose values the context gives. *)
Ltac floats_simpl :=
  repeat match goal with
         | H : py_float ?t = _ |- context [py_float ?t] => rewrite H; cbn -[py_float ceqb existsb]
         end.

(** [M x y] and [m x y]: a new subpath. *)
Lemma exec_M st (abs : bool) lc x y rest (fx fy : Q) :
  elements st = x :: y :: rest -> py_float x = Ok fx -> py_float y = Ok fy ->
  let p := if abs then Cplx fx fy else cadd (current_pos st) (Cplx fx fy) in
  exec_command CmdM abs lc st = (Ok tt, PState rest (segments st) p (Some p) (Some CmdL) abs).
Proof. intros He Hx Hy p. destruct st; cbn in He; subst. exec_simpl. by floats_simpl. Qed.

(** [L x y] and [l x y]: a line from the current point. *)
Lemma exec_L st (abs : bool) lc x y rest (fx fy : Q) :
  elements st = x :: y :: rest -> py_float x = Ok fx -> py_float y = Ok fy ->
  let p := rel abs (current_pos st) (Cplx fx fy) in
  exec_command CmdL abs lc st =
    (Ok tt, PState rest (segments st ++ [Seg (Line (current_pos st) p)]) p
              (start_pos st) (command st) (absolute st)).
Proof. intros He Hx Hy p. destruct st; cbn in He; subst. exec_simpl. by floats_simpl. Qed.

(** [C] and [c] with six numerals: a cubic Bezier from the current point. *)
Lemma exec_C st (abs : bool) lc t1 t2 t3 t4 t5 t6 rest (q1 q2 q3 q4 q5 q6 : Q) :
  elements st = t1 :: t2 :: t3 :: t4 :: t5 :: t6 :: rest ->
  py_float t1 = Ok q1 -> py_float t2 = Ok q2 -> py_float t3 = Ok q3 ->
  py_float t4 = Ok q4 -> py_float t5 = Ok q5 -> py_float t6 = Ok q6 ->
  let cur := current_pos st in
  let e := rel abs cur (Cplx q5 q6) in
  exec_command CmdC abs lc st =
    (Ok tt, PState rest
              (segments st ++ [Seg (CubicBezier cur (rel abs cur (Cplx q1 q2))
                                              (rel abs cur (Cplx q3 q4)) e)])
              e (start_pos st) (command st) (absolute st)).
Proof.
  intros He H1 H2 H3 H4 H5 H6 cur e. destruct st; cbn in He; subst. exec_simpl.
  by floats_simpl.
Qed.

(** [Z] at the subpath's start, on a path that can be closed. *)
Lemma exec_Z st (abs : bool) lc s l :
  start_pos st = Some s -> ceqb (current_pos st) s = true -> last (segments st) = Some l ->
  existsb (fun g => ceqb (seg_start g) (seg_end l)) (segments st) = true ->
  exec_command CmdZ abs lc st = (Ok tt, PState (elements st) (segments st) s (Some s) None abs).
Proof.
  intros Hs Hc Hl Hex. destruct st; cbn in *; subst. exec_simpl.
  rewrite Hc. cbn -[existsb]. unfold py_last. rewrite Hl. cbn -[existsb]. by rewrite Hex.
Qed.

(** ** Runs of the loop *)

(** [runs st st']: iterations of the loop lead from [st] to [st']
    without raising. *)
Inductive runs : pstate -> pstate -> Prop :=
| runs_refl st : runs st st
| runs_step st st1 st2 :
    elements st <> [] -> parse_step st = (Ok tt, st1) -> runs st1 st2 -> runs st st2.

Lemma runs_trans st1 st2 st3 : runs st1 st2 -> runs st2 st3 -> runs st1 st3.
Proof. induction 1; intros; [done | econstructor; eauto]. Qed.

Lemma runs_one st st' :
  elements st <> [] -> parse_step st = (Ok tt, st') -> runs st st'.
Proof. intros. econstructor; [done | done | constructor]. Qed.

Lemma runs_loop st st' : runs st st' -> exists n, forall f, parse_loop (n + f) st = parse_loop f st'.
Proof.
  induction 1 as [st | st st1 st2 Hne Hs _ [n IH]]; [by exists 0 |].
  exists (S n). intros f. cbn [Nat.add parse_loop]. unfold mbind, io_mbind, io_bind, gets.
  destruct (elements st) eqn:E; [done |]. rewrite Hs. apply IH.
Qed.

(** A run that reads every token is what [parse_path] computes. *)
Lemma parse_path_runs d st' :
  runs (init_state (tokenize_path d)) st' -> elements st' = [] ->
  parse_path d = Ok (segments st').
Proof.
  intros Hr Hn. destruct (runs_loop _ _ Hr) as [n Hl]. unfold parse_path.
  rewrite (parse_loop_fuel _ (n + length (tokenize_path d))) by (cbn; try done; lia).
  by rewrite Hl, parse_loop_nil.
Qed.

(** The loop with fuel [f], from at most [f] tokens, stops only on an
    empty token list or an exception. *)
Lemma parse_loop_ends f st st' :
  command st <> Some CmdZ -> length (elements st) <= f ->
  parse_loop f st = (Ok tt, st') -> elements st' = [].
Proof.
  revert st. induction f as [|f IH]; intros st HZ Hf H.
  - cbn in H. injection H as <-. by destruct (elements st); [| cbn in Hf; lia].
  - cbn [parse_loop] in H. unfold mbind, io_mbind, io_bind, gets in H.
    destruct (elements st) as [|t ts] eqn:E; [by injection H as <- |].
    destruct (parse_step st) as [[[]|e] st1] eqn:Hs; [| discriminate].
    destruct (parse_step_pops st st1 HZ Hs) as [Hlt HZ1].
    apply (IH st1); [done | rewrite E in Hlt; cbn in *; lia | exact H].
Qed.

(** C34: [parse_path]'s [while elements:] loop, run with the fuel of one
    iteration per token, never stops early: whenever it returns without
    an exception, every token has been consumed. *)
Theorem parse_path_consumes_tokens d st' :
  parse_loop (length (tokenize_path d)) (init_state (tokenize_path d)) = (Ok tt, st') ->
  elements st' = [].
Proof. apply parse_loop_ends; [done | done]. Qed.

Lemma parse_path_consumes_tokens_witness :
  exists st', parse_loop (length (tokenize_path (lit "M 1 2 l 3 4 z")))
                (init_state (tokenize_path (lit "M 1 2 l 3 4 z"))) = (Ok tt, st') /\
    elements st' = [].
Proof.
  destruct (parse_loop (length (tokenize_path (lit "M 1 2 l 3 4 z")))
              (init_state (tokenize_path (lit "M 1 2 l 3 4 z")))) as [r st'] eqn:H.
  assert (r = Ok tt) as -> by (vm_compute in H; congruence).
  exists st'. split; [reflexivity | exact (parse_path_consumes_tokens _ _ H)].
Defined.

End SvgPath.
