(* ===== verification/PotraceSvg.v ===== *)
(** * PotraceSvg: the path data potrace writes, as svgpathtools reads it

    [potrace pbm_path -s -o svg_path] (line 22) writes every traced
    shape as one [<path>] element whose [d] attribute is produced by
    potrace's SVG backend ([backend_svg.c]): [svg_path] moves to the
    curve's start (the end point of its last segment) with [M x y] for
    the outer curve and [m dx dy] for each of its holes, then writes a
    corner as two [l dx dy] and a Bezier segment as [c dx1 dy1 dx2 dy2
    dx3 dy3], all relative to the point reached, dropping the letter when
    it repeats the previous one ([lastop]), and ends the curve with [z].
    The coordinates are [unit(p)], integers (tenths of a pixel by
    default), printed with [%ld]; tokens are separated by a space or, at
    the end of a 75-column line, a newline, and [z] follows the last
    number directly.  [path_words] gives the words of one [d] attribute
    and [layout] writes them with any white space before each (none
    needed before a letter), which covers potrace's line breaking.

    A [shape] is an outer curve with its holes; [shape_d] is the
    attribute potrace writes for it, with potrace's own spacing.
    [path_segments] is what the script receives for such a path: the
    segments of the outer curve and of its holes, in absolute
    coordinates, in one list.  [parse_potrace_path] shows that
    svgpathtools' [parse_path] returns exactly these segments.  Since the
    script samples every path into one polyline, a hole is joined to its
    outer curve ([Traced.shape_polyline_joins_hole]). *)

From S2P Require Import Prelude PyStr Geometry SvgPath.
From Stdlib Require Import QArith.

Module PotraceSvg.
Import SvgPath.

Local Open Scope char_scope.

(** ** potrace's curves *)

(** A point after [unit()]. *)
Abbreviation point := (Z * Z)%type.

(** The segment tags of a [potrace_curve_t]: a corner (two straight
    lines through its vertex) or a Bezier segment. *)
Inductive ptag :=
| Corner (v e : point)
| Curveto (u w e : point).

#[export] Instance ptag_eq_dec : EqDecision ptag.
Proof. solve_decision. Defined.

Definition tag_end (t : ptag) : point :=
  match t with Corner _ e | Curveto _ _ e => e end.

(** [c[m-1][2]]: a closed curve starts where its last segment ends. *)
Definition curve_start (c : list ptag) : point :=
  match last c with Some t => tag_end t | None => (0, 0)%Z end.

(** ** The words of a path *)

(** [printf("%ld")]. *)
Definition show_dec (n : nat) : pystr :=
  map (fun d => ascii_of_nat (48 + d)) (rev (rev_digits (S n) n)).

Definition show_int (z : Z) : pystr :=
  if (z <? 0)%Z then "-" :: show_dec (Z.to_nat (- z)) else show_dec (Z.to_nat z).

(** A token as [ship] writes it: a letter glued to a number, a number, or
    the closing [z]. *)
Inductive word :=
| WCmd (c : ascii) (n : Z)
| WNum (n : Z)
| WClose.

Definition print_word (w : word) : pystr :=
  match w with
  | WCmd c n => c :: show_int n
  | WNum n => show_int n
  | WClose => ["z"]
  end.

Definition rel_pt (cur p : point) : point := (p.1 - cur.1, p.2 - cur.2)%Z.

(** [svg_lineto]: [l] unless the last operation was a line. *)
Definition lineto (lastop : ascii) (cur p : point) : list word :=
  let d := rel_pt cur p in
  (if bool_decide (lastop = "l") then WNum d.1 else WCmd "l" d.1) :: [WNum d.2].

(** [svg_curveto]: [c] unless the last operation was a curve. *)
Definition curveto (lastop : ascii) (cur u w e : point) : list word :=
  let a := rel_pt cur u in
  let b := rel_pt cur w in
  let d := rel_pt cur e in
  (if bool_decide (lastop = "c") then WNum a.1 else WCmd "c" a.1) ::
    map WNum [a.2; b.1; b.2; d.1; d.2].

(** The loop of [svg_path] over the segments, threading [cur] and
    [lastop]. *)
Fixpoint tags_words (lastop : ascii) (cur : point) (ts : list ptag) : list word :=
  match ts with
  | [] => []
  | Corner v e :: ts' => lineto lastop cur v ++ lineto "l" v e ++ tags_words "l" e ts'
  | Curveto u w e :: ts' => curveto lastop cur u w e ++ tags_words "c" e ts'
  end.

(** [svg_path(fout, curve, abs)]: [svg_moveto] or [svg_rmoveto], the
    segments, [z]. *)
Definition curve_words (abs : bool) (cur : point) (c : list ptag) : list word :=
  let s := curve_start c in
  (if abs then [WCmd "M" s.1; WNum s.2]
   else let d := rel_pt cur s in [WCmd "m" d.1; WNum d.2]) ++
  tags_words (if abs then "M" else "m") s c ++ [WClose].

(** The holes, each moved to relatively from the start of the curve
    before it. *)
Fixpoint holes_words (cur : point) (hs : list (list ptag)) : list word :=
  match hs with
  | [] => []
  | h :: hs' => curve_words false cur h ++ holes_words (curve_start h) hs'
  end.

(** The [d] attribute of one [<path>] element: an outer curve and its
    holes. *)
Definition path_words (outer : list ptag) (holes : list (list ptag)) : list word :=
  curve_words true (0, 0)%Z outer ++ holes_words (curve_start outer) holes.

(** The text, each word preceded by its separator. *)
Fixpoint layout (ws : list (pystr * word)) : pystr :=
  match ws with
  | [] => []
  | (sep, w) :: ws' => sep ++ print_word w ++ layout ws'
  end.

(** The separators of a whole path, checked. *)
Definition sep_okb (sep : pystr) (w : word) : bool :=
  forallb is_ws sep && match w with WNum _ => bool_decide (sep <> []) | _ => true end.

Fixpoint seps_ok (seps : list pystr) (ws : list word) : bool :=
  match seps, ws with
  | [], [] => true
  | sep :: seps', w :: ws' => sep_okb sep w && seps_ok seps' ws'
  | _, _ => false
  end.

(** potrace's own spacing: a space before every word but the first and
    [z]. *)
Definition potrace_seps (ws : list word) : list pystr :=
  match ws with
  | [] => []
  | _ :: ws' => [] :: map (fun w => match w with WClose => [] | _ => [" "] end) ws'
  end.

(** A shape potrace traced: an outer curve and its holes (the children
    of a path in potrace's tree), written as one [<path>] element. *)
Record shape := Shape { shape_outer : list ptag; shape_holes : list (list ptag) }.

(** The [d] attribute potrace writes for a shape. *)
Definition shape_d (sh : shape) : pystr :=
  let ws := path_words (shape_outer sh) (shape_holes sh) in layout (zip (potrace_seps ws) ws).

(** ** What svgpathtools returns *)

Definition cpt (p : point) : complex := Cplx (inject_Z p.1) (inject_Z p.2).

Fixpoint tags_segments (cur : point) (ts : list ptag) : list svg_segment :=
  match ts with
  | [] => []
  | Corner v e :: ts' => Line (cpt cur) (cpt v) :: Line (cpt v) (cpt e) :: tags_segments e ts'
  | Curveto u w e :: ts' => CubicBezier (cpt cur) (cpt u) (cpt w) (cpt e) :: tags_segments e ts'
  end.

Definition curve_segments (c : list ptag) : list svg_segment := tags_segments (curve_start c) c.

Definition path_segments (outer : list ptag) (holes : list (list ptag)) : list svg_segment :=
  mjoin (map curve_segments (outer :: holes)).

Definition shape_segments (sh : shape) : list svg_segment :=
  path_segments (shape_outer sh) (shape_holes sh).

(** potrace's curves have at least one segment each. *)
Definition shape_wf (sh : shape) : Prop := Forall (fun c => c <> []) (shape_outer sh :: shape_holes sh).

#[export] Instance shape_wf_dec sh : Decision (shape_wf sh).
Proof. unfold shape_wf. apply _. Defined.

(** The tokens [_tokenize_path] finds in a word. *)
Definition word_tokens (w : word) : list pystr :=
  match w with
  | WCmd c n => [[c]; show_int n]
  | WNum n => [show_int n]
  | WClose => [["z"]]
  end.

(** The point reached after the segments [ts] from [cur]. *)
Definition tags_last (cur : point) (ts : list ptag) : point :=
  match last ts with Some t => tag_end t | None => cur end.

(** The command svgpathtools repeats after potrace's last operation. *)
Definition op_state (lastop : ascii) (st : pstate) : Prop :=
  (lastop = "l" -> command st = Some CmdL /\ absolute st = false) /\
  (lastop = "c" -> command st = Some CmdC /\ absolute st = false).

(** The letters potrace writes are path commands. *)
Definition word_ok (w : word) : Prop :=
  match w with WCmd c _ => is_command c = true | _ => True end.

(** ** A traced ring *)

(** A square of side 100 with a square hole of side 40, as potrace
    traces a ring: the outer curve counter-clockwise, the hole
    clockwise. *)
Definition ring_outer : list ptag :=
  [Corner (0, 100) (0, 0); Corner (100, 0) (100, 100)]%Z.
Definition ring_hole : list ptag :=
  [Corner (70, 30) (30, 30); Corner (30, 70) (70, 70)]%Z.

(** ** Numbers *)

Local Open Scope nat_scope.

Lemma is_digit_char d : d < 10 -> is_ascii_digit (ascii_of_nat (48 + d)) = true.
Proof.
  intros Hd. unfold is_ascii_digit. rewrite nat_ascii_embedding by lia.
  apply andb_true_iff. split; apply Nat.leb_le; lia.
Qed.

Lemma digits_val_chars ds acc :
  Forall (fun d => d < 10) ds ->
  fold_left (fun a c => a * 10 + (Z.of_nat (nat_of_ascii c) - 48))%Z
    (map (fun d => ascii_of_nat (48 + d)) ds) (Z.of_nat acc) =
  Z.of_nat (fold_left (fun a d => a * 10 + d) ds acc).
Proof.
  intros Hds. revert acc. induction Hds as [|d ds Hd _ IH]; intros acc; [done |].
  cbn. rewrite nat_ascii_embedding by lia. rewrite <- IH. f_equal. lia.
Qed.

Lemma show_dec_spec n :
  Forall (fun c => is_ascii_digit c = true) (show_dec n) /\ show_dec n <> [] /\
  digits_val (show_dec n) = Z.of_nat n.
Proof.
  destruct (rev_digits_spec (S n) n ltac:(lia)) as (Hv & Hd & Hne).
  apply Forall_rev in Hd. unfold show_dec. split; [| split].
  - apply Forall_map. eapply Forall_impl; [exact Hd |]. apply is_digit_char.
  - intros Hnil. apply map_eq_nil in Hnil. apply (f_equal (@rev nat)) in Hnil.
    rewrite rev_involutive in Hnil. by apply Hne.
  - unfold digits_val. change 0%Z with (Z.of_nat 0). rewrite digits_val_chars by done.
    by rewrite Hv.
Qed.

(** [%ld] writes an optional minus sign and at least one digit. *)
Lemma show_int_spec z :
  exists sg ds, show_int z = sg ++ ds /\ (sg = [] \/ sg = ["-"]) /\ ds <> [] /\
    Forall (fun c => is_ascii_digit c = true) ds /\ signed sg (digits_val ds) = z.
Proof.
  unfold show_int. destruct (Z.ltb_spec z 0).
  - destruct (show_dec_spec (Z.to_nat (- z))) as (Hd & Hne & Hv).
    exists ["-"], (show_dec (Z.to_nat (- z))).
    split; [done |]. split; [by right |]. do 2 (split; [done |]). cbn [signed]. rewrite Hv. lia.
  - destruct (show_dec_spec (Z.to_nat z)) as (Hd & Hne & Hv).
    exists [], (show_dec (Z.to_nat z)).
    split; [done |]. split; [by left |]. do 2 (split; [done |]). cbn [signed]. rewrite Hv. lia.
Qed.

Lemma command_of_digit c : is_ascii_digit c = true -> command_of c = None.
Proof. ascii_cases c; by cbn. Qed.

Lemma command_stops c r : is_command c = true -> stops (c :: r) = true.
Proof. ascii_cases c; by cbn. Qed.

Lemma ws_stops c r : is_ws c = true -> stops (c :: r) = true.
Proof. ascii_cases c; by cbn. Qed.

Lemma tokenize_show_int z rest :
  stops rest = true -> tokenize_path (show_int z ++ rest) = show_int z :: tokenize_path rest.
Proof.
  intros Hr. destruct (show_int_spec z) as (sg & ds & Hz & Hsg & Hne & Hds & Hv).
  rewrite Hz, <- app_assoc. apply (tokenize_path_float _ _ (inject_Z z)).
  - destruct Hsg as [-> | ->]; [| done]. destruct ds as [|d ds]; [done |].
    inversion Hds; subst. cbn. unfold is_command. by rewrite command_of_digit.
  - rewrite match_float_int by done. by rewrite Hv.
Qed.

Lemma py_float_show_int z : py_float (show_int z) = Ok (inject_Z z).
Proof.
  destruct (show_int_spec z) as (sg & ds & Hz & Hsg & Hne & Hds & Hv).
  unfold py_float. rewrite Hz, <- (app_nil_r ds), match_float_int by done.
  cbn. by rewrite Hv.
Qed.

Lemma next_command_show_int z r : next_command (show_int z :: r) = None.
Proof.
  destruct (show_int_spec z) as (sg & ds & Hz & Hsg & Hne & Hds & Hv). rewrite Hz.
  destruct Hsg as [-> | ->]; [| by destruct ds].
  destruct ds as [|d [|d' ds]]; [done | | done]. inversion Hds. by apply command_of_digit.
Qed.

(** ** Tokenizing a path *)

Lemma tokenize_ws_prefix sep s :
  forallb is_ws sep = true -> tokenize_path (sep ++ s) = tokenize_path s.
Proof.
  induction sep as [|c sep IH]; [done |]. cbn [app forallb]. rewrite andb_true_iff. intros [Hc Hs].
  by rewrite tokenize_path_ws, IH.
Qed.

Lemma tokenize_word w rest :
  word_ok w -> stops rest = true ->
  tokenize_path (print_word w ++ rest) = word_tokens w ++ tokenize_path rest.
Proof.
  intros Hw Hr. destruct w as [c n|n|]; cbn [print_word word_tokens app].
  - rewrite tokenize_path_command by done. by rewrite tokenize_show_int.
  - by apply tokenize_show_int.
  - by rewrite tokenize_path_command.
Qed.

Lemma layout_stops seps ws :
  seps_ok seps ws = true -> Forall word_ok ws -> stops (layout (zip seps ws)) = true.
Proof.
  destruct seps as [|sep seps], ws as [|w ws]; try done. cbn [seps_ok zip layout].
  unfold sep_okb. rewrite !andb_true_iff. intros [[Hsep Hw] _] Hok.
  apply Forall_cons in Hok as [Hw' _].
  destruct sep as [|c sep]; cbn [app].
  - destruct w as [c n|n|]; cbn [print_word app].
    + by apply command_stops.
    + by apply bool_decide_eq_true in Hw.
    + done.
  - apply ws_stops. cbn in Hsep. by apply andb_true_iff in Hsep as [-> _].
Qed.

(** svgpathtools' tokenizer finds the tokens of every word, whatever
    white space separates them. *)
Lemma tokenize_layout seps ws :
  seps_ok seps ws = true -> Forall word_ok ws ->
  tokenize_path (layout (zip seps ws)) = mjoin (map word_tokens ws).
Proof.
  revert seps. induction ws as [|w ws IH]; intros [|sep seps]; try done.
  intros Hs Hok. cbn [seps_ok] in Hs. apply andb_true_iff in Hs as [Hsep Hs]. apply Forall_cons in Hok as [Hw Hok].
  cbn [zip layout map mjoin]. unfold sep_okb in Hsep. apply andb_true_iff in Hsep as [Hws _].
  rewrite tokenize_ws_prefix by done.
  rewrite tokenize_word; [| done | by apply layout_stops]. by rewrite IH.
Qed.

Lemma lineto_ok lastop cur p : Forall word_ok (lineto lastop cur p).
Proof. unfold lineto. case_bool_decide; repeat constructor. Qed.

Lemma curveto_ok lastop cur u w e : Forall word_ok (curveto lastop cur u w e).
Proof. unfold curveto. case_bool_decide; repeat constructor. Qed.

Lemma tags_words_ok lastop cur ts : Forall word_ok (tags_words lastop cur ts).
Proof.
  revert lastop cur. induction ts as [|[v e|u w e] ts IH]; intros lastop cur; cbn [tags_words].
  - constructor.
  - apply Forall_app_2; [apply lineto_ok |]. apply Forall_app_2; [apply lineto_ok | apply IH].
  - apply Forall_app_2; [apply curveto_ok | apply IH].
Qed.

Lemma curve_words_ok abs cur c : Forall word_ok (curve_words abs cur c).
Proof.
  unfold curve_words. apply Forall_app_2; [destruct abs; repeat constructor |].
  apply Forall_app_2; [apply tags_words_ok | repeat constructor].
Qed.

Lemma path_words_ok outer holes : Forall word_ok (path_words outer holes).
Proof.
  unfold path_words. apply Forall_app_2; [apply curve_words_ok |].
  generalize (curve_start outer). induction holes as [|h hs IH]; intros cur; cbn [holes_words]; [constructor |].
  apply Forall_app_2; [apply curve_words_ok | apply IH].
Qed.

(** ** Parsing a path *)

Lemma inject_Z_add a b : (inject_Z a + inject_Z b)%Q = inject_Z (a + b).
Proof. unfold Qplus, inject_Z. cbn. f_equal. lia. Qed.

(** A relative move from [cur] lands on the absolute point, exactly. *)
Lemma cadd_rel_r cur p : cadd (cpt (rel_pt cur p)) (cpt cur) = cpt p.
Proof. unfold cadd, cpt, rel_pt. cbn. rewrite !inject_Z_add. do 2 f_equal; lia. Qed.

Lemma cadd_rel_l cur p : cadd (cpt cur) (cpt (rel_pt cur p)) = cpt p.
Proof. unfold cadd, cpt, rel_pt. cbn. rewrite !inject_Z_add. do 2 f_equal; lia. Qed.

(** The same, as [parse_path] computes it from the tokens. *)
Lemma rel_cpt cur p :
  rel false (cpt cur) (Cplx (inject_Z (rel_pt cur p).1) (inject_Z (rel_pt cur p).2)) = cpt p.
Proof. apply cadd_rel_r. Qed.

Lemma move_cpt cur p :
  cadd (cpt cur) (Cplx (inject_Z (rel_pt cur p).1) (inject_Z (rel_pt cur p).2)) = cpt p.
Proof. apply cadd_rel_l. Qed.

(** [pstate_simpl]: the fields of an explicit state. *)
Ltac pstate_simpl := cbn [elements segments current_pos start_pos command absolute].

Lemma ceqb_refl a : ceqb a a = true.
Proof. unfold ceqb. by rewrite !Qeq_bool_refl. Qed.

Lemma tags_last_cons cur t ts : tags_last cur (t :: ts) = tags_last (tag_end t) ts.
Proof.
  unfold tags_last. destruct ts as [|t' ts]; [done |]. rewrite last_cons_cons.
  destruct (last (t' :: ts)) eqn:E; [done |]. by apply last_None in E.
Qed.

Lemma curve_start_last c : c <> [] -> forall cur, tags_last cur c = curve_start c.
Proof.
  intros Hc cur. unfold tags_last, curve_start. destruct (last c) eqn:E; [done |].
  apply last_None in E. by subst.
Qed.

Lemma tags_segments_first cur ts :
  ts <> [] -> exists g gs, map Seg (tags_segments cur ts) = g :: gs /\ seg_start g = cpt cur.
Proof. destruct ts as [|[] ts]; [done | |]; intros _; by eexists _, _. Qed.

Lemma tags_segments_cons cur t ts :
  tags_segments cur (t :: ts) =
    (match t with
     | Corner v e => [Line (cpt cur) (cpt v); Line (cpt v) (cpt e)]
     | Curveto u w e => [CubicBezier (cpt cur) (cpt u) (cpt w) (cpt e)]
     end) ++ tags_segments (tag_end t) ts.
Proof. by destruct t. Qed.

Lemma tags_segments_last cur ts :
  ts <> [] -> exists g, last (map Seg (tags_segments cur ts)) = Some g /\ seg_end g = cpt (tags_last cur ts).
Proof.
  revert cur. induction ts as [|t ts IH]; intros cur Hne; [done |]. rewrite tags_last_cons.
  destruct ts as [|t' ts].
  - destruct t; cbn; by eexists.
  - destruct (IH (tag_end t) ltac:(done)) as (g & Hg & He). exists g. split; [| done].
    rewrite tags_segments_cons, map_app.
    destruct (tags_segments_first (tag_end t) (t' :: ts)) as (g0 & gs & Hf & _); [done |].
    by rewrite Hf, last_app_cons, <- Hf.
Qed.

(** [tokens_simpl]: the tokens of explicit words. *)
Ltac tokens_simpl H := cbn [mjoin list_join map word_tokens app] in H.

(** One [svg_lineto], read as an explicit or a repeated [l]. *)
Lemma runs_lineto lastop cur p st rest :
  op_state lastop st -> current_pos st = cpt cur ->
  elements st = mjoin (map word_tokens (lineto lastop cur p)) ++ rest ->
  runs st (PState rest (segments st ++ [Seg (Line (cpt cur) (cpt p))]) (cpt p)
             (start_pos st) (Some CmdL) false).
Proof.
  intros [Hl _] Hcur He. unfold lineto in He. case_bool_decide as Hop; tokens_simpl He.
  - destruct (Hl Hop) as [Hc Ha]. apply runs_one; [by rewrite He |].
    rewrite (parse_step_implicit _ CmdL); [| by rewrite He; apply next_command_show_int | done].
    rewrite (exec_L _ _ _ _ _ rest (inject_Z (rel_pt cur p).1) (inject_Z (rel_pt cur p).2) He)
      by apply py_float_show_int.
    cbv zeta. by rewrite Hcur, Hc, Ha, rel_cpt.
  - apply runs_one; [by rewrite He |].
    rewrite (parse_step_explicit _ "l" _ CmdL false He) by reflexivity.
    rewrite (exec_L _ _ _ _ _ rest (inject_Z (rel_pt cur p).1) (inject_Z (rel_pt cur p).2))
      by (reflexivity || apply py_float_show_int).
    cbv zeta. pstate_simpl. by rewrite Hcur, rel_cpt.
Qed.

(** One [svg_curveto], read as an explicit or a repeated [c]. *)
Lemma runs_curveto lastop cur u w e st rest :
  op_state lastop st -> current_pos st = cpt cur ->
  elements st = mjoin (map word_tokens (curveto lastop cur u w e)) ++ rest ->
  runs st (PState rest (segments st ++ [Seg (CubicBezier (cpt cur) (cpt u) (cpt w) (cpt e))])
             (cpt e) (start_pos st) (Some CmdC) false).
Proof.
  intros [_ Hl] Hcur He. unfold curveto in He. case_bool_decide as Hop; tokens_simpl He.
  - destruct (Hl Hop) as [Hc Ha]. apply runs_one; [by rewrite He |].
    rewrite (parse_step_implicit _ CmdC); [| by rewrite He; apply next_command_show_int | done].
    rewrite (exec_C _ _ _ _ _ _ _ _ _ rest
               (inject_Z (rel_pt cur u).1) (inject_Z (rel_pt cur u).2)
               (inject_Z (rel_pt cur w).1) (inject_Z (rel_pt cur w).2)
               (inject_Z (rel_pt cur e).1) (inject_Z (rel_pt cur e).2) He)
      by apply py_float_show_int.
    cbv zeta. by rewrite Hcur, Hc, Ha, !rel_cpt.
  - apply runs_one; [by rewrite He |].
    rewrite (parse_step_explicit _ "c" _ CmdC false He) by reflexivity.
    rewrite (exec_C _ _ _ _ _ _ _ _ _ rest
               (inject_Z (rel_pt cur u).1) (inject_Z (rel_pt cur u).2)
               (inject_Z (rel_pt cur w).1) (inject_Z (rel_pt cur w).2)
               (inject_Z (rel_pt cur e).1) (inject_Z (rel_pt cur e).2))
      by (reflexivity || apply py_float_show_int).
    cbv zeta. pstate_simpl. by rewrite Hcur, !rel_cpt.
Qed.

Lemma op_state_l st : command st = Some CmdL -> absolute st = false -> op_state "l" st.
Proof. intros Hc Ha. split; [done | discriminate]. Qed.

Lemma op_state_c st : command st = Some CmdC -> absolute st = false -> op_state "c" st.
Proof. intros Hc Ha. split; [discriminate | done]. Qed.

(** The segments of a curve, in order. *)
Lemma runs_tags lastop cur ts st rest :
  op_state lastop st -> current_pos st = cpt cur ->
  elements st = mjoin (map word_tokens (tags_words lastop cur ts)) ++ rest ->
  exists c abs, runs st (PState rest (segments st ++ map Seg (tags_segments cur ts))
                          (cpt (tags_last cur ts)) (start_pos st) c abs).
Proof.
  revert lastop cur st. induction ts as [|[v e|u w e] ts IH]; intros lastop cur st Hop Hcur He.
  - exists (command st), (absolute st). cbn in He. rewrite app_nil_r.
    unfold tags_last. cbn. rewrite <- Hcur, <- He. destruct st. constructor.
  - cbn [tags_words] in He. rewrite !map_app, !join_app, <- !app_assoc in He.
    pose proof (runs_lineto _ _ _ _ _ Hop Hcur He) as R1.
    match type of R1 with
    | runs _ ?st1 =>
        pose proof (runs_lineto "l" v e st1 _ (op_state_l st1 eq_refl eq_refl) eq_refl eq_refl) as R2
    end.
    match type of R2 with
    | runs _ ?st2 => destruct (IH "l" e st2 (op_state_l st2 eq_refl eq_refl) eq_refl eq_refl) as (c & abs & R3)
    end.
    exists c, abs. eapply runs_trans; [exact R1 |]. eapply runs_trans; [exact R2 |].
    revert R3. pstate_simpl. rewrite tags_last_cons. cbn [tag_end tags_segments map].
    rewrite <- !app_assoc. cbn [app]. done.
  - cbn [tags_words] in He. rewrite !map_app, !join_app, <- !app_assoc in He.
    pose proof (runs_curveto _ _ _ _ _ _ _ Hop Hcur He) as R1.
    match type of R1 with
    | runs _ ?st1 => destruct (IH "c" e st1 (op_state_c st1 eq_refl eq_refl) eq_refl eq_refl) as (c & abs & R2)
    end.
    exists c, abs. eapply runs_trans; [exact R1 |].
    revert R2. pstate_simpl. rewrite tags_last_cons. cbn [tag_end tags_segments map].
    rewrite <- !app_assoc. cbn [app]. done.
Qed.

Lemma op_state_move (abs : bool) st : op_state (if abs then "M" else "m") st.
Proof. split; destruct abs; discriminate. Qed.

(** [z] closes a curve whose segments end where they started. *)
Lemma runs_close st s segs c cm abs rest :
  c <> [] -> tags_last s c = s -> segs = segments st ++ map Seg (tags_segments s c) ->
  runs (PState (["z"] :: rest) segs (cpt s) (Some (cpt s)) cm abs)
       (PState rest segs (cpt s) (Some (cpt s)) None false).
Proof.
  intros Hc Hl ->. apply runs_one; [done |].
  rewrite (parse_step_explicit _ "z" rest CmdZ false); [| reflexivity | reflexivity].
  destruct (tags_segments_last s c Hc) as (g & Hg & Hge). rewrite Hl in Hge.
  destruct (tags_segments_first s c Hc) as (g0 & gs & Hf & Hg0).
  pstate_simpl.
  refine (exec_Z (PState rest (segments st ++ map Seg (tags_segments s c)) (cpt s) (Some (cpt s))
                    (Some CmdZ) false) false cm (cpt s) g _ _ _ _); pstate_simpl.
  - done.
  - apply ceqb_refl.
  - by rewrite last_app, Hg.
  - rewrite existsb_app, Hf. apply orb_true_iff. right. cbn. by rewrite Hg0, Hge, ceqb_refl.
Qed.

(** One curve: [M] or [m], its segments, [z]. *)
Lemma runs_curve abs cur c st rest :
  c <> [] -> current_pos st = cpt cur ->
  elements st = mjoin (map word_tokens (curve_words abs cur c)) ++ rest ->
  runs st (PState rest (segments st ++ map Seg (curve_segments c)) (cpt (curve_start c))
             (Some (cpt (curve_start c))) None false).
Proof.
  intros Hc Hcur He. unfold curve_words, curve_segments in *. set (s := curve_start c) in *.
  rewrite !map_app, !join_app, <- !app_assoc in He.
  set (body := mjoin (map word_tokens (tags_words (if abs then "M" else "m") s c))) in He.
  tokens_simpl He.
  assert (R1 : runs st (PState (body ++ ["z"] :: rest) (segments st) (cpt s) (Some (cpt s)) (Some CmdL) abs)).
  { apply runs_one; [by rewrite He; destruct abs |]. destruct abs.
    - rewrite (parse_step_explicit _ "M" _ CmdM true He) by reflexivity.
      by rewrite (exec_M _ true _ _ _ _ (inject_Z s.1) (inject_Z s.2))
        by (reflexivity || apply py_float_show_int).
    - rewrite (parse_step_explicit _ "m" _ CmdM false He) by reflexivity.
      rewrite (exec_M _ false _ _ _ _ (inject_Z (rel_pt cur s).1) (inject_Z (rel_pt cur s).2))
        by (reflexivity || apply py_float_show_int).
      cbv zeta. pstate_simpl. by rewrite Hcur, move_cpt. }
  match type of R1 with
  | runs _ ?st1 =>
      destruct (runs_tags (if abs then "M" else "m") s c st1 (["z"] :: rest)
                  (op_state_move abs _) eq_refl eq_refl) as (cm & abs' & R2)
  end.
  eapply runs_trans; [exact R1 |]. eapply runs_trans; [exact R2 |]. pstate_simpl.
  rewrite (curve_start_last c Hc s). apply (runs_close st s _ c); [done | | reflexivity].
  apply curve_start_last, Hc.
Qed.

(** The holes, each after the curve before it. *)
Lemma runs_holes cur hs st rest :
  Forall (fun c => c <> []) hs -> current_pos st = cpt cur ->
  elements st = mjoin (map word_tokens (holes_words cur hs)) ++ rest ->
  exists st', runs st st' /\ elements st' = rest /\
    segments st' = segments st ++ map Seg (mjoin (map curve_segments hs)).
Proof.
  intros Hhs. revert cur st. induction Hhs as [|h hs Hh _ IH]; intros cur st Hcur He.
  - exists st. split; [constructor |]. split; [done |]. by rewrite app_nil_r.
  - cbn [holes_words] in He. rewrite map_app, join_app, <- app_assoc in He.
    pose proof (runs_curve false cur h st _ Hh Hcur He) as R1.
    match type of R1 with
    | runs _ ?st1 => destruct (IH (curve_start h) st1 eq_refl eq_refl) as (st' & R2 & He' & Hs')
    end.
    exists st'. split; [by eapply runs_trans |]. split; [done |].
    rewrite Hs'. pstate_simpl. cbn [map mjoin list_join]. by rewrite map_app, app_assoc.
Qed.

(** potrace's spacing is one of the layouts. *)
Lemma potrace_seps_ok outer holes :
  seps_ok (potrace_seps (path_words outer holes)) (path_words outer holes) = true.
Proof.
  unfold path_words, curve_words. cbn [app potrace_seps seps_ok]. cbn [sep_okb forallb andb].
  generalize (tags_words "M" (curve_start outer) outer ++ [WClose]) as ws1.
  generalize (holes_words (curve_start outer) holes) as ws2. intros ws2 ws1.
  generalize (WNum (curve_start outer).2 :: ws1 ++ ws2) as ws. clear.
  induction ws as [|w ws IH]; [done |]. cbn. rewrite IH. by destruct w.
Qed.

(** The round trip for any white space between the words. *)
Lemma parse_layout outer holes seps :
  Forall (fun c => c <> []) (outer :: holes) ->
  seps_ok seps (path_words outer holes) = true ->
  parse_path (layout (zip seps (path_words outer holes))) = Ok (map Seg (path_segments outer holes)).
Proof.
  intros Hne Hs. apply Forall_cons in Hne as [Ho Hh].
  pose proof (tokenize_layout _ _ Hs (path_words_ok outer holes)) as Ht.
  unfold path_words in Ht. rewrite map_app, join_app in Ht.
  pose proof (runs_curve true (0, 0)%Z outer (init_state (tokenize_path (layout (zip seps (path_words outer holes))))) _
                Ho eq_refl Ht) as R1.
  match type of R1 with
  | runs _ ?st1 =>
      destruct (runs_holes (curve_start outer) holes st1 [] Hh eq_refl (eq_sym (app_nil_r _)))
        as (st' & R2 & He & Hseg)
  end.
  rewrite (parse_path_runs _ st'); [| by eapply runs_trans | done].
  rewrite Hseg. pstate_simpl. unfold path_segments. cbn [map mjoin list_join]. by rewrite map_app.
Qed.

(** C18: svgpathtools reads back what potrace writes: for an outer curve
    and its holes, every curve with at least one segment, [parse_path]
    of the [d] attribute potrace writes (with any white space between
    its tokens) returns the segments of the curves in absolute
    coordinates, the outer curve first, with no closing line added. *)
Theorem parse_potrace_path outer holes seps :
  Forall (fun c => c <> []) (outer :: holes) ->
  seps_ok seps (path_words outer holes) = true ->
  parse_path (layout (zip seps (path_words outer holes))) = Ok (map Seg (path_segments outer holes)).
Proof. exact (parse_layout outer holes seps). Qed.

Lemma parse_potrace_path_witness :
  Forall (fun c => c <> []) (ring_outer :: [ring_hole]) /\
  seps_ok (potrace_seps (path_words ring_outer [ring_hole])) (path_words ring_outer [ring_hole]) = true /\
  parse_path (layout (zip (potrace_seps (path_words ring_outer [ring_hole])) (path_words ring_outer [ring_hole]))) =
    Ok (map Seg (path_segments ring_outer [ring_hole])).
Proof.
  assert (H1 : Forall (fun c => c <> []) (ring_outer :: [ring_hole])) by (repeat constructor; discriminate).
  assert (H2 : seps_ok (potrace_seps (path_words ring_outer [ring_hole])) (path_words ring_outer [ring_hole]) = true)
    by (vm_compute; reflexivity).
  split; [exact H1 |]. split; [exact H2 |].
  exact (parse_potrace_path _ _ _ H1 H2).
Defined.

(** What svgpathtools reads from the [d] attribute potrace writes for a
    shape. *)
Lemma parse_shape_d sh : shape_wf sh -> parse_path (shape_d sh) = Ok (map Seg (shape_segments sh)).
Proof. intros Hsh. apply parse_layout; [exact Hsh | apply potrace_seps_ok]. Qed.

(** A shape potrace traces has a segment. *)
Lemma shape_segments_ne sh : shape_wf sh -> shape_segments sh <> [].
Proof.
  intros Hsh. apply Forall_cons in Hsh as [Ho _].
  unfold shape_segments, path_segments, curve_segments. cbn [map mjoin list_join].
  destruct (shape_outer sh) as [|[v e | u w e] ts]; [done | |]; cbn [tags_segments app]; discriminate.
Qed.

End PotraceSvg.
