(* ===== verification/World.v ===== *)
(** * World: the state the script reads and writes

    The script's only state is the file system and its standard output.
    [world] holds both: [fs] maps a path to the content of the file there,
    typed by what the next stage reads from it, and [stdout] lists the
    messages printed so far, oldest first.  An entry is a directory, a
    program (potrace), or a file typed by the collaborator that reads it:
    a raster image as PIL decodes it, the bytes of a PBM bitmap (read
    and written by [Pbm]), an SVG file by the path data of its [<path>]
    elements (written by potrace, read by svgpathtools' [parse_path]),
    and an ezdxf document.  Writing goes through
    the checks of [open(path, 'w')] ([open_write]); the lemmas show that
    a write keeps the file system a tree ([world_wf]), and
    [preserves_tac] lifts that to any computation built from the
    primitive effects. *)

From S2P Require Import Prelude Pil PyStr Geometry.

(** The pixel rows of an "L" or a "1" image (see [Pil]). *)
Abbreviation gray_image := (list (list Z)).

(** An SVG path as svgpathtools returns it: a list of segments. *)
Abbreviation svg_path := (list svg_segment).

(** ezdxf entities the script creates: [LWPOLYLINE] with its points and
    its closed flag. *)
Record lwpolyline := LWPolyline { lw_points : list vec2; lw_closed : bool }.

(** An ezdxf drawing: its DXF version and the entities of its
    modelspace, in insertion order. *)
Record dxf_document := DxfDocument { dxfversion : pystr; modelspace : list lwpolyline }.

(** A directory entry: a directory, a program (an executable file such
    as potrace), or a data file by the collaborator that reads it. *)
Inductive file :=
| Directory
| Program
| RasterFile (decoded : option Pil.pil_image)   (** [None]: PIL cannot decode it *)
| BitmapFile (data : list Z)   (** the bytes of a PBM file *)
| SvgFile (d_attrs : option (list pystr))
    (** the [d] attributes of its [<path>] elements in document order;
        [None]: not an XML document (the empty file potrace opens) *)
| DxfFile (doc : dxf_document).

(** The messages of the script's [print] calls. *)
Inductive msg :=
| MsgPotraceFailed (stderr : pystr)
| MsgParsingSvg (svg_path : pystr)
| MsgErrorReadingSvg
| MsgNoPathsInSvg
| MsgDxfSaved (dxf_path : pystr) (path_count : nat)
| MsgNoValidPaths
| MsgImageNotFound
| MsgPreprocessing (image_path : pystr)
| MsgTracing
| MsgPotraceAborting
| MsgExporting
| MsgDone
| MsgExportFailed.

Record world := World { fs : gmap pystr file; stdout : list msg }.

Abbreviation IO := (io world).

(** [print(...)]. *)
Definition print (m : msg) : IO unit :=
  io_modify (fun w => World (fs w) (stdout w ++ [m])).

(** The checks of [open(path, 'w')]: the path is not empty, its parent
    ([os.path.dirname]) is a directory, and it is not itself a directory.
    The current directory (the empty parent) and the root always exist. *)
Definition open_write (fsys : gmap pystr file) (path : pystr) : result unit :=
  let d := PyStr.dirname path in
  let parent :=
    if forallb (fun c => ascii_eqb c "/") d then Ok tt
    else match fsys !! d with
         | Some Directory => Ok tt
         | Some _ => Raise NotADirectoryError
         | None => Raise FileNotFoundError
         end in
  match path, parent with
  | [], _ => Raise FileNotFoundError
  | _, Raise e => Raise e
  | _, Ok _ => match fsys !! path with
               | Some Directory => Raise IsADirectoryError
               | _ => Ok tt
               end
  end.

Definition writable (fsys : gmap pystr file) (path : pystr) : bool :=
  match open_write fsys path with Ok _ => true | Raise _ => false end.

(** Create or overwrite the file at [path] ([bw.save], [doc.saveas]):
    the exception of [open] propagates. *)
Definition write_file (path : pystr) (f : file) : IO unit :=
  fun w => match open_write (fs w) path with
           | Ok _ => (Ok tt, World (<[path := f]> (fs w)) (stdout w))
           | Raise e => (Raise e, w)
           end.

(** The same from a C program ([fopen(path, "w")]): [false] instead of
    an exception. *)
Definition fopen_write (path : pystr) (f : file) : IO bool :=
  fun w => match open_write (fs w) path with
           | Ok _ => (Ok true, World (<[path := f]> (fs w)) (stdout w))
           | Raise _ => (Ok false, w)
           end.

Definition read_file (path : pystr) : IO (option file) :=
  fun w => (Ok (fs w !! path), w).

(** [os.path.exists(path)]. *)
Definition path_exists (path : pystr) : IO bool :=
  fun w => (Ok (bool_decide (is_Some (fs w !! path))), w).

(** The file system is a tree: the parent of every entry is a directory
    (or the current directory or the root). *)
Definition is_dir (fsys : gmap pystr file) (path : pystr) : bool :=
  match fsys !! path with Some Directory => true | _ => false end.

Definition parent_ok (fsys : gmap pystr file) (path : pystr) : Prop :=
  forallb (fun c => ascii_eqb c "/") (PyStr.dirname path) = true \/
  is_dir fsys (PyStr.dirname path) = true.

Definition world_wf (w : world) : Prop := map_Forall (fun p _ => parent_ok (fs w) p) (fs w).

#[export] Instance parent_ok_dec fsys p : Decision (parent_ok fsys p).
Proof. unfold parent_ok. apply _. Defined.

#[export] Instance world_wf_dec w : Decision (world_wf w).
Proof. unfold world_wf. apply _. Defined.

(** A computation that keeps the file system a tree, whatever it
    returns or raises. *)
Definition preserves_wf {A} (c : IO A) : Prop := forall w, world_wf w -> world_wf (c w).2.

(** A computation that leaves the entry at [q] as it is, whatever it
    returns or raises. *)
Definition frame {A} (q : pystr) (c : IO A) : Prop := forall w, fs (c w).2 !! q = fs w !! q.

(** ** Lemmas *)

Lemma print_run m w : print m w = (Ok tt, World (fs w) (stdout w ++ [m])).
Proof. reflexivity. Qed.

Lemma write_file_run p f w :
  writable (fs w) p = true -> write_file p f w = (Ok tt, World (<[p := f]> (fs w)) (stdout w)).
Proof. unfold writable, write_file. by destruct (open_write _ _). Qed.

Lemma io_bind_print {A} m (k : unit -> IO A) w :
  io_bind (print m) k w = k tt (World (fs w) (stdout w ++ [m])).
Proof. reflexivity. Qed.

Lemma io_bind_write_file {A} p f (k : unit -> IO A) w :
  io_bind (write_file p f) k w =
    match open_write (fs w) p with
    | Ok _ => k tt (World (<[p := f]> (fs w)) (stdout w))
    | Raise e => (Raise e, w)
    end.
Proof. unfold io_bind, write_file. by destruct (open_write _ _). Qed.

Lemma io_bind_fopen_write {A} p f (k : bool -> IO A) w :
  io_bind (fopen_write p f) k w =
    match open_write (fs w) p with
    | Ok _ => k true (World (<[p := f]> (fs w)) (stdout w))
    | Raise _ => k false w
    end.
Proof. unfold io_bind, fopen_write. by destruct (open_write _ _). Qed.

Lemma io_bind_read_file {A} p (k : option file -> IO A) w :
  io_bind (read_file p) k w = k (fs w !! p) w.
Proof. reflexivity. Qed.

Lemma io_bind_path_exists {A} p (k : bool -> IO A) w :
  io_bind (path_exists p) k w = k (bool_decide (is_Some (fs w !! p))) w.
Proof. reflexivity. Qed.

#[export] Hint Rewrite @io_bind_print @io_bind_write_file @io_bind_fopen_write @io_bind_read_file
  @io_bind_path_exists : cadtrace_rw.

(** ** The file-system invariant *)

Lemma open_write_ok fsys p :
  open_write fsys p = Ok tt <-> p <> [] /\ parent_ok fsys p /\ fsys !! p <> Some Directory.
Proof.
  unfold open_write, parent_ok, is_dir. destruct p as [|c p']; [naive_solver |].
  destruct (forallb _ (PyStr.dirname (c :: p'))) eqn:Hr.
  - destruct (fsys !! (c :: p')) as [[]|]; naive_solver.
  - destruct (fsys !! PyStr.dirname (c :: p')) as [[]|]; try naive_solver;
      destruct (fsys !! (c :: p')) as [[]|]; naive_solver.
Qed.

Lemma writable_ok fsys p : writable fsys p = true <-> open_write fsys p = Ok tt.
Proof. unfold writable. destruct (open_write fsys p) as [[]|]; naive_solver. Qed.

(** Writing a file where [open] succeeds keeps the parent of every other
    path, since that parent is a directory and the file is not. *)
Lemma parent_ok_insert fsys p f q :
  fsys !! p <> Some Directory -> parent_ok fsys q -> parent_ok (<[p := f]> fsys) q.
Proof.
  unfold parent_ok, is_dir. intros Hp [Hr | Hd]; [by left | right].
  rewrite lookup_insert_ne; [done |]. intros ->. revert Hd. repeat case_match; congruence.
Qed.

(** [open()] raises only [OSError]s. *)
Lemma open_write_os fsys p e : open_write fsys p = Raise e -> os_error e = true.
Proof. unfold open_write. cbv zeta. repeat case_match; intros ?; simplify_eq; done. Qed.

(** [open()] in a directory that does not exist raises
    [FileNotFoundError]. *)
Lemma open_write_missing_dir fsys X Y :
  "/"%char ∉ Y -> X <> [] -> last X <> Some "/"%char -> fsys !! X = None ->
  open_write fsys (X ++ "/"%char :: Y) = Raise FileNotFoundError.
Proof.
  intros HY HX Hl Hn. unfold open_write. rewrite PyStr.dirname_sep by done.
  rewrite (PyStr.forallb_sep_last X HX Hl), Hn. by destruct X.
Qed.

Lemma open_write_insert fsys p f q :
  open_write fsys p = Ok tt -> f <> Directory ->
  open_write fsys q = Ok tt -> open_write (<[p := f]> fsys) q = Ok tt.
Proof.
  rewrite !open_write_ok. intros (_ & _ & Hp) Hf (Hq & Hpar & Hqd).
  split; [done |]. split; [by apply parent_ok_insert |].
  destruct (decide (p = q)) as [-> | Hne].
  - rewrite lookup_insert_eq. congruence.
  - by rewrite lookup_insert_ne.
Qed.

Lemma writable_insert fsys p f q :
  writable fsys p = true -> f <> Directory ->
  writable fsys q = true -> writable (<[p := f]> fsys) q = true.
Proof. rewrite !writable_ok. apply open_write_insert. Qed.

Lemma world_wf_insert w p f o :
  world_wf w -> open_write (fs w) p = Ok tt -> world_wf (World (<[p := f]> (fs w)) o).
Proof.
  intros Hwf (_ & Hpar & Hdir)%open_write_ok. unfold world_wf. cbn [fs].
  apply map_Forall_insert_2; [by apply parent_ok_insert |].
  intros q g Hq. apply parent_ok_insert; [done |]. exact (Hwf q g Hq).
Qed.

Lemma preserves_wf_bind {A B} (c : IO A) (k : A -> IO B) :
  preserves_wf c -> (forall a, preserves_wf (k a)) -> preserves_wf (io_bind c k).
Proof.
  intros Hc Hk w Hw. unfold io_bind. specialize (Hc w Hw).
  destruct (c w) as [[a|e] w']; cbn in *; [by apply Hk | done].
Qed.

Lemma preserves_wf_ret {A} (a : A) : preserves_wf (io_ret a).
Proof. by intros w. Qed.

Lemma preserves_wf_raise {A} e : preserves_wf (A := A) (io_raise e).
Proof. by intros w. Qed.

Lemma preserves_wf_lift {A} (r : result A) : preserves_wf (io_lift r).
Proof. by intros w. Qed.

Lemma preserves_wf_print m : preserves_wf (print m).
Proof. by intros w. Qed.

Lemma preserves_wf_read_file p : preserves_wf (read_file p).
Proof. by intros w. Qed.

Lemma preserves_wf_path_exists p : preserves_wf (path_exists p).
Proof. by intros w. Qed.

Lemma preserves_wf_write_file p f : f <> Directory -> preserves_wf (write_file p f).
Proof.
  intros Hf w Hw. unfold write_file.
  destruct (open_write (fs w) p) as [[]|] eqn:E; [by apply world_wf_insert | done].
Qed.

Lemma preserves_wf_fopen_write p f : f <> Directory -> preserves_wf (fopen_write p f).
Proof.
  intros Hf w Hw. unfold fopen_write.
  destruct (open_write (fs w) p) as [[]|] eqn:E; [by apply world_wf_insert | done].
Qed.

(** [io_simpl H]: unfold the monadic notation in [H] and run the steps
    whose effect is known. *)
Ltac io_simpl H :=
  unfold mbind, mret, io_mbind, io_mret in H; cbv beta in H;
  autorewrite with cadtrace_rw in H; cbv beta in H.

(** [io_simpl_goal]: the same in the goal. *)
Ltac io_simpl_goal :=
  unfold mbind, mret, io_mbind, io_mret; cbv beta;
  autorewrite with cadtrace_rw; cbv beta.

(** ** What a computation leaves untouched *)

Lemma frame_bind {A B} q (c : IO A) (k : A -> IO B) (R : A -> Prop) :
  frame q c -> (forall w a w', c w = (Ok a, w') -> R a) ->
  (forall a, R a -> frame q (k a)) -> frame q (io_bind c k).
Proof.
  intros Hc HR Hk w. unfold io_bind. specialize (Hc w).
  destruct (c w) as [[a|e] w'] eqn:E; cbn in *; [| done].
  by rewrite (Hk a (HR _ _ _ E) w').
Qed.

Lemma frame_bind_any {A B} q (c : IO A) (k : A -> IO B) :
  frame q c -> (forall a, frame q (k a)) -> frame q (io_bind c k).
Proof. intros Hc Hk. apply (frame_bind q c k (fun _ => True)); auto. Qed.

Lemma frame_ret {A} q (a : A) : frame q (io_ret a).
Proof. by intros w. Qed.

Lemma frame_print q m : frame q (print m).
Proof. by intros w. Qed.

Lemma frame_path_exists q p : frame q (path_exists p).
Proof. by intros w. Qed.

Lemma frame_read_file q p : frame q (read_file p).
Proof. by intros w. Qed.

Lemma frame_write_file q p f : p <> q -> frame q (write_file p f).
Proof.
  intros Hpq w. unfold write_file.
  destruct (open_write (fs w) p); cbn; [by rewrite lookup_insert_ne | done].
Qed.

Lemma frame_fopen_write q p f : p <> q -> frame q (fopen_write p f).
Proof.
  intros Hpq w. unfold fopen_write.
  destruct (open_write (fs w) p); cbn; [by rewrite lookup_insert_ne | done].
Qed.

(** The components add the lemma that their operations keep the file
    system a tree to [cadtrace_wf]. *)
Create HintDb cadtrace_wf discriminated.

(** [preserves_tac]: split a computation into its primitive steps and
    show that each keeps the file system a tree. *)
Ltac preserves_tac :=
  unfold mbind, mret, io_mbind, io_mret;
  repeat first
    [ apply preserves_wf_bind; [| intros ?]
    | apply preserves_wf_ret | apply preserves_wf_raise | apply preserves_wf_lift
    | apply preserves_wf_print | apply preserves_wf_read_file | apply preserves_wf_path_exists
    | apply preserves_wf_write_file; discriminate
    | apply preserves_wf_fopen_write; discriminate
    | solve [eauto with cadtrace_wf]
    | progress case_match | progress cbv beta zeta ].
