(* ===== verification/Sampling.v ===== *)
(** * Sampling: fixed-step parametric sampling of an SVG path

    Models [svg_path_to_dxf_coords] (lines 28-34 of
    [src/linux_cadtrace.py]): every segment of the path is evaluated at
    [t = i / samples] for [i in range(samples + 1)], and each point is
    stored as [(point.real, -point.imag)], flipping the y axis. *)

From S2P Require Import Prelude Geometry.
From Stdlib Require Import QArith.
Local Open Scope nat_scope.

(** Python's true division [a / b] of two ints. *)
Definition py_truediv (a b : Z) : result Q :=
  if (b =? 0)%Z then Raise ZeroDivisionError
  else Ok (inject_Z a / inject_Z b)%Q.

(** [[i / samples for i in range(samples + 1)]]. *)
Definition sample_params (samples : Z) : result (list Q) :=
  map_res (fun i => py_truediv i samples) (py_range (samples + 1)).

(** The [i]-th sample parameter [i / samples]. *)
Definition ratio (i : nat) (samples : Z) : Q := (inject_Z (Z.of_nat i) / inject_Z samples)%Q.

Section Sampling.
Context {Seg : Type} `{SvgSegment Seg}.

(** [point = segment.point(t); (point.real, -point.imag)]. *)
Definition flip_point (seg : Seg) (t : Q) : Q * Q :=
  let p := point seg t in (re p, - im p)%Q.

(** [svg_path_to_dxf_coords(path_obj, samples)]: the nested loops
    append the flipped samples of each segment in turn; the parameter
    list is rebuilt for every segment, so an empty path never divides. *)
Fixpoint svg_path_to_dxf_coords (path_obj : list Seg) (samples : Z)
    : result (list (Q * Q)) :=
  match path_obj with
  | [] => Ok []
  | segment :: rest =>
      ts ← sample_params samples;
      coords ← svg_path_to_dxf_coords rest samples;
      Ok (map (flip_point segment) ts ++ coords)
  end.
End Sampling.

(** ** Lemmas *)

Lemma lookup_py_range n i :
  i < Z.to_nat n -> py_range n !! i = Some (Z.of_nat i).
Proof.
  intros Hi. unfold py_range. change (map Z.of_nat) with (fmap (M := list) Z.of_nat).
  by rewrite list_lookup_fmap, lookup_seq_lt.
Qed.

Lemma sample_params_pos N :
  (1 <= N)%Z ->
  sample_params N = Ok (map (fun i => inject_Z i / inject_Z N)%Q (py_range (N + 1))).
Proof.
  intros HN. unfold sample_params. apply map_res_total. intros i _.
  unfold py_truediv. by rewrite (proj2 (Z.eqb_neq N 0)) by lia.
Qed.

Lemma ratio_bounds i N : (Z.of_nat i <= N)%Z -> (1 <= N)%Z -> (0 <= ratio i N <= 1)%Q.
Proof.
  intros Hi HN. unfold ratio.
  assert (HNq : (0 < inject_Z N)%Q) by (change 0%Q with (inject_Z 0); rewrite <- Zlt_Qlt; lia).
  split.
  - apply Qle_shift_div_l; [done |]. rewrite Qmult_0_l.
    change 0%Q with (inject_Z 0). rewrite <- Zle_Qle. lia.
  - apply Qle_shift_div_r; [done |]. rewrite Qmult_1_l. rewrite <- Zle_Qle. lia.
Qed.

Lemma lookup_sample_params N ts i :
  (1 <= N)%Z -> sample_params N = Ok ts ->
  i <= Z.to_nat N -> ts !! i = Some (ratio i N).
Proof.
  intros HN Hts Hi. rewrite sample_params_pos in Hts by done. injection Hts as <-.
  change (map ?f ?l) with (fmap (M := list) f l).
  rewrite list_lookup_fmap, lookup_py_range by lia. done.
Qed.

Lemma length_sample_params N ts :
  (1 <= N)%Z -> sample_params N = Ok ts -> length ts = S (Z.to_nat N).
Proof.
  intros HN Hts. rewrite sample_params_pos in Hts by done. injection Hts as <-.
  rewrite length_map, length_py_range. lia.
Qed.

(** C19: For every sample count [N >= 1] the parameter list is computed
    without error, has [N + 1] entries, the [i]-th is [i / N], every
    entry lies in [[0, 1]], and the first and last entries are [0] and [1]:
    the sampler always evaluates both endpoints of every segment. *)
Theorem sample_params_spec N :
  (1 <= N)%Z ->
  exists ts, sample_params N = Ok ts /\ length ts = S (Z.to_nat N) /\
    (forall i, i <= Z.to_nat N -> ts !! i = Some (ratio i N)) /\
    (forall t, t ∈ ts -> (0 <= t <= 1)%Q) /\
    (ratio 0 N == 0)%Q /\ (ratio (Z.to_nat N) N == 1)%Q.
Proof.
  intros HN. pose proof (sample_params_pos N HN) as Hts.
  eexists; split; [exact Hts |].
  split; [by eapply length_sample_params |].
  split; [intros i Hi; by eapply lookup_sample_params |].
  split; [| split].
  - intros t Ht. apply list_elem_of_lookup in Ht as [i Hi].
    pose proof (lookup_lt_Some _ _ _ Hi) as Hlt.
    erewrite length_sample_params in Hlt by done.
    rewrite (lookup_sample_params N _ i HN Hts) in Hi by lia. injection Hi as <-.
    apply ratio_bounds; lia.
  - unfold ratio. simpl. unfold Qdiv. by rewrite Qmult_0_l.
  - unfold ratio. rewrite Z2Nat.id by lia. field.
    change 0%Q with (inject_Z 0). rewrite inject_Z_injective. lia.
Qed.

(** A sample count of 0 makes the first [i / samples] divide by zero. *)
Lemma sample_params_zero : sample_params 0 = Raise ZeroDivisionError.
Proof. reflexivity. Qed.

(** A negative sample count gives an empty [range], hence no parameter at
    all and no error. *)
Lemma sample_params_neg N : (N < 0)%Z -> sample_params N = Ok [].
Proof. intros HN. unfold sample_params. by rewrite py_range_nonpos by lia. Qed.

(** With a non-positive sample count a path with a segment raises
    [ZeroDivisionError] (count 0) or has no coordinate at all. *)
Lemma svg_path_to_dxf_coords_nonpos {Seg} `{SvgSegment Seg} (path : list Seg) N :
  path <> [] -> (N <= 0)%Z ->
  svg_path_to_dxf_coords path N = if (N =? 0)%Z then Raise ZeroDivisionError else Ok [].
Proof.
  intros Hp HN. destruct (Z.eqb_spec N 0) as [-> | HN0].
  - destruct path as [|seg path]; [done |]. cbn. by rewrite sample_params_zero.
  - clear Hp. induction path as [|seg path IH]; [done |]. cbn [svg_path_to_dxf_coords].
    rewrite sample_params_neg by lia. cbn. by rewrite IH.
Qed.

Section SamplingLemmas.
Context {Seg : Type} `{SvgSegment Seg}.

Lemma svg_path_to_dxf_coords_nil N : svg_path_to_dxf_coords (Seg := Seg) [] N = Ok [].
Proof. reflexivity. Qed.

(** The samples of a path, by index. *)
Lemma svg_path_to_dxf_coords_lookup (path : list Seg) N :
  (1 <= N)%Z ->
  exists cs, svg_path_to_dxf_coords path N = Ok cs /\
    length cs = length path * S (Z.to_nat N) /\
    forall k seg i, path !! k = Some seg -> i <= Z.to_nat N ->
      cs !! (k * S (Z.to_nat N) + i) =
        Some (re (point seg (ratio i N)), (- im (point seg (ratio i N)))%Q).
Proof.
  intros HN. pose proof (sample_params_pos N HN) as Hts.
  induction path as [|seg0 path IH].
  - exists []. split; [done |]. split; [done |]. intros k seg i Hk. done.
  - destruct IH as (cs & Hcs & Hlen & Hidx).
    simpl. rewrite Hts, Hcs. simpl.
    eexists; split; [reflexivity |].
    set (ts := map _ (py_range (N + 1))).
    assert (Hlts : length (map (flip_point seg0) ts) = S (Z.to_nat N))
      by (rewrite length_map; by eapply length_sample_params).
    split; [rewrite length_app, Hlts, Hlen; lia |].
    intros [|k] seg i Hk Hi; simpl in Hk.
    + injection Hk as <-. rewrite Nat.mul_0_l, Nat.add_0_l.
      rewrite lookup_app_l by lia.
      change (map ?f ?l) with (fmap (M := list) f l) at 1.
      rewrite list_lookup_fmap, (lookup_sample_params N ts i HN Hts) by done. done.
    + rewrite lookup_app_r by (rewrite Hlts; lia). rewrite Hlts.
      replace (S k * S (Z.to_nat N) + i - S (Z.to_nat N))
        with (k * S (Z.to_nat N) + i) by lia.
      by apply Hidx.
Qed.
(** C7: The coordinate invariant.  For [N >= 1] sampling never fails,
    yields [N + 1] points per segment, and the point at index
    [k * (N + 1) + i] is [(x, -y)] where [x + iy] is segment [k]
    evaluated at [i / N]: every emitted point is the source point with
    its imaginary part negated. *)
Theorem svg_path_to_dxf_coords_spec (path : list Seg) N :
  (1 <= N)%Z ->
  exists cs, svg_path_to_dxf_coords path N = Ok cs /\
    length cs = length path * S (Z.to_nat N) /\
    forall k seg i, path !! k = Some seg -> i <= Z.to_nat N ->
      cs !! (k * S (Z.to_nat N) + i) =
        Some (re (point seg (ratio i N)), (- im (point seg (ratio i N)))%Q).
Proof. apply svg_path_to_dxf_coords_lookup. Qed.
End SamplingLemmas.

(** ** Witnesses *)

Lemma sample_params_spec_witness :
  (1 <= 40)%Z /\
  exists ts, sample_params 40 = Ok ts /\ length ts = S (Z.to_nat 40) /\
    (forall i, i <= Z.to_nat 40 -> ts !! i = Some (ratio i 40)) /\
    (forall t, t ∈ ts -> (0 <= t <= 1)%Q) /\
    (ratio 0 40 == 0)%Q /\ (ratio (Z.to_nat 40) 40 == 1)%Q.
Proof.
  assert (HN : (1 <= 40)%Z) by lia.
  split; [exact HN | exact (sample_params_spec 40 HN)].
Defined.

Lemma svg_path_to_dxf_coords_spec_witness :
  (1 <= 4)%Z /\
  exists cs,
    svg_path_to_dxf_coords [Line (Cplx 0 0) (Cplx 1 1); Line (Cplx 1 1) (Cplx 2 0)] 4 = Ok cs /\
    length cs = 2 * S (Z.to_nat 4) /\
    forall k seg i, [Line (Cplx 0 0) (Cplx 1 1); Line (Cplx 1 1) (Cplx 2 0)] !! k = Some seg ->
      i <= Z.to_nat 4 ->
      cs !! (k * S (Z.to_nat 4) + i) =
        Some (re (point seg (ratio i 4)), (- im (point seg (ratio i 4)))%Q).
Proof.
  assert (HN : (1 <= 4)%Z) by lia.
  split; [exact HN | exact (svg_path_to_dxf_coords_spec _ 4 HN)].
Defined.
