(* ===== verification/Decimate.v ===== *)
(** * Decimate: the greedy distance-based point decimation

    Models lines 59-62 of [svg_to_dxf]:
<<
        simplified = [Vec2( *coords[0])]
        for pt in coords[1:]:
            if Vec2( *pt).distance(simplified[-1]) > 0.1:
                simplified.append(Vec2( *pt))
>>
    The section is generic in the point constructor [mk] ([Vec2( *pt)])
    and the separation test [far] ([distance > 0.1]); [SvgToDxf]
    instantiates them with [Geometry.Vec2] and [Geometry.far].  The file
    proves that the list-state loop equals a streaming recursion that only
    remembers the last kept point, and the invariants of its output. *)

From S2P Require Import Prelude.

Section Decimate.
Context {C P : Type} (mk : C -> P) (far : P -> P -> bool).

(** One iteration of the loop body: compare with [simplified[-1]]. *)
Definition decimate_step (simplified : list P) (pt : C) : result (list P) :=
  last_kept ← py_last simplified;
  if far (mk pt) last_kept then Ok (simplified ++ [mk pt]) else Ok simplified.

(** The whole fragment; [coords[0]] raises [IndexError] on an empty
    list. *)
Definition decimate (coords : list C) : result (list P) :=
  c0 ← py_first coords;
  fold_res decimate_step (py_tail coords) [mk c0].

(** The streaming form: the only state is the last kept point. *)
Fixpoint greedy (last_kept : P) (pts : list P) : list P :=
  match pts with
  | [] => []
  | p :: ps => if far p last_kept then p :: greedy p ps else greedy last_kept ps
  end.

(** Consecutive points of [l] are more than the separation apart (the
    later one tested against the earlier one, as the loop does). *)
Fixpoint separated (l : list P) : Prop :=
  match l with
  | x :: ((y :: _) as l') => far y x = true /\ separated l'
  | _ => True
  end.
End Decimate.

(** Concrete data for the witnesses: the fragment on integer points with [far p q := |p - q| > 1]. *)

Definition zfar (p q : Z) : bool := (1 <? Z.abs (p - q))%Z.

Definition zcoords : list Z := [0; 1; 3; 4; 7]%Z.

(** ** The loop equals the streaming recursion *)

Section DecimateLemmas.
Context {C P : Type} (mk : C -> P) (far : P -> P -> bool).

Lemma fold_decimate_step pts acc lk :
  fold_res (decimate_step mk far) pts (acc ++ [lk])
  = Ok (acc ++ lk :: greedy far lk (map mk pts)).
Proof.
  revert acc lk. induction pts as [|pt pts IH]; intros acc lk; [done |].
  simpl. unfold decimate_step at 1. rewrite py_last_snoc. simpl.
  destruct (far (mk pt) lk).
  - rewrite IH. by rewrite <- app_assoc.
  - by rewrite IH.
Qed.

(** Only the separation test against the last kept point matters. *)
Lemma greedy_ext lk lk' ps : (forall y, far y lk = far y lk') -> greedy far lk ps = greedy far lk' ps.
Proof.
  intros Hf. induction ps as [|p ps IH]; [done |]. cbn [greedy].
  rewrite Hf. by destruct (far p lk').
Qed.

(** Over [l ++ r] the loop goes on from the last point kept in [l]. *)
Lemma greedy_app lk l r :
  greedy far lk (l ++ r) = greedy far lk l ++ greedy far (default lk (last (greedy far lk l))) r.
Proof.
  revert lk. induction l as [|x l IH]; intros lk; [done |]. cbn [app greedy].
  destruct (far x lk); [| apply IH].
  rewrite IH. cbn [app]. rewrite last_cons. by destruct (last (greedy far x l)).
Qed.

(** Points no farther than the separation from the last kept point are
    all dropped. *)
Lemma greedy_near lk l : Forall (fun y => far y lk = false) l -> greedy far lk l = [].
Proof. induction 1 as [|y l Hy _ IH]; [done |]. cbn [greedy]. by rewrite Hy. Qed.

Lemma greedy_length lk ps : length (greedy far lk ps) <= length ps.
Proof.
  revert lk. induction ps as [|p ps IH]; intros lk; simpl; [lia |].
  destruct (far p lk); simpl; [specialize (IH p) | specialize (IH lk)]; lia.
Qed.

Lemma greedy_sublist lk ps : greedy far lk ps `sublist_of` ps.
Proof.
  revert lk. induction ps as [|p ps IH]; intros lk; simpl; [done |].
  destruct (far p lk); [by apply sublist_skip | by apply sublist_cons].
Qed.

Lemma greedy_separated lk ps : separated far (lk :: greedy far lk ps).
Proof.
  revert lk. induction ps as [|p ps IH]; intros lk; simpl; [done |].
  destruct (far p lk) eqn:E; [| apply IH].
  simpl. split; [done | apply IH].
Qed.

Lemma greedy_separated_id lk ps : separated far (lk :: ps) -> greedy far lk ps = ps.
Proof.
  revert lk. induction ps as [|p ps IH]; intros lk Hs; [done |].
  simpl in *. destruct Hs as [Hf Hs]. rewrite Hf. f_equal. apply IH.
  destruct ps; [done | exact Hs].
Qed.

Lemma greedy_id_separated lk ps : greedy far lk ps = ps -> separated far (lk :: ps).
Proof.
  revert lk. induction ps as [|p ps IH]; intros lk Hg; [done |].
  simpl in Hg. destruct (far p lk) eqn:E.
  - injection Hg as Hg. pose proof (IH p Hg) as Hs. simpl. split; [done |].
    destruct ps; [done | exact Hs].
  - exfalso. pose proof (greedy_length lk ps) as Hl. rewrite Hg in Hl.
    simpl in Hl. lia.
Qed.

Lemma greedy_last lk ps x :
  last ps = Some x ->
  exists y, last (lk :: greedy far lk ps) = Some y /\ (y = x \/ far x y = false).
Proof.
  revert lk. induction ps as [|p ps IH]; intros lk Hx; [done |].
  simpl. destruct (far p lk) eqn:E.
  - destruct ps as [|p' ps].
    + injection Hx as <-. exists p. simpl. auto.
    + destruct (IH p Hx) as (y & Hy & Hxy). exists y. split; [| done].
      rewrite last_cons, Hy. done.
  - destruct ps as [|p' ps].
    + injection Hx as <-. exists lk. simpl. auto.
    + exact (IH lk Hx).
Qed.

Section Irrefl.
Hypothesis far_irrefl : forall p, far p p = false.

Lemma greedy_covers lk ps x :
  x ∈ ps -> exists y, y ∈ lk :: greedy far lk ps /\ far x y = false.
Proof.
  revert lk. induction ps as [|p ps IH]; intros lk Hx; [set_solver |].
  apply elem_of_cons in Hx as [<- | Hx]; simpl.
  - destruct (far x lk) eqn:E.
    + exists x. split; [set_solver | apply far_irrefl].
    + exists lk. split; [set_solver | done].
  - destruct (far p lk).
    + destruct (IH p Hx) as (y & Hy & Hf). exists y. split; [set_solver | done].
    + destruct (IH lk Hx) as (y & Hy & Hf). exists y. split; [set_solver | done].
Qed.
End Irrefl.
End DecimateLemmas.

#[export] Hint Resolve greedy_sublist greedy_separated sublist_skip : cadtrace.

(** ** Properties of the decimation fragment *)

Section DecimateTheorems.
Context {C P : Type} (mk : C -> P) (far : P -> P -> bool).

(** The loop in closed form. *)
Lemma decimate_eq coords :
  decimate mk far coords =
    match coords with
    | [] => Raise IndexError
    | c :: cs => Ok (mk c :: greedy far (mk c) (map mk cs))
    end.
Proof.
  destruct coords as [|c cs]; [done |].
  exact (fold_decimate_step mk far cs [] (mk c)).
Qed.

Lemma decimate_Ok coords out :
  decimate mk far coords = Ok out ->
  exists c cs, coords = c :: cs /\ out = mk c :: greedy far (mk c) (map mk cs).
Proof.
  rewrite decimate_eq. destruct coords as [|c cs]; [done |].
  intros [= <-]. eauto.
Qed.

(** C6: The decimation invariant.  On a non-empty input the loop returns;
    its output starts with the first input point, is a subsequence of
    the input, and every kept point is more than the separation away
    from the point kept just before it. *)
Theorem decimate_invariant coords :
  coords <> [] ->
  exists out, decimate mk far coords = Ok out /\
    head out = head (map mk coords) /\
    out `sublist_of` map mk coords /\
    separated far out.
Proof.
  intros Hne. rewrite decimate_eq. destruct coords as [|c cs]; [done |].
  eexists; split; [reflexivity |]. split; [done |].
  cbn [map]. split; auto with cadtrace.
Qed.

(** C15: Decimation is the identity exactly on the non-empty inputs whose
    consecutive points are already separated. *)
Theorem decimate_fixpoint_iff coords :
  decimate mk far coords = Ok (map mk coords) <->
  coords <> [] /\ separated far (map mk coords).
Proof.
  rewrite decimate_eq. destruct coords as [|c cs]; simpl; [split; [done | tauto] |].
  split.
  - intros [= Hg]. split; [done |]. by apply greedy_id_separated.
  - intros [_ Hs]. by rewrite greedy_separated_id.
Qed.

(** C17: The last input point is either the last kept point or within the
    separation of it: the loop does not force the end point of a path
    into the polyline. *)
Theorem decimate_last coords out x :
  decimate mk far coords = Ok out -> last (map mk coords) = Some x ->
  exists y, last out = Some y /\ (y = x \/ far x y = false).
Proof.
  intros Hd Hx. destruct (decimate_Ok _ _ Hd) as (c & cs & -> & ->).
  destruct cs as [|c' cs].
  - simpl in Hx. injection Hx as <-. exists (mk c). auto.
  - apply greedy_last. cbn [map] in Hx |- *. by rewrite last_cons_cons in Hx.
Qed.

(** C16: With an irreflexive test (a point is never far from itself),
    every input point lies within the separation of some kept point. *)
Theorem decimate_covers coords out x :
  (forall p, far p p = false) ->
  decimate mk far coords = Ok out -> x ∈ map mk coords ->
  exists y, y ∈ out /\ far x y = false.
Proof.
  intros Hirr Hd Hx. destruct (decimate_Ok _ _ Hd) as (c & cs & -> & ->).
  apply elem_of_cons in Hx as [-> | Hx].
  - exists (mk c). split; [set_solver | apply Hirr].
  - by apply greedy_covers.
Qed.
(** C5: The list-state loop of [svg_to_dxf] computes the streaming greedy
    recursion: the first point, then [greedy] from it over the rest.  On
    an empty coordinate list [coords[0]] raises [IndexError]. *)
Theorem decimate_greedy coords :
  decimate mk far coords =
    match coords with
    | [] => Raise IndexError
    | c :: cs => Ok (mk c :: greedy far (mk c) (map mk cs))
    end.
Proof. exact (decimate_eq coords). Qed.
End DecimateTheorems.

(** ** Decimation respects an equivalence of points *)

Section Respects.
Context {C P : Type} (mk : C -> P) (far : P -> P -> bool) (R : P -> P -> Prop).
Context (far_proper : Proper (R ==> R ==> eq) far).

Lemma greedy_respects lk lk' ps qs :
  R lk lk' -> Forall2 R ps qs -> Forall2 R (greedy far lk ps) (greedy far lk' qs).
Proof.
  intros Hlk Hps. revert lk lk' Hlk.
  induction Hps as [|p q ps qs Hpq _ IH]; intros lk lk' Hlk; simpl; [constructor |].
  rewrite (far_proper p q Hpq lk lk' Hlk).
  destruct (far q lk'); [constructor; [done | by apply IH] | by apply IH].
Qed.

(** Equivalent inputs give equivalent outputs, and the same errors. *)
Lemma decimate_respects coords coords' out :
  Forall2 R (map mk coords) (map mk coords') ->
  decimate mk far coords = Ok out ->
  exists out', decimate mk far coords' = Ok out' /\ Forall2 R out out'.
Proof.
  rewrite !decimate_eq. intros Hcs Hd.
  destruct coords as [|c cs]; [done |]. destruct coords' as [|c' cs']; [inversion Hcs |].
  injection Hd as <-. simpl in Hcs. apply Forall2_cons_1 in Hcs as [Hc Hcs].
  eexists; split; [reflexivity |]. constructor; [done |].
  by apply greedy_respects.
Qed.
End Respects.

(** Decimating an already decimated polyline changes nothing. *)
Corollary decimate_idempotent {C P} (mk : C -> P) far coords out :
  decimate mk far coords = Ok out -> decimate id far out = Ok out.
Proof.
  intros Hd. destruct (decimate_Ok mk far _ _ Hd) as (c & cs & -> & ->).
  rewrite decimate_eq, map_id, greedy_separated_id; [done |].
  apply greedy_separated.
Qed.


(** ** Witnesses *)

Lemma decimate_invariant_witness :
  zcoords <> [] /\
  exists out, decimate id zfar zcoords = Ok out /\ head out = head (map id zcoords) /\
    out `sublist_of` map id zcoords /\ separated zfar out.
Proof.
  assert (Hne : zcoords <> []) by discriminate.
  split; [exact Hne | exact (decimate_invariant id zfar zcoords Hne)].
Defined.

Lemma decimate_last_witness :
  decimate id zfar zcoords = Ok [0; 3; 7]%Z /\ last (map id zcoords) = Some 7%Z /\
  exists y, last [0; 3; 7]%Z = Some y /\ (y = 7%Z \/ zfar 7 y = false).
Proof.
  assert (H1 : decimate id zfar zcoords = Ok [0; 3; 7]%Z) by (vm_compute; reflexivity).
  assert (H2 : last (map id zcoords) = Some 7%Z) by reflexivity.
  split; [exact H1 |]. split; [exact H2 |].
  exact (decimate_last id zfar zcoords _ _ H1 H2).
Defined.

Lemma decimate_covers_witness :
  (forall p, zfar p p = false) /\ decimate id zfar zcoords = Ok [0; 3; 7]%Z /\
  (4%Z ∈ map id zcoords) /\ exists y, y ∈ [0; 3; 7]%Z /\ zfar 4 y = false.
Proof.
  assert (H0 : forall p, zfar p p = false)
    by (intros p; unfold zfar; rewrite Z.sub_diag; reflexivity).
  assert (H1 : decimate id zfar zcoords = Ok [0; 3; 7]%Z) by (vm_compute; reflexivity).
  assert (H2 : 4%Z ∈ map id zcoords) by (apply (bool_decide_unpack _); vm_compute; exact I).
  split; [exact H0 |]. split; [exact H1 |]. split; [exact H2 |].
  exact (decimate_covers id zfar zcoords _ _ H0 H1 H2).
Defined.

Lemma decimate_idempotent_witness :
  decimate id zfar zcoords = Ok [0; 3; 7]%Z /\ decimate id zfar [0; 3; 7]%Z = Ok [0; 3; 7]%Z.
Proof.
  assert (H1 : decimate id zfar zcoords = Ok [0; 3; 7]%Z) by (vm_compute; reflexivity).
  split; [exact H1 | exact (decimate_idempotent id zfar zcoords _ H1)].
Defined.
