(* ===== verification/Binarize.v ===== *)
(** * Binarize: [convert_to_pbm] (lines 12-17)

    [Image.open(path)] is [pil_open] (with the [OSError]s of [open] and
    PIL, and the size checks of [Pil.open_checks]); [.convert('L')] and [img.point(lambda x: 0 if x < 128 else 255,
    '1')] are [Pil.convert_L] and the lookup table of [Pil.point_table],
    composed in [bitmap_of]; the bitmap is saved next to the input with
    the extension replaced by [.pbm] ([pbm_of]) as the raw PBM bytes of
    [Pbm.pbm_encode], through [write_file], which raises when the
    directory is missing.  The theorems: the bitmap
    has two levels for every input, the table binarizes at 128 on
    well-formed images, the alpha band is ignored, and
    running [convert_to_pbm] on the bitmap file it saved writes the same
    bytes again. *)

From S2P Require Import Prelude Pil Pbm PyStr Geometry World.

Module Binarize.
Import Pil Pbm.

(** [lambda x: 0 if x < 128 else 255]. *)
Definition threshold (x : Z) : Z := if (x <? 128)%Z then 0%Z else 255%Z.

(** [Image.open(path)]: PIL decodes raster images, and reads a raw PBM
    file as a "1" image ([Pbm.pbm_decode]), then checks the decoded size
    ([Pil.open_checks]); [open(path, 'rb')] raises [FileNotFoundError] on
    a missing path and [IsADirectoryError] on a directory; any other file
    raises PIL's [UnidentifiedImageError], an [OSError]. *)
Definition pil_open (f : option file) : result pil_image :=
  match f with
  | Some (RasterFile (Some im)) => open_checks im
  | Some (BitmapFile data) =>
      match pbm_decode data with
      | Some rows => open_checks (Image1 rows)
      | None => Raise OSError
      end
  | Some Directory => Raise IsADirectoryError
  | None => Raise FileNotFoundError
  | Some _ => Raise OSError
  end.

(** [Image.open(path).convert('L').point(threshold, '1')]: the bitmap
    [convert_to_pbm] saves, by its rows. *)
Definition bitmap_of (im : pil_image) : gray_image :=
  point_L_to_1 (point_table threshold) (convert_L im).

Definition pbm_ext : pystr := lit ".pbm".

(** [os.path.splitext(input_image_path)[0] + ".pbm"] (line 15). *)
Definition pbm_of (input_image_path : pystr) : pystr :=
  (PyStr.splitext input_image_path).1 ++ pbm_ext.

Definition convert_to_pbm (input_image_path : pystr) : IO pystr :=
  f ← read_file input_image_path;
  im ← io_lift (pil_open f);
  let img := convert_L im in
  let bw := point_L_to_1 (point_table threshold) img in
  let pbm_path := pbm_of input_image_path in
  write_file pbm_path (BitmapFile (pbm_encode bw));;
  io_ret pbm_path.

(** A gray scan. *)
Definition gray_scan : pil_image := ImageL [[12; 200]; [128; 127]]%Z.

(** The bitmap of the gray scan saved at [scan.pbm]. *)
Definition pbm_world : world :=
  World {[lit "scan.pbm" := BitmapFile (pbm_encode (bitmap_of gray_scan))]} [].

(** ** Properties *)

Lemma threshold_two_levels x : threshold x = 0%Z \/ threshold x = 255%Z.
Proof. unfold threshold. destruct (x <? 128)%Z; auto. Qed.

Lemma clip8_threshold x : clip8 (threshold x) = threshold x.
Proof. apply clip8_id. destruct (threshold_two_levels x) as [-> | ->]; lia. Qed.

Lemma bitmap_of_pixel im row x : row ∈ bitmap_of im -> x ∈ row -> x = 0%Z \/ x = 255%Z.
Proof.
  intros Hrow Hx. destruct (point_L_to_1_elem _ _ _ _ Hrow Hx) as [Hin | ->]; [| by left].
  apply point_table_elem in Hin as (i & _ & ->). rewrite clip8_threshold.
  apply threshold_two_levels.
Qed.

Lemma bitmap_of_wf im : rect (convert_L im) = true -> bitmap_wf (bitmap_of im) = true.
Proof.
  intros Hr. unfold bitmap_wf, rows_ok, rect in *. unfold bitmap_of, point_L_to_1.
  rewrite shape_map. apply andb_true_iff. split; [done |].
  apply forallb_forall. intros row Hrow. apply forallb_forall. intros x Hx.
  apply list_elem_of_In in Hrow, Hx. unfold bitmap_of, point_L_to_1 in *.
  destruct (bitmap_of_pixel im row x) as [-> | ->]; done.
Qed.

(** [convert_to_pbm] on a decodable image writes exactly one file, the
    bitmap at [splitext(path)[0] + ".pbm"], prints nothing and returns
    that path; when PIL cannot decode the input or the bitmap cannot be
    written it raises and changes nothing. *)
Theorem convert_to_pbm_spec path w :
  convert_to_pbm path w =
    match pil_open (fs w !! path) with
    | Ok im =>
        let pbm := pbm_of path in
        match open_write (fs w) pbm with
        | Ok _ => (Ok pbm, World (<[pbm := BitmapFile (pbm_encode (bitmap_of im))]> (fs w)) (stdout w))
        | Raise e => (Raise e, w)
        end
    | Raise e => (Raise e, w)
    end.
Proof.
  unfold convert_to_pbm, read_file, write_file. unfold_monads.
  destruct (pil_open _); [| done]. cbn. by destruct (open_write _ _).
Qed.

Lemma io_bind_convert_to_pbm {A} path (k : pystr -> IO A) w :
  io_bind (convert_to_pbm path) k w =
    match pil_open (fs w !! path) with
    | Ok im =>
        let pbm := pbm_of path in
        match open_write (fs w) pbm with
        | Ok _ => k pbm (World (<[pbm := BitmapFile (pbm_encode (bitmap_of im))]> (fs w)) (stdout w))
        | Raise e => (Raise e, w)
        end
    | Raise e => (Raise e, w)
    end.
Proof.
  unfold io_bind at 1. rewrite convert_to_pbm_spec.
  destruct (pil_open _); [| done]. cbn. by destruct (open_write _ _).
Qed.

(** The same when the image decodes and the bitmap can be written. *)
Lemma io_bind_convert_to_pbm_ok {A} path im (k : pystr -> IO A) w :
  pil_open (fs w !! path) = Ok im ->
  writable (fs w) (pbm_of path) = true ->
  io_bind (convert_to_pbm path) k w =
    k (pbm_of path) (World (<[pbm_of path := BitmapFile (pbm_encode (bitmap_of im))]> (fs w)) (stdout w)).
Proof.
  intros Him Hwr. apply writable_ok in Hwr.
  rewrite io_bind_convert_to_pbm, Him. cbn zeta. by rewrite Hwr.
Qed.

Lemma preserves_wf_convert_to_pbm path : preserves_wf (convert_to_pbm path).
Proof. unfold convert_to_pbm. preserves_tac. Qed.

#[export] Hint Resolve preserves_wf_convert_to_pbm : cadtrace_wf.

Lemma convert_to_pbm_result p w pbm w' :
  convert_to_pbm p w = (Ok pbm, w') -> pbm = pbm_of p.
Proof. rewrite convert_to_pbm_spec. cbv zeta. repeat case_match; intros Heq; by simplify_eq. Qed.

Lemma open_checks_raise im e :
  open_checks im = Raise e -> os_error e = true \/ e = DecompressionBombError.
Proof. unfold open_checks. destruct (image_size im). repeat case_match; intros ?; simplify_eq; auto. Qed.

(** [Image.open] raises [OSError]s and [DecompressionBombError]. *)
Lemma pil_open_raise f e : pil_open f = Raise e -> os_error e = true \/ e = DecompressionBombError.
Proof.
  unfold pil_open. repeat case_match; intros ?; simplify_eq; eauto using open_checks_raise.
Qed.

(** [convert_to_pbm] raises only what [Image.open] and [open] raise. *)
Lemma convert_to_pbm_raise p w e w' :
  convert_to_pbm p w = (Raise e, w') -> os_error e = true \/ e = DecompressionBombError.
Proof.
  rewrite convert_to_pbm_spec. cbv zeta.
  repeat case_match; intros ?; simplify_eq; eauto using pil_open_raise, open_write_os.
Qed.

Lemma frame_convert_to_pbm q p : q <> pbm_of p -> frame q (convert_to_pbm p).
Proof.
  intros Hq w. rewrite convert_to_pbm_spec. cbv zeta.
  repeat case_match; cbn; rewrite ?lookup_insert_ne; done.
Qed.

Lemma frame_bind_convert_to_pbm {B} q p (k : pystr -> IO B) :
  q <> pbm_of p -> frame q (k (pbm_of p)) -> frame q (io_bind (convert_to_pbm p) k).
Proof.
  intros Hq Hk. apply (frame_bind q _ k (fun a => a = pbm_of p)).
  - by apply frame_convert_to_pbm.
  - apply convert_to_pbm_result.
  - by intros a ->.
Qed.

Lemma bitmap_of_image_wf im : image_wf im = true -> bitmap_wf (bitmap_of im) = true.
Proof.
  intros Hwf. apply bitmap_of_wf.
  destruct (convert_L_gray im Hwf) as [Hg _]. unfold gray_wf, rows_ok in Hg.
  by apply andb_true_iff in Hg as [-> _].
Qed.

(** PIL reads the saved bitmap back. *)
(** The bitmap has the size of the image. *)
Lemma image_size_bitmap_of im :
  image_wf im = true -> image_size (Image1 (bitmap_of im)) = image_size im.
Proof.
  intros Hwf. unfold image_size. cbn [image_shape]. unfold bitmap_of, point_L_to_1.
  by rewrite shape_map, (proj2 (convert_L_gray im Hwf)).
Qed.

(** [Image.open]'s checks depend on the size only. *)
Lemma open_checks_size im im' :
  image_size im' = image_size im -> open_checks im = Ok im -> open_checks im' = Ok im'.
Proof.
  unfold open_checks. intros ->. destruct (image_size im) as [w h].
  by repeat case_match.
Qed.

(** PIL reads back the bitmap of an image it opened. *)
Lemma pil_open_pbm im :
  image_wf im = true -> open_checks im = Ok im ->
  pil_open (Some (BitmapFile (pbm_encode (bitmap_of im)))) = Ok (Image1 (bitmap_of im)).
Proof.
  intros Hwf Hc. cbn [pil_open]. rewrite pbm_decode_encode by by apply bitmap_of_image_wf.
  apply (open_checks_size im); [by apply image_size_bitmap_of | exact Hc].
Qed.

(** An image PIL decodes is on disk. *)
Lemma pil_open_exists f im : pil_open f = Ok im -> is_Some f.
Proof. destruct f; [eauto | done]. Qed.

(** ** Claims *)

(** C8: The lookup-table route of [convert_to_pbm] binarizes at 128: on
    a well-formed image, every pixel of the saved bitmap is 0 (black)
    when its gray value in the "L" conversion is below 128, and 255
    (white) otherwise. *)
Theorem bitmap_of_threshold im :
  image_wf im = true ->
  bitmap_of im = map (map (fun x => if (x <? 128)%Z then 0%Z else 255%Z)) (convert_L im).
Proof.
  intros Hwf. pose proof (proj1 (convert_L_gray im Hwf)) as Hg.
  unfold bitmap_of, point_L_to_1. apply map_ext_in. intros r Hr.
  apply map_ext_in. intros v Hv.
  rewrite point_table_lookup by (apply byte_ok_spec; exact (rows_ok_elem _ _ _ _ Hg Hr Hv)).
  cbn [default]. rewrite clip8_threshold. reflexivity.
Qed.

(** C10: For every input image, of any mode, the bitmap [convert_to_pbm]
    saves has only two intensity levels: every pixel is 0 (black) or 255
    (white). *)
Theorem binarize_two_levels im row x :
  row ∈ bitmap_of im -> x ∈ row -> x = 0%Z \/ x = 255%Z.
Proof. apply bitmap_of_pixel. Qed.

(** Binarizing a "1" image changes nothing. *)
Lemma bitmap_of_image1 im : bitmap_of (Image1 (bitmap_of im)) = bitmap_of im.
Proof.
  unfold bitmap_of at 1. cbn [convert_L]. unfold point_L_to_1. rewrite map_map.
  rewrite <- (map_id (bitmap_of im)) at 2. apply map_ext_in. intros r Hr.
  rewrite map_map. rewrite <- (map_id r) at 2. apply map_ext_in. intros v Hv.
  apply list_elem_of_In in Hr, Hv.
  destruct (bitmap_of_pixel im r v Hr Hv) as [-> | ->]; reflexivity.
Qed.

(** C33: Binarizing is idempotent: running [convert_to_pbm] on a bitmap
    file it saved (PIL reads it back as a "1" image) saves the same bytes
    again. *)
Theorem binarize_idempotent im path w :
  image_wf im = true -> open_checks im = Ok im ->
  fs w !! path = Some (BitmapFile (pbm_encode (bitmap_of im))) ->
  writable (fs w) (pbm_of path) = true ->
  convert_to_pbm path w =
    (Ok (pbm_of path),
     World (<[pbm_of path := BitmapFile (pbm_encode (bitmap_of im))]> (fs w)) (stdout w)).
Proof.
  intros Hwf Hc Hp Hwr. rewrite convert_to_pbm_spec, Hp, pil_open_pbm by done. cbv zeta.
  rewrite (proj1 (writable_ok _ _) Hwr). by rewrite bitmap_of_image1.
Qed.

(** C32: The alpha band plays no part: two RGBA images with the same
    colours give the same bitmap, so a fully transparent black pixel
    becomes black like an opaque one. *)
Theorem bitmap_of_ignores_alpha rows rows' :
  map (map fst) rows = map (map fst) rows' ->
  bitmap_of (ImageRGBA rows) = bitmap_of (ImageRGBA rows').
Proof. intros Hc. unfold bitmap_of. by rewrite !convert_L_rgba, Hc. Qed.

(** ** Lemmas for the pipeline *)

(** An image whose gray values are all in [128, 255] binarizes to all
    white. *)
Lemma bitmap_of_blank im :
  Forall (Forall (fun x => 128 <= x <= 255)%Z) (convert_L im) ->
  Forall (Forall (fun x => x = 255%Z)) (bitmap_of im).
Proof.
  intros Himg. unfold bitmap_of, point_L_to_1. apply Forall_map.
  eapply Forall_impl; [exact Himg |]. intros row Hrow.
  apply Forall_map. eapply Forall_impl; [exact Hrow |]. intros x Hx.
  cbv beta in Hx. rewrite point_table_lookup by lia. cbn [default].
  rewrite clip8_threshold. unfold threshold. destruct (Z.ltb_spec x 128); [lia | done].
Qed.

End Binarize.

Module BinarizeWitnesses.
Import Pil Pbm Binarize.

Lemma binarize_two_levels_witness :
  [0; 255]%Z ∈ bitmap_of gray_scan /\ (255%Z ∈ [0; 255]%Z) /\
  (255 = 0 \/ 255 = 255)%Z.
Proof.
  assert (H1 : [0; 255]%Z ∈ bitmap_of gray_scan)
    by (apply (bool_decide_unpack _); vm_compute; exact I).
  assert (H2 : 255%Z ∈ [0; 255]%Z) by (apply (bool_decide_unpack _); vm_compute; exact I).
  split; [exact H1 |]. split; [exact H2 |].
  exact (binarize_two_levels _ _ _ H1 H2).
Defined.

Lemma bitmap_of_threshold_witness :
  image_wf (ImageRGB [[(255, 0, 0); (30, 200, 90)]]%Z) = true /\
  bitmap_of (ImageRGB [[(255, 0, 0); (30, 200, 90)]]%Z) =
    map (map (fun x => if (x <? 128)%Z then 0%Z else 255%Z))
      (convert_L (ImageRGB [[(255, 0, 0); (30, 200, 90)]]%Z)).
Proof.
  assert (H : image_wf (ImageRGB [[(255, 0, 0); (30, 200, 90)]]%Z) = true) by reflexivity.
  split; [exact H | exact (bitmap_of_threshold _ H)].
Defined.

(** A fully transparent black pixel and an opaque black one. *)
Lemma bitmap_of_ignores_alpha_witness :
  map (map fst) [[(0, 0, 0, 0)]]%Z = map (map fst) [[(0, 0, 0, 255)]]%Z /\
  bitmap_of (ImageRGBA [[(0, 0, 0, 0)]]%Z) = bitmap_of (ImageRGBA [[(0, 0, 0, 255)]]%Z).
Proof.
  assert (H : map (map fst) [[(0, 0, 0, 0)]]%Z = map (map fst) [[(0, 0, 0, 255)]]%Z)
    by reflexivity.
  split; [exact H | exact (bitmap_of_ignores_alpha _ _ H)].
Defined.

Lemma binarize_idempotent_witness :
  image_wf gray_scan = true /\ open_checks gray_scan = Ok gray_scan /\
  fs pbm_world !! lit "scan.pbm" = Some (BitmapFile (pbm_encode (bitmap_of gray_scan))) /\
  writable (fs pbm_world) (pbm_of (lit "scan.pbm")) = true /\
  convert_to_pbm (lit "scan.pbm") pbm_world =
    (Ok (pbm_of (lit "scan.pbm")),
     World (<[pbm_of (lit "scan.pbm") := BitmapFile (pbm_encode (bitmap_of gray_scan))]> (fs pbm_world))
       (stdout pbm_world)).
Proof.
  assert (H1 : image_wf gray_scan = true) by reflexivity.
  assert (Hc : open_checks gray_scan = Ok gray_scan) by (vm_compute; reflexivity).
  assert (H2 : fs pbm_world !! lit "scan.pbm" = Some (BitmapFile (pbm_encode (bitmap_of gray_scan))))
    by (vm_compute; reflexivity).
  assert (H3 : writable (fs pbm_world) (pbm_of (lit "scan.pbm")) = true) by (vm_compute; reflexivity).
  split; [exact H1 |]. split; [exact Hc |]. split; [exact H2 |]. split; [exact H3 |].
  exact (binarize_idempotent _ _ _ H1 Hc H2 H3).
Defined.

End BinarizeWitnesses.
