(* ===== verification/SvgToDxf.v ===== *)
(** * SvgToDxf: [svg_to_dxf] (lines 36-74)

    Parses the traced SVG, samples and decimates every path, adds one
    closed [LWPOLYLINE] per path that keeps at least two points, and saves
    the drawing only when at least one polyline was added.  The
    collaborators are modelled as follows: [svg2paths2] runs
    svgpathtools' [parse_path] ([SvgPath]) on the path data of every
    [<path>] of the file, or raises (the [try] turns any exception into
    [return False]); [ezdxf.new], [add_lwpolyline] and [saveas] build and
    write a [dxf_document], [saveas] raising the [OSError] of [open] when
    the drawing's directory is missing.  [msp = doc.modelspace()] is a view of [doc]:
    adding to [msp] adds to [doc], so the model updates [doc] directly. *)

From S2P Require Import Prelude PyStr Geometry SvgPath World Sampling Decimate.
From Stdlib Require Import QArith.
Local Open Scope nat_scope.

Module SvgToDxf.
Import SvgPath.

(** A segment [parse_path] returns, as the sampling loop evaluates it.
    [Line], [QuadraticBezier] and [CubicBezier] are [svg_segment]s; an
    [Arc] is outside the model, its [point(t)] needing trigonometry
    (potrace writes no arc). *)
Definition to_svg_segment (s : pseg) : option svg_segment :=
  match s with
  | Seg sg => Some sg
  | ArcSeg _ _ _ _ _ _ => None
  end.

(** [svg2paths2(svg_path)]: [parse_path] of the [d] attribute of every
    [<path>] element, in document order; [None] when it raises (a file
    that is not an SVG document, a malformed [d]) or, outside the model,
    when a path holds an arc. *)
Definition svg2paths2 (f : option file) : option (list svg_path) :=
  match f with
  | Some (SvgFile (Some ds)) =>
      match map_res parse_path ds with
      | Ok pss => mapM (mapM to_svg_segment) pss
      | Raise _ => None
      end
  | _ => None
  end.

(** [ezdxf.new(dxfversion="R2010")]: an empty drawing. *)
Definition ezdxf_new (version : pystr) : dxf_document := DxfDocument version [].

(** [msp.add_lwpolyline(points, close=closed)]. *)
Definition add_lwpolyline (doc : dxf_document) (points : list vec2) (closed : bool)
    : dxf_document :=
  DxfDocument (dxfversion doc) (modelspace doc ++ [LWPolyline points closed]).

(** [Vec2( *pt)] for a coordinate pair. *)
Definition to_vec2 (pt : Q * Q) : vec2 := Vec2 pt.1 pt.2.

(** Lines 53-57: the coordinates of one path, accumulated in [coords]. *)
Definition path_coords (path : svg_path) (samples_per_curve : Z) : result (list (Q * Q)) :=
  fold_res
    (fun coords segment =>
       ts ← sample_params samples_per_curve;
       Ok (coords ++ map (flip_point segment) ts))
    path [].

(** Lines 53-66: one iteration of [for path in paths], on the drawing and
    [path_count]. *)
Definition process_path (samples_per_curve : Z) (st : dxf_document * nat)
    (path : svg_path) : result (dxf_document * nat) :=
  let '(doc, path_count) := st in
  coords ← path_coords path samples_per_curve;
  simplified ← decimate to_vec2 far coords;
  if 2 <=? length simplified
  then Ok (add_lwpolyline doc simplified true, S path_count)
  else Ok (doc, path_count).

Definition svg_to_dxf (svg_path dxf_path : pystr) (samples_per_curve : Z) : IO bool :=
  print (MsgParsingSvg svg_path);;
  f ← read_file svg_path;
  match svg2paths2 f with
  | None => print MsgErrorReadingSvg;; mret false
  | Some paths =>
      match paths with
      | [] => print MsgNoPathsInSvg;; mret false
      | _ :: _ =>
          let doc := ezdxf_new (lit "R2010") in
          '(doc', path_count) ← io_lift (fold_res (process_path samples_per_curve) paths (doc, 0));
          if 0 <? path_count
          then write_file dxf_path (DxfFile doc');;
               print (MsgDxfSaved dxf_path path_count);;
               mret true
          else print MsgNoValidPaths;; mret false
      end
  end.

(** The default [samples_per_curve=40]. *)
Definition samples_per_curve_default : Z := 40.

(** ** The abstract specification of the conversion *)

(** The simplified polyline of one path. *)
Definition simplify_path (samples : Z) (path : svg_path) : result (list vec2) :=
  coords ← svg_path_to_dxf_coords path samples;
  decimate to_vec2 far coords.

(** The polylines the drawing receives: the simplified paths that keep at
    least two points, in path order. *)
Definition dxf_polylines (samples : Z) (paths : list svg_path) : result (list (list vec2)) :=
  res_map (filter (fun l => 2 <= length l)) (map_res (simplify_path samples) paths).

(** Two coordinate pairs with equal values. *)
Definition coord_equiv (a b : Q * Q) : Prop := (a.1 == b.1)%Q /\ (a.2 == b.2)%Q.

(** ** Concrete inputs *)

Definition closed_polyline (pts : list vec2) : lwpolyline := LWPolyline pts true.

(** The drawing the script saves for the polylines [pls]. *)
Definition saved_document (pls : list (list vec2)) : dxf_document :=
  DxfDocument (lit "R2010") (map closed_polyline pls).

Definition pt (x y : Q) : complex := Cplx x y.

(** A straight line of length 10. *)
Definition long_line : svg_path := [Line (pt 0 0) (pt 10 0)].

(** The closed square of side 10 that potrace traces around a filled
    black square. *)
Definition square : svg_path :=
  [Line (pt 0 0) (pt 10 0); Line (pt 10 0) (pt 10 10);
   Line (pt 10 10) (pt 0 10); Line (pt 0 10) (pt 0 0)].

Definition tenth_coords : list (Q * Q) := [(0, 0); (2 # 20, 0); (4 # 20, 0)]%Q.
Definition tenth_coords' : list (Q * Q) := [(0, 0); (1 # 10, 0); (1 # 5, 0)]%Q.

(** The path data of [square]; [Z] draws the fourth side. *)
Definition square_d : pystr := lit "M 0,0 L 10,0 L 10,10 L 0,10 Z".

Definition square_world : world := World {[lit "sq.svg" := SvgFile (Some [square_d])]} [].

(** ** Reading the SVG file *)

Lemma mapM_to_svg_segment (segs : list svg_segment) : mapM to_svg_segment (map Seg segs) = Some segs.
Proof. induction segs as [|sg segs IH]; [done |]. cbn. by rewrite IH. Qed.

Lemma mapM_svg_paths (paths : list svg_path) :
  mapM (mapM to_svg_segment) (map (map Seg) paths) = Some paths.
Proof. induction paths as [|p paths IH]; [done |]. cbn. by rewrite mapM_to_svg_segment, IH. Qed.

(** [svg2paths2] on path data that parses to segments without arcs. *)
Lemma svg2paths2_parsed ds paths :
  map_res parse_path ds = Ok (map (map Seg) paths) -> svg2paths2 (Some (SvgFile (Some ds))) = Some paths.
Proof. intros Hp. cbn [svg2paths2]. rewrite Hp. apply mapM_svg_paths. Qed.

Lemma svg2paths2_square : svg2paths2 (Some (SvgFile (Some [square_d]))) = Some [square].
Proof. apply svg2paths2_parsed. vm_compute. reflexivity. Qed.

(** ** The loop refines the specification *)

Lemma fold_path_coords N path acc :
  fold_res
    (fun coords segment =>
       ts ← sample_params N; Ok (coords ++ map (flip_point segment) ts))
    path acc
  = res_map (fun cs => acc ++ cs) (svg_path_to_dxf_coords path N).
Proof.
  revert acc. induction path as [|seg path IH]; intros acc; simpl.
  - by rewrite app_nil_r.
  - unfold mbind, result_mbind. destruct (sample_params N) as [ts|e]; [| done].
    simpl. rewrite IH. destruct (svg_path_to_dxf_coords path N); simpl; [| done].
    by rewrite app_assoc.
Qed.

(** The inlined loop in closed form. *)
Lemma path_coords_eq path N :
  path_coords path N = svg_path_to_dxf_coords path N.
Proof.
  unfold path_coords. rewrite fold_path_coords.
  by destruct (svg_path_to_dxf_coords path N).
Qed.

Lemma process_path_simplify N doc n path :
  process_path N (doc, n) path =
    res_map (fun s => if 2 <=? length s then (add_lwpolyline doc s true, S n) else (doc, n))
      (simplify_path N path).
Proof.
  unfold process_path, simplify_path. rewrite path_coords_eq.
  unfold mbind, result_mbind.
  destruct (svg_path_to_dxf_coords path N); simpl; [| done].
  destruct (decimate _ _ _); simpl; [by case_match | done].
Qed.

Lemma fold_process_path N paths doc n :
  fold_res (process_path N) paths (doc, n) =
    res_map (fun pls => (DxfDocument (dxfversion doc)
                           (modelspace doc ++ map closed_polyline pls),
                         n + length pls))
      (dxf_polylines N paths).
Proof.
  unfold dxf_polylines. revert doc n.
  induction paths as [|p paths IH]; intros doc n; cbn [fold_res map_res].
  - destruct doc. cbn. by rewrite app_nil_r, Nat.add_0_r.
  - rewrite process_path_simplify.
    destruct (simplify_path N p) as [s|e]; cbn [res_map res_bind]; [| done].
    destruct (map_res (simplify_path N) paths) as [pls|e] eqn:Hm;
      destruct (2 <=? length s) eqn:E; rewrite IH; cbn; try done.
    + rewrite decide_True by (apply Nat.leb_le; done). cbn.
      by rewrite <- app_assoc, Nat.add_succ_r.
    + rewrite decide_False by (rewrite <- Nat.leb_le; congruence). done.
Qed.

(** [svg_to_dxf] in closed form. *)
Lemma svg_to_dxf_eq svg dxf N w :
  svg_to_dxf svg dxf N w =
    match svg2paths2 (fs w !! svg) with
    | None => (Ok false, World (fs w) (stdout w ++ [MsgParsingSvg svg; MsgErrorReadingSvg]))
    | Some [] => (Ok false, World (fs w) (stdout w ++ [MsgParsingSvg svg; MsgNoPathsInSvg]))
    | Some paths =>
        match dxf_polylines N paths with
        | Raise e => (Raise e, World (fs w) (stdout w ++ [MsgParsingSvg svg]))
        | Ok [] => (Ok false, World (fs w) (stdout w ++ [MsgParsingSvg svg; MsgNoValidPaths]))
        | Ok pls =>
            match open_write (fs w) dxf with
            | Ok _ =>
                (Ok true, World (<[dxf := DxfFile (saved_document pls)]> (fs w))
                            (stdout w ++ [MsgParsingSvg svg; MsgDxfSaved dxf (length pls)]))
            | Raise e => (Raise e, World (fs w) (stdout w ++ [MsgParsingSvg svg]))
            end
        end
    end.
Proof.
  unfold svg_to_dxf, print, read_file, write_file. unfold_monads. cbn -[fold_res].
  destruct (svg2paths2 (fs w !! svg)) as [[|p paths]|]; cbn -[fold_res];
    [by rewrite <- app_assoc | | by rewrite <- app_assoc].
  rewrite fold_process_path.
  destruct (dxf_polylines N (p :: paths)) as [[|pl pls]|e]; cbn;
    [by rewrite <- ?app_assoc | | by rewrite <- ?app_assoc].
  destruct (open_write _ _); cbn; by rewrite <- ?app_assoc.
Qed.

Lemma io_bind_svg_to_dxf {A} svg dxf N (k : bool -> IO A) w :
  io_bind (svg_to_dxf svg dxf N) k w =
    match svg_to_dxf svg dxf N w with
    | (Ok b, w') => k b w'
    | (Raise e, w') => (Raise e, w')
    end.
Proof. reflexivity. Qed.

(** When [svg_to_dxf] returns [True], the file system gains exactly the
    drawing of a non-empty [dxf_polylines]. *)
Lemma svg_to_dxf_true svg dxf N w w' :
  svg_to_dxf svg dxf N w = (Ok true, w') ->
  exists paths pls, svg2paths2 (fs w !! svg) = Some paths /\
    dxf_polylines N paths = Ok pls /\ pls <> [] /\
    fs w' = <[dxf := DxfFile (saved_document pls)]> (fs w).
Proof.
  rewrite svg_to_dxf_eq.
  destruct (svg2paths2 (fs w !! svg)) as [[|p paths]|]; [done | | done].
  destruct (dxf_polylines N (p :: paths)) as [[|pl pls]|e] eqn:E; [done | | done].
  destruct (open_write _ _); [| done].
  intros [= <-]. exists (p :: paths), (pl :: pls). done.
Qed.

(** When [svg_to_dxf] does not return [True], it writes no file. *)
Lemma svg_to_dxf_not_true svg dxf N w r w' :
  svg_to_dxf svg dxf N w = (r, w') -> r <> Ok true -> fs w' = fs w.
Proof.
  rewrite svg_to_dxf_eq.
  destruct (svg2paths2 (fs w !! svg)) as [[|p paths]|]; try (by intros [= <- <-]).
  destruct (dxf_polylines N (p :: paths)) as [[|pl pls]|e] eqn:E;
    try by intros [= <- <-].
  destruct (open_write _ _); by intros [= <- <-].
Qed.

Lemma preserves_wf_svg_to_dxf svg dxf N : preserves_wf (svg_to_dxf svg dxf N).
Proof. unfold svg_to_dxf. preserves_tac. Qed.

#[export] Hint Resolve preserves_wf_svg_to_dxf : cadtrace_wf.

Lemma frame_svg_to_dxf q svg dxf N : q <> dxf -> frame q (svg_to_dxf svg dxf N).
Proof.
  intros Hq w. rewrite svg_to_dxf_eq.
  repeat case_match; cbn; rewrite ?lookup_insert_ne; done.
Qed.

(** ** Properties of the polylines *)

Lemma simplify_path_nil N : simplify_path N [] = Raise IndexError.
Proof. reflexivity. Qed.

Lemma simplify_path_Ok N path : (1 <= N)%Z -> path <> [] ->
  exists s, simplify_path N path = Ok s.
Proof.
  intros HN Hp. unfold simplify_path.
  destruct (svg_path_to_dxf_coords_lookup path N HN) as (cs & Hcs & Hlen & _).
  rewrite Hcs. cbn.
  assert (cs <> []) as Hcs' by (intros ->; destruct path; simpl in Hlen; [done | lia]).
  rewrite decimate_eq. destruct cs as [|c cs]; [done | eauto].
Qed.

Lemma simplify_path_separated N path s :
  simplify_path N path = Ok s -> separated far s.
Proof.
  unfold simplify_path. destruct (svg_path_to_dxf_coords path N) as [cs|]; [| done].
  cbn. intros Hd. destruct (decimate_Ok _ _ _ _ Hd) as (c & cs' & _ & ->).
  auto with cadtrace.
Qed.

Lemma map_res_elem {A B} (f : A -> result B) l ys y :
  map_res f l = Ok ys -> y ∈ ys -> exists x, x ∈ l /\ f x = Ok y.
Proof.
  revert ys. induction l as [|x l IH]; intros ys Hm Hy; simpl in Hm.
  - injection Hm as <-. set_solver.
  - destruct (f x) as [y'|] eqn:Hf; [| done].
    destruct (map_res f l) as [ys'|] eqn:Hl; [| done]. injection Hm as <-.
    apply elem_of_cons in Hy as [-> | Hy]; [exists x; set_solver |].
    destruct (IH ys' eq_refl Hy) as (x' & ? & ?). exists x'. set_solver.
Qed.

(** The polylines of the drawing are well formed. *)
Lemma dxf_polylines_wf N paths pls pl :
  dxf_polylines N paths = Ok pls -> pl ∈ pls ->
  2 <= length pl /\ separated far pl.
Proof.
  unfold dxf_polylines. destruct (map_res (simplify_path N) paths) as [ss|] eqn:Hm; [| done].
  intros [= <-] Hpl. apply list_elem_of_filter in Hpl as [H2 Hin].
  split; [done |].
  destruct (map_res_elem _ _ _ _ Hm Hin) as (p & _ & Hp).
  by eapply simplify_path_separated.
Qed.

(** Which path lists raise. *)
Lemma dxf_polylines_raise N paths :
  (1 <= N)%Z ->
  (dxf_polylines N paths = Raise IndexError <-> [] ∈ paths) /\
  ([] ∉ paths -> exists pls, dxf_polylines N paths = Ok pls).
Proof.
  intros HN. unfold dxf_polylines.
  assert (Hm : (map_res (simplify_path N) paths = Raise IndexError <-> [] ∈ paths) /\
               ([] ∉ paths -> exists ss, map_res (simplify_path N) paths = Ok ss)).
  { induction paths as [|p paths [IH1 IH2]]; cbn [map_res].
    - split; [split; [done | set_solver] | eauto].
    - destruct (decide (p = [])) as [->|Hp].
      + rewrite simplify_path_nil. split; [set_solver | set_solver].
      + destruct (simplify_path_Ok N p HN Hp) as [s ->]. cbn.
        split.
        * rewrite elem_of_cons. split.
          -- destruct (map_res _ paths); cbn; [done |]. intros [= ->]. right. by apply IH1.
          -- intros [<- | Hin]; [done |]. apply IH1 in Hin. by rewrite Hin.
        * intros Hno. destruct IH2 as [ss ->]; [set_solver |]. eauto. }
  destruct Hm as [Hm1 Hm2]. split.
  - rewrite <- Hm1. destruct (map_res _ paths); cbn; [done | by split; intros [= ->]].
  - intros Hno. destruct (Hm2 Hno) as [ss ->]. eauto.
Qed.

(** [svg_to_dxf] raises only the [OSError]s of [doc.saveas] when every
    path it reads has a segment. *)
Lemma svg_to_dxf_raise svg dxf N w e w' :
  (1 <= N)%Z -> (forall paths, svg2paths2 (fs w !! svg) = Some paths -> [] ∉ paths) ->
  svg_to_dxf svg dxf N w = (Raise e, w') -> os_error e = true.
Proof.
  intros HN Hne. rewrite svg_to_dxf_eq.
  destruct (svg2paths2 (fs w !! svg)) as [[|p paths]|] eqn:Hs; try by intros [=].
  destruct (proj2 (dxf_polylines_raise N (p :: paths) HN) (Hne _ eq_refl)) as [pls Hpls].
  rewrite Hpls. destruct pls as [|pl pls]; [by intros [=] |].
  destruct (open_write _ _) eqn:Hw; [by intros [=] |]. intros [= <- _]. by eapply open_write_os.
Qed.

(** C21: The coordinate loop inlined in [svg_to_dxf] (lines 53-57) computes
    exactly [svg_path_to_dxf_coords(path, samples_per_curve)] (lines
    28-34), errors included: the two copies of the sampling code agree. *)
Theorem path_coords_equiv path N :
  path_coords path N = svg_path_to_dxf_coords path N.
Proof. apply path_coords_eq. Qed.

(** C1: [svg_to_dxf] refines its specification.  On every input it prints
    the parsing message and then: returns [False] without writing when
    the SVG cannot be parsed or has no path; propagates the exception of
    a path whose sampling or decimation raises; returns [False] without
    writing when no path keeps two points; and otherwise writes exactly
    one file, at [dxf_path], holding one closed polyline per polyline of
    [dxf_polylines], in path order, and returns [True]. *)
Theorem svg_to_dxf_refines svg dxf N w :
  svg_to_dxf svg dxf N w =
    match svg2paths2 (fs w !! svg) with
    | None => (Ok false, World (fs w) (stdout w ++ [MsgParsingSvg svg; MsgErrorReadingSvg]))
    | Some [] => (Ok false, World (fs w) (stdout w ++ [MsgParsingSvg svg; MsgNoPathsInSvg]))
    | Some paths =>
        match dxf_polylines N paths with
        | Raise e => (Raise e, World (fs w) (stdout w ++ [MsgParsingSvg svg]))
        | Ok [] => (Ok false, World (fs w) (stdout w ++ [MsgParsingSvg svg; MsgNoValidPaths]))
        | Ok pls =>
            match open_write (fs w) dxf with
            | Ok _ =>
                (Ok true, World (<[dxf := DxfFile (saved_document pls)]> (fs w))
                            (stdout w ++ [MsgParsingSvg svg; MsgDxfSaved dxf (length pls)]))
            | Raise e => (Raise e, World (fs w) (stdout w ++ [MsgParsingSvg svg]))
            end
        end
    end.
Proof. apply svg_to_dxf_eq. Qed.

(** C4: Every polyline the drawing receives has at least two points, and
    each of its points is more than 0.1 away from the point before it
    (the closing edge from the last point back to the first is not
    constrained). *)
Theorem dxf_polylines_invariant N paths pls pl :
  dxf_polylines N paths = Ok pls -> pl ∈ pls ->
  2 <= length pl /\ separated far pl.
Proof. apply dxf_polylines_wf. Qed.

(** C11: With a positive sample count the conversion of the paths fails
    exactly when some path has no segment: then [coords[0]] raises
    [IndexError]; otherwise every path is converted. *)
Theorem dxf_polylines_error N paths :
  (1 <= N)%Z ->
  (dxf_polylines N paths = Raise IndexError <-> [] ∈ paths) /\
  ([] ∉ paths -> exists pls, dxf_polylines N paths = Ok pls).
Proof. apply dxf_polylines_raise. Qed.

(** The decimation of [svg_to_dxf] depends on the values of the
    coordinates only: coordinate lists that are equal as numbers give
    polylines that are equal as numbers, point by point, and the same
    errors.  The choice of [Q] fractions for Python floats does not show. *)
Theorem decimate_values_only coords coords' out :
  Forall2 coord_equiv coords coords' ->
  decimate to_vec2 far coords = Ok out ->
  exists out', decimate to_vec2 far coords' = Ok out' /\ Forall2 vec2_equiv out out'.
Proof.
  intros Hcs. apply (decimate_respects to_vec2 far vec2_equiv far_proper).
  induction Hcs as [|a b cs cs' [H1 H2] _ IH]; constructor; [split |]; done.
Qed.

(** ** Concrete runs *)

(** C20: A non-positive sample count crashes the export of an SVG whose
    first path has a segment: [samples_per_curve = 0] makes [i / samples]
    raise [ZeroDivisionError], and a negative count gives an empty
    [range], so [coords] stays empty and [coords[0]] raises [IndexError];
    either escapes [svg_to_dxf] after the "Parsing" message, and no file
    is written. *)
Theorem svg_to_dxf_nonpositive_samples svg dxf N w p paths :
  svg2paths2 (fs w !! svg) = Some (p :: paths) -> p <> [] -> (N <= 0)%Z ->
  svg_to_dxf svg dxf N w =
    (Raise (if (N =? 0)%Z then ZeroDivisionError else IndexError),
     World (fs w) (stdout w ++ [MsgParsingSvg svg])).
Proof.
  intros Hs Hp HN. rewrite svg_to_dxf_eq, Hs.
  unfold dxf_polylines. cbn [map_res]. unfold simplify_path.
  rewrite svg_path_to_dxf_coords_nonpos by done. by destruct (N =? 0)%Z.
Qed.

(** ** Witnesses *)

Lemma dxf_polylines_invariant_witness :
  exists pls pl, dxf_polylines samples_per_curve_default [square; long_line] = Ok pls /\
    pl ∈ pls /\ 2 <= length pl /\ separated far pl.
Proof.
  destruct (dxf_polylines samples_per_curve_default [square; long_line]) as [pls|e] eqn:E;
    [| vm_compute in E; discriminate].
  destruct pls as [|pl pls']; [vm_compute in E; discriminate |].
  assert (Hin : pl ∈ pl :: pls') by left.
  exists (pl :: pls'), pl. split; [reflexivity |]. split; [exact Hin |].
  exact (dxf_polylines_invariant _ _ _ _ E Hin).
Defined.

Lemma dxf_polylines_error_witness :
  (1 <= samples_per_curve_default)%Z /\
  (dxf_polylines samples_per_curve_default [square; []] = Raise IndexError <-> [] ∈ [square; []]) /\
  ([] ∉ [square; []] -> exists pls, dxf_polylines samples_per_curve_default [square; []] = Ok pls).
Proof.
  assert (HN : (1 <= samples_per_curve_default)%Z) by (vm_compute; discriminate).
  split; [exact HN | exact (dxf_polylines_error _ [square; []] HN)].
Defined.

Lemma svg_to_dxf_nonpositive_samples_witness :
  svg2paths2 (fs square_world !! lit "sq.svg") = Some [square] /\ square <> [] /\ (0 <= 0)%Z /\
  svg_to_dxf (lit "sq.svg") (lit "sq.dxf") 0 square_world =
    (Raise (if (0 =? 0)%Z then ZeroDivisionError else IndexError),
     World (fs square_world) (stdout square_world ++ [MsgParsingSvg (lit "sq.svg")])).
Proof.
  assert (H1 : svg2paths2 (fs square_world !! lit "sq.svg") = Some [square]) by (vm_compute; reflexivity).
  assert (H2 : square <> []) by discriminate.
  assert (H3 : (0 <= 0)%Z) by lia.
  split; [exact H1 |]. split; [exact H2 |]. split; [exact H3 |].
  exact (svg_to_dxf_nonpositive_samples _ _ _ _ _ _ H1 H2 H3).
Defined.

Lemma decimate_values_only_witness :
  Forall2 coord_equiv tenth_coords tenth_coords' /\
  decimate to_vec2 far tenth_coords = Ok [Vec2 0 0; Vec2 (4 # 20) 0] /\
  exists out', decimate to_vec2 far tenth_coords' = Ok out' /\
    Forall2 vec2_equiv [Vec2 0 0; Vec2 (4 # 20) 0] out'.
Proof.
  assert (H1 : Forall2 coord_equiv tenth_coords tenth_coords')
    by (repeat constructor; vm_compute; reflexivity).
  assert (H2 : decimate to_vec2 far tenth_coords = Ok [Vec2 0 0; Vec2 (4 # 20) 0])
    by (vm_compute; reflexivity).
  split; [exact H1 |]. split; [exact H2 |].
  exact (decimate_values_only _ _ _ H1 H2).
Defined.

End SvgToDxf.
