(* ===== verification/Pipeline.v ===== *)
(** * Pipeline: [trace_with_potrace] (lines 19-26) and [main] (lines 76-97)

    The tracer is the external collaborator: the [Potrace] class states
    what the script relies on, a function from the bitmap to either the
    traced shapes (potrace's curves: corners and Bezier segments on
    integer points, each curve with at least one segment, the class's
    law) or a non-zero exit status with its standard error.  What potrace
    writes is the path data [PotraceSvg.shape_d] of each shape, which
    [svg_to_dxf] parses back with [SvgPath.parse_path]
    ([svg2paths2_potrace]): the tracing is the one part not modelled.
    [run_potrace] is the [subprocess.run([potrace_path, pbm_path, '-s',
    '-o', svg_path])] call under that contract: [subprocess.run] raises
    when there is no program at [potrace_path]; potrace opens its output
    file first (creating it empty), then reads the bitmap as a P4 file
    ([Pbm.pbm_decode]) and, on success, writes the SVG there: one
    [<path>] per traced shape, with the path data of
    [PotraceSvg.shape_d], which [svg_to_dxf] reads back with
    svgpathtools' parser. *)

From S2P Require Import Prelude Pil Pbm PyStr Geometry SvgPath PotraceSvg World Sampling Decimate Binarize SvgToDxf.
From Stdlib Require Import QArith.
Local Open Scope nat_scope.

Inductive potrace_result :=
| PotraceOk (shapes : list PotraceSvg.shape)
| PotraceError (returncode : Z) (stderr : pystr).

(** The tracer: from the bitmap to the shapes it traces (each written as
    one [<path>] by [PotraceSvg.shape_d]) or an exit status with its
    standard error.  Its law: every curve it traces has a segment. *)
Class Potrace := {
  potrace_trace : gray_image -> potrace_result;
  potrace_trace_wf bits shapes :
    potrace_trace bits = PotraceOk shapes -> Forall PotraceSvg.shape_wf shapes
}.

Module Pipeline.
Import Pil Pbm Binarize SvgPath PotraceSvg SvgToDxf.

(** [potrace_path = '/usr/bin/potrace'] (line 10). *)
Definition potrace_path : pystr := lit "/usr/bin/potrace".

(** [pbm_path.replace(".pbm", ".svg")] (line 20). *)
Definition svg_of (pbm_path : pystr) : pystr := PyStr.replace pbm_path (lit ".pbm") (lit ".svg").

(** [svg_path.replace(".svg", ".dxf")] (line 91). *)
Definition dxf_of (svg_path : pystr) : pystr := PyStr.replace svg_path (lit ".svg") (lit ".dxf").

Section Pipeline.
Context `{Potrace}.

(** [subprocess.run([potrace_path, pbm_path, '-s', '-o', svg_path],
    capture_output=True)]: the exit status and the standard error.
    [subprocess.run] raises [FileNotFoundError] when [potrace_path] does
    not exist and [PermissionError] when it is not a program.  potrace
    opens [svg_path] for writing, then reads [pbm_path]; it exits with
    status 2 when either fails; the traced SVG is written into the file
    it opened. *)
Definition run_potrace (pbm_path svg_path : pystr) : IO (Z * pystr) :=
  prog ← read_file potrace_path;
  match prog with
  | Some Program =>
      io_bind (fopen_write svg_path (SvgFile None)) (fun opened =>
      if negb opened then io_ret (2%Z, lit "potrace: cannot open output file")
      else
        f ← read_file pbm_path;
        match f with
        | Some (BitmapFile data) =>
            match pbm_decode data with
            | Some bits =>
                match potrace_trace bits with
                | PotraceOk shapes =>
                    fopen_write svg_path (SvgFile (Some (map shape_d shapes)));; io_ret (0%Z, [])
                | PotraceError code err => io_ret (code, err)
                end
            | None => io_ret (2%Z, lit "potrace: file format not recognized")
            end
        | _ => io_ret (2%Z, lit "potrace: cannot read input file")
        end)
  | None => io_raise FileNotFoundError
  | Some _ => io_raise PermissionError
  end.

Definition trace_with_potrace (pbm_path : pystr) : IO (option pystr) :=
  let svg_path := svg_of pbm_path in
  '(returncode, stderr) ← run_potrace pbm_path svg_path;
  if negb (returncode =? 0)%Z
  then (print (MsgPotraceFailed stderr);; io_ret None)
  else io_ret (Some svg_path).

(** Python's truth value of an [Optional[str]]: [None] and the empty string are
    false. *)
Definition py_truthy (o : option pystr) : bool :=
  match o with
  | Some (_ :: _) => true
  | _ => false
  end.

(** [if] needs the type of its condition, so the binds whose result is
    tested are written [io_bind c (fun x => ...)]. *)
Definition main (image_path : pystr) : IO (option pystr) :=
  io_bind (path_exists image_path) (fun exists_ =>
  if negb exists_ then (print MsgImageNotFound;; io_ret None)
  else
    print (MsgPreprocessing image_path);;
    pbm_path ← convert_to_pbm image_path;
    print MsgTracing;;
    svg_path ← trace_with_potrace pbm_path;
    match svg_path with
    | Some svg_path' =>
        if negb (py_truthy svg_path) then (print MsgPotraceAborting;; io_ret None)
        else
          print MsgExporting;;
          let dxf_path := dxf_of svg_path' in
          io_bind (svg_to_dxf svg_path' dxf_path samples_per_curve_default) (fun success =>
          if success then (print MsgDone;; io_ret (Some dxf_path))
          else (print MsgExportFailed;; io_ret None))
    | None => print MsgPotraceAborting;; io_ret None
    end).

End Pipeline.

(** ** Concrete runs *)

(** A square of side 10 as potrace traces it: four corners, each curve
    segment ending halfway along a side. *)
Definition square_shape : shape :=
  Shape [Corner (10, 0) (10, 5); Corner (10, 10) (5, 10);
         Corner (0, 10) (0, 5); Corner (0, 0) (5, 0)]%Z [].

(** A tracer that finds no path in an all-white bitmap and the square
    outline in any other. *)
Definition square_tracer : Potrace :=
  {| potrace_trace := fun bits =>
       if bool_decide (Forall (Forall (fun x => x = 255%Z)) bits)
       then PotraceOk [] else PotraceOk [square_shape];
     potrace_trace_wf := ltac:(intros bits shapes; cbv beta; case_bool_decide; intros [= <-];
                               repeat constructor; discriminate) |}.

(** A tracer that always fails. *)
Definition failing_tracer : Potrace :=
  {| potrace_trace := fun _ => PotraceError 1 (lit "potrace: bad input");
     potrace_trace_wf := ltac:(discriminate) |}.

(** An RGB scan with dark and light pixels, and a light gray image. *)
Definition scan_image : pil_image :=
  ImageRGB [[(0, 0, 0); (200, 200, 200)]; [(255, 255, 255); (30, 60, 10)]]%Z.
Definition blank_image : pil_image := ImageL [[200; 255]; [130; 128]]%Z.

(** A system with potrace installed. *)
Definition system_files : list (pystr * file) :=
  [(lit "/usr", Directory); (lit "/usr/bin", Directory); (potrace_path, Program)].

Definition scan_world : world :=
  World (list_to_map ((lit "scan.png", RasterFile (Some scan_image)) :: system_files)) [].
Definition blank_world : world :=
  World (list_to_map ((lit "blank.png", RasterFile (Some blank_image)) :: system_files)) [].
Definition dir_world : world :=
  World (list_to_map ((lit "/x.svg", Directory) ::
                      (lit "/x.svg/img.png", RasterFile (Some scan_image)) :: system_files)) [].
Definition corrupt_world : world :=
  World (list_to_map ((lit "bad.png", RasterFile None) :: system_files)) [].
(** A raw PBM of one row of two pixels, black then white, with a comment
    line in its header: [P4\n#\n2 1\n] and the byte [0b10000000]. *)
Definition commented_pbm : list Z := [80; 52; 10; 35; 10; 50; 32; 49; 10; 128]%Z.
Definition pbm_input_world : world :=
  World (list_to_map ((lit "scan.pbm", BitmapFile commented_pbm) :: system_files)) [].
(** The scan on a system without potrace. *)
Definition bare_world : world := World {[lit "scan.png" := RasterFile (Some scan_image)]} [].

(** ** Properties *)

Lemma pbm_ne_potrace p : pbm_of p <> potrace_path.
Proof.
  unfold pbm_of. intros Hp. apply (f_equal (@rev ascii)) in Hp.
  rewrite rev_app_distr in Hp. cbn in Hp. discriminate.
Qed.

Lemma svg_of_ne p : svg_of (pbm_of p) <> pbm_of p.
Proof.
  apply PyStr.replace_changes; [done | done | done |].
  exists (PyStr.splitext p).1, []. by rewrite app_nil_r.
Qed.

Lemma py_truthy_svg_of p : py_truthy (Some (svg_of (pbm_of p))) = true.
Proof.
  assert (Hne : svg_of (pbm_of p) <> [])
    by (apply PyStr.replace_nonempty; [done | done | unfold pbm_of; by destruct (PyStr.splitext p).1]).
  by destruct (svg_of _).
Qed.

(** After the bitmap is written, potrace is still there and the SVG can
    still be written. *)
Lemma pbm_written w p b :
  writable (fs w) (pbm_of p) = true -> fs w !! potrace_path = Some Program ->
  writable (fs w) (svg_of (pbm_of p)) = true ->
  let fs1 := <[pbm_of p := BitmapFile b]> (fs w) in
  fs1 !! potrace_path = Some Program /\ writable fs1 (svg_of (pbm_of p)) = true /\
  fs1 !! pbm_of p = Some (BitmapFile b).
Proof.
  intros Hpbm Hprog Hsvg fs1. subst fs1. split; [| split].
  - rewrite lookup_insert_ne; [done |]. apply pbm_ne_potrace.
  - by apply writable_insert.
  - apply lookup_insert_eq.
Qed.

(** [svg2paths2] reads back the shapes potrace writes. *)
Lemma svg2paths2_potrace shapes :
  Forall shape_wf shapes ->
  svg2paths2 (Some (SvgFile (Some (map shape_d shapes)))) = Some (map shape_segments shapes).
Proof.
  intros Hwf. apply svg2paths2_parsed.
  induction Hwf as [|sh shapes Hsh _ IH]; [done |]. cbn [map map_res].
  rewrite parse_shape_d by exact Hsh. by rewrite IH.
Qed.

Section PipelineTheorems.
Context `{Potrace}.

(** [trace_with_potrace] in closed form. *)
Lemma trace_with_potrace_run pbm w :
  trace_with_potrace pbm w =
    match fs w !! potrace_path with
    | Some Program =>
        match open_write (fs w) (svg_of pbm) with
        | Ok _ =>
            let fs1 := <[svg_of pbm := SvgFile None]> (fs w) in
            match fs1 !! pbm with
            | Some (BitmapFile data) =>
                match pbm_decode data with
                | Some bits =>
                    match potrace_trace bits with
                    | PotraceOk shapes =>
                        (Ok (Some (svg_of pbm)),
                         World (<[svg_of pbm := SvgFile (Some (map shape_d shapes))]> (fs w)) (stdout w))
                    | PotraceError code err =>
                        if (code =? 0)%Z then (Ok (Some (svg_of pbm)), World fs1 (stdout w))
                        else (Ok None, World fs1 (stdout w ++ [MsgPotraceFailed err]))
                    end
                | None => (Ok None, World fs1 (stdout w ++
                             [MsgPotraceFailed (lit "potrace: file format not recognized")]))
                end
            | _ => (Ok None, World fs1 (stdout w ++
                      [MsgPotraceFailed (lit "potrace: cannot read input file")]))
            end
        | Raise _ => (Ok None, World (fs w) (stdout w ++
                        [MsgPotraceFailed (lit "potrace: cannot open output file")]))
        end
    | None => (Raise FileNotFoundError, w)
    | Some _ => (Raise PermissionError, w)
    end.
Proof.
  unfold trace_with_potrace, run_potrace, read_file, fopen_write, print.
  unfold_monads. cbn -[svg_of potrace_path].
  destruct (fs w !! potrace_path) as [[]|]; cbn -[svg_of potrace_path]; try done.
  destruct (open_write (fs w) (svg_of pbm)) as [[]|] eqn:Ho; cbn -[svg_of potrace_path]; [| done].
  destruct (<[svg_of pbm:=SvgFile None]> (fs w) !! pbm) as [[]|]; cbn -[svg_of potrace_path];
    try done.
  destruct (pbm_decode data) as [bits|]; cbn -[svg_of potrace_path]; [| done].
  destruct (potrace_trace bits) as [shapes | code err]; cbn -[svg_of potrace_path].
  - rewrite (open_write_insert _ _ _ _ Ho) by done. cbn -[svg_of]. by rewrite insert_insert_eq.
  - by destruct (code =? 0)%Z.
Qed.

Lemma io_bind_trace_with_potrace {A} pbm (k : option pystr -> IO A) w :
  io_bind (trace_with_potrace pbm) k w =
    match trace_with_potrace pbm w with
    | (Ok o, w') => k o w'
    | (Raise e, w') => (Raise e, w')
    end.
Proof. reflexivity. Qed.

Lemma preserves_wf_trace_with_potrace pbm : preserves_wf (trace_with_potrace pbm).
Proof. unfold trace_with_potrace, run_potrace. preserves_tac. Qed.


Lemma frame_trace_with_potrace q pbm : q <> svg_of pbm -> frame q (trace_with_potrace pbm).
Proof.
  intros Hq w. rewrite trace_with_potrace_run. cbv zeta.
  repeat case_match; cbn; rewrite ?lookup_insert_ne; done.
Qed.

Lemma trace_with_potrace_result pbm w o w' :
  trace_with_potrace pbm w = (Ok o, w') -> o = None \/ o = Some (svg_of pbm).
Proof.
  rewrite trace_with_potrace_run. cbv zeta.
  repeat case_match; intros Heq; simplify_eq; auto.
Qed.

Lemma frame_bind_trace {B} q pbm (k : option pystr -> IO B) :
  q <> svg_of pbm -> frame q (k None) -> frame q (k (Some (svg_of pbm))) ->
  frame q (io_bind (trace_with_potrace pbm) k).
Proof.
  intros Hq HN HS.
  apply (frame_bind q _ k (fun o => o = None \/ o = Some (svg_of pbm))).
  - by apply frame_trace_with_potrace.
  - apply trace_with_potrace_result.
  - by intros o [-> | ->].
Qed.

(** After the bitmap is written, the tracer runs on it. *)
Lemma trace_after_pbm w p im o :
  image_wf im = true -> writable (fs w) (pbm_of p) = true -> fs w !! potrace_path = Some Program ->
  writable (fs w) (svg_of (pbm_of p)) = true ->
  let pbm := pbm_of p in
  let fs1 := <[pbm := BitmapFile (pbm_encode (bitmap_of im))]> (fs w) in
  trace_with_potrace pbm (World fs1 o) =
    match potrace_trace (bitmap_of im) with
    | PotraceOk shapes => (Ok (Some (svg_of pbm)), World (<[svg_of pbm := SvgFile (Some (map shape_d shapes))]> fs1) o)
    | PotraceError code err =>
        if (code =? 0)%Z then (Ok (Some (svg_of pbm)), World (<[svg_of pbm := SvgFile None]> fs1) o)
        else (Ok None, World (<[svg_of pbm := SvgFile None]> fs1) (o ++ [MsgPotraceFailed err]))
    end.
Proof.
  intros Hwf Hpbm Hprog Hsvg pbm fs1. subst pbm fs1.
  destruct (pbm_written w p (pbm_encode (bitmap_of im)) Hpbm Hprog Hsvg) as (Hp1 & Hs1 & Hb1).
  rewrite trace_with_potrace_run. cbn [fs stdout].
  rewrite Hp1, (proj1 (writable_ok _ _) Hs1). cbv zeta.
  rewrite lookup_insert_ne by apply svg_of_ne. rewrite Hb1.
  by rewrite pbm_decode_encode by by apply bitmap_of_image_wf.
Qed.

(** [trace_with_potrace] raises only the [OSError]s of [subprocess.run]. *)
Lemma trace_with_potrace_raise pbm w e w' :
  trace_with_potrace pbm w = (Raise e, w') -> os_error e = true.
Proof. rewrite trace_with_potrace_run. cbv zeta. repeat case_match; intros ?; simplify_eq; done. Qed.

(** The SVG [trace_with_potrace] returns holds what potrace wrote: the
    empty file, which does not parse, or the shapes it traced, each of
    which has a segment. *)
Lemma trace_with_potrace_svg pbm w svg w' :
  trace_with_potrace pbm w = (Ok (Some svg), w') ->
  forall paths, svg2paths2 (fs w' !! svg) = Some paths -> [] ∉ paths.
Proof.
  rewrite trace_with_potrace_run. cbv zeta.
  repeat case_match; intros Heq; simplify_eq; cbn [fs]; rewrite lookup_insert_eq; [| done].
  rewrite svg2paths2_potrace by (by eapply potrace_trace_wf). intros paths [= <-] Hin.
  apply list_elem_of_In, in_map_iff in Hin as (sh & Hsh & Hin).
  refine (shape_segments_ne sh _ Hsh).
  assert (Hw : Forall shape_wf shapes) by (by eapply potrace_trace_wf).
  rewrite Forall_forall in Hw. apply Hw. by apply list_elem_of_In.
Qed.

(** [main] up to the call of [trace_with_potrace], on an image that
    decodes and a bitmap that can be written. *)
Ltac main_prefix Himg Hpbm :=
  unfold main; rewrite io_bind_path_exists, bool_decide_true by exact (pil_open_exists _ _ Himg);
  cbn [negb]; io_simpl_goal; rewrite io_bind_convert_to_pbm; cbn [fs stdout]; rewrite Himg;
  cbv zeta; rewrite (proj1 (writable_ok _ _) Hpbm); io_simpl_goal;
  rewrite io_bind_trace_with_potrace; cbn [fs stdout].

(** C27: A missing input file: [main] prints "Image file not found.",
    returns [None] and touches no file. *)
Theorem main_missing_image p w :
  fs w !! p = None ->
  main p w = (Ok None, World (fs w) (stdout w ++ [MsgImageNotFound])).
Proof.
  intros Hp. unfold main. rewrite io_bind_path_exists, Hp.
  rewrite bool_decide_false by (intros [? ?]; discriminate). reflexivity.
Qed.

Lemma main_success_steps p w d w' :
  main p w = (Ok (Some d), w') ->
  exists w1 pbm w2 w2' svg w3 w3' w4,
    fs w1 = fs w /\ convert_to_pbm p w1 = (Ok pbm, w2) /\
    fs w2' = fs w2 /\ trace_with_potrace pbm w2' = (Ok (Some svg), w3) /\
    d = dxf_of svg /\
    fs w3' = fs w3 /\ svg_to_dxf svg d samples_per_curve_default w3' = (Ok true, w4) /\
    fs w' = fs w4.
Proof.
  intros Hm. unfold main in Hm. rewrite io_bind_path_exists in Hm.
  destruct (bool_decide _); cbn [negb] in Hm; [| discriminate].
  io_simpl Hm. io_destr Hm pbm w2; [| discriminate].
  io_simpl Hm. io_destr Hm svg w3; [| discriminate].
  destruct svg as [svg|]; [| io_simpl Hm; discriminate].
  destruct (py_truthy (Some svg)); cbn [negb] in Hm; [| io_simpl Hm; discriminate].
  io_simpl Hm. io_destr Hm ok w4; [| discriminate].
  destruct ok; io_simpl Hm; [| discriminate].
  injection Hm as <- <-.
  do 8 eexists. split; [| split; [exact E |]]; [done |].
  split; [| split; [exact E0 |]]; [done |].
  split; [done |]. split; [| split; [exact E1 |]]; done.
Qed.

(** An exception [main] raises comes from one of its three stages. *)
Lemma main_raise_steps p w e w' :
  main p w = (Raise e, w') ->
  (exists w1 w1', convert_to_pbm p w1 = (Raise e, w1')) \/
  (exists pbm w2 w2', trace_with_potrace pbm w2 = (Raise e, w2')) \/
  (exists pbm w2 svg w3 w3' w4, trace_with_potrace pbm w2 = (Ok (Some svg), w3) /\
     fs w3' = fs w3 /\ svg_to_dxf svg (dxf_of svg) samples_per_curve_default w3' = (Raise e, w4)).
Proof.
  intros Hm. unfold main in Hm. rewrite io_bind_path_exists in Hm.
  destruct (bool_decide _); cbn [negb] in Hm; [| discriminate].
  io_simpl Hm. io_destr Hm pbm w2; [| injection Hm as <- <-; left; eauto].
  io_simpl Hm. io_destr Hm svg w3; [| injection Hm as <- <-; right; left; eauto].
  destruct svg as [svg|]; [| io_simpl Hm; discriminate].
  destruct (py_truthy (Some svg)); cbn [negb] in Hm; [| io_simpl Hm; discriminate].
  io_simpl Hm. io_destr Hm ok w4; [destruct ok; io_simpl Hm; discriminate |].
  injection Hm as <- <-. right; right. do 6 eexists. split; [exact E0 |]. split; [| exact E1]. done.
Qed.

(** C2: Whatever [main] returns as a path names a drawing on disk: the
    file there holds a non-empty list of closed polylines, each of at
    least two points whose consecutive points are more than 0.1 apart. *)
Theorem main_output_invariant p w d w' :
  main p w = (Ok (Some d), w') ->
  exists pls, fs w' !! d = Some (DxfFile (saved_document pls)) /\ pls <> [] /\
    forall pl, pl ∈ pls -> 2 <= length pl /\ separated far pl.
Proof.
  intros Hm.
  destruct (main_success_steps p w d w' Hm)
    as (w1 & pbm & w2 & w2' & svg & w3 & w3' & w4 & _ & _ & _ & _ & _ & _ & Hs & ->).
  destruct (svg_to_dxf_true _ _ _ _ _ Hs) as (paths & pls & _ & Hpls & Hne & ->).
  exists pls. split; [by rewrite lookup_insert_eq |]. split; [done |].
  intros pl Hpl. by eapply dxf_polylines_wf.
Qed.

(** C26: When potrace exits with a non-zero status [main] prints its
    standard error, aborts and returns [None]; the files left are the
    bitmap and the empty SVG potrace created before it failed. *)
Theorem main_potrace_failure p w im code err :
  pil_open (fs w !! p) = Ok im -> image_wf im = true -> writable (fs w) (pbm_of p) = true ->
  fs w !! potrace_path = Some Program -> writable (fs w) (svg_of (pbm_of p)) = true ->
  potrace_trace (bitmap_of im) = PotraceError code err -> code <> 0%Z ->
  main p w =
    (Ok None,
     World (<[svg_of (pbm_of p) := SvgFile None]> (<[pbm_of p := BitmapFile (pbm_encode (bitmap_of im))]> (fs w)))
       (stdout w ++ [MsgPreprocessing p; MsgTracing; MsgPotraceFailed err; MsgPotraceAborting])).
Proof.
  intros Himg Hwf Hpbm Hprog Hsvg Htr Hcode. main_prefix Himg Hpbm.
  rewrite trace_after_pbm by done. rewrite Htr, (proj2 (Z.eqb_neq _ _) Hcode).
  io_simpl_goal. cbn [fs stdout]. by rewrite <- !app_assoc.
Qed.

(** [main] up to the export, when potrace succeeds. *)
Lemma main_traced p w im shapes :
  pil_open (fs w !! p) = Ok im -> image_wf im = true -> writable (fs w) (pbm_of p) = true ->
  fs w !! potrace_path = Some Program -> writable (fs w) (svg_of (pbm_of p)) = true ->
  potrace_trace (bitmap_of im) = PotraceOk shapes ->
  let pbm := pbm_of p in
  let svg := svg_of pbm in
  main p w =
    match svg_to_dxf svg (dxf_of svg) samples_per_curve_default
            (World (<[svg := SvgFile (Some (map shape_d shapes))]>
                      (<[pbm := BitmapFile (pbm_encode (bitmap_of im))]> (fs w)))
                   (stdout w ++ [MsgPreprocessing p; MsgTracing; MsgExporting])) with
    | (Ok true, w4) => (Ok (Some (dxf_of svg)), World (fs w4) (stdout w4 ++ [MsgDone]))
    | (Ok false, w4) => (Ok None, World (fs w4) (stdout w4 ++ [MsgExportFailed]))
    | (Raise e, w4) => (Raise e, w4)
    end.
Proof.
  intros Himg Hwf Hpbm Hprog Hsvg Htr pbm svg. subst pbm svg. main_prefix Himg Hpbm.
  rewrite trace_after_pbm by done. rewrite Htr, py_truthy_svg_of. cbn [negb].
  io_simpl_goal. rewrite io_bind_svg_to_dxf. cbn [fs stdout].
  rewrite <- !app_assoc. cbn [app].
  destruct (svg_to_dxf _ _ _ _) as [[[|]|e] w4]; by io_simpl_goal.
Qed.

(** C25: The blank-image scenario: for an image whose gray values are all
    in [128, 255], and a tracer that finds no path in an all-white
    bitmap, [main] reports "No paths found in SVG." and "DXF export
    failed.", returns [None], and writes no drawing: only the bitmap and
    the empty SVG. *)
Theorem main_blank_image p w im :
  pil_open (fs w !! p) = Ok im -> image_wf im = true -> writable (fs w) (pbm_of p) = true ->
  fs w !! potrace_path = Some Program -> writable (fs w) (svg_of (pbm_of p)) = true ->
  Forall (Forall (fun x => 128 <= x <= 255)%Z) (convert_L im) ->
  (forall bits, Forall (Forall (fun x => x = 255%Z)) bits -> potrace_trace bits = PotraceOk []) ->
  main p w =
    (Ok None,
     World (<[svg_of (pbm_of p) := SvgFile (Some [])]> (<[pbm_of p := BitmapFile (pbm_encode (bitmap_of im))]> (fs w)))
       (stdout w ++ [MsgPreprocessing p; MsgTracing; MsgExporting;
                     MsgParsingSvg (svg_of (pbm_of p)); MsgNoPathsInSvg; MsgExportFailed])).
Proof.
  intros Himg Hwf Hpbm Hprog Hsvg Hblank Htr.
  rewrite (main_traced p w im []); try done; [| by apply Htr, bitmap_of_blank].
  rewrite svg_to_dxf_eq. cbn [fs stdout]. rewrite lookup_insert_eq. cbn.
  by rewrite <- !app_assoc.
Qed.

(** C12: Under potrace's contract, the only exceptions [main] lets
    escape are [OSError]s (of [Image.open], [open], [subprocess.run] and
    [doc.saveas]) and PIL's [DecompressionBombError] for an oversized
    image: no [IndexError], [ZeroDivisionError], [ValueError] or
    [TypeError].  In particular a path with no segment, whose
    [coords[0]] would raise [IndexError], never reaches [svg_to_dxf]:
    every path potrace writes has a segment and svgpathtools reads it
    back as such. *)
Theorem main_raises_os_error p w e w' :
  main p w = (Raise e, w') -> os_error e = true \/ e = DecompressionBombError.
Proof.
  intros Hm.
  destruct (main_raise_steps p w e w' Hm)
    as [(w1 & w1' & E) | [(pbm & w2 & w2' & E) | (pbm & w2 & svg & w3 & w3' & w4 & Et & Hfs & Es)]].
  - by eapply convert_to_pbm_raise.
  - left. by eapply trace_with_potrace_raise.
  - left. eapply svg_to_dxf_raise; [| | exact Es]; [by vm_compute |].
    rewrite Hfs. by eapply trace_with_potrace_svg.
Qed.

(** C3: Progress: when the image decodes, potrace is installed, the three
    output paths can be written, potrace succeeds and some traced shape
    keeps two points, [main] reaches "Done." and returns the drawing's
    path; potrace's SVG holds the path data of the shapes, and the
    drawing one closed polyline per shape that keeps two points of the
    segments svgpathtools reads back. *)
Theorem main_succeeds p w im shapes pls :
  pil_open (fs w !! p) = Ok im -> image_wf im = true -> writable (fs w) (pbm_of p) = true ->
  fs w !! potrace_path = Some Program -> writable (fs w) (svg_of (pbm_of p)) = true ->
  writable (fs w) (dxf_of (svg_of (pbm_of p))) = true ->
  potrace_trace (bitmap_of im) = PotraceOk shapes ->
  dxf_polylines samples_per_curve_default (map shape_segments shapes) = Ok pls -> pls <> [] ->
  let pbm := pbm_of p in
  let svg := svg_of pbm in
  main p w =
    (Ok (Some (dxf_of svg)),
     World (<[dxf_of svg := DxfFile (saved_document pls)]>
              (<[svg := SvgFile (Some (map shape_d shapes))]> (<[pbm := BitmapFile (pbm_encode (bitmap_of im))]> (fs w))))
       (stdout w ++ [MsgPreprocessing p; MsgTracing; MsgExporting; MsgParsingSvg svg;
                     MsgDxfSaved (dxf_of svg) (length pls); MsgDone])).
Proof.
  intros Himg Hwf Hpbm Hprog Hsvg Hdxf Htr Hpls Hne pbm svg.
  rewrite (main_traced p w im shapes), svg_to_dxf_eq by done. cbn [fs stdout].
  rewrite lookup_insert_eq, svg2paths2_potrace by (by eapply potrace_trace_wf).
  destruct shapes as [|s0 ss]; [by injection Hpls as <- |]. cbn [map] in *.
  rewrite Hpls. destruct pls as [|pl pls']; [done |].
  rewrite (proj1 (writable_ok _ _)); [cbn; by rewrite <- !app_assoc |].
  apply writable_insert; [| done |].
  - apply writable_insert; [done | done | done].
  - apply writable_insert; [done | done | done].
Qed.

(** C13: A system without potrace: [subprocess.run] raises
    [FileNotFoundError], which nothing catches; the bitmap stays on disk
    and no "Potrace failed" diagnostic is printed. *)
Theorem main_potrace_missing p w im :
  pil_open (fs w !! p) = Ok im -> writable (fs w) (pbm_of p) = true ->
  fs w !! potrace_path = None ->
  main p w =
    (Raise FileNotFoundError,
     World (<[pbm_of p := BitmapFile (pbm_encode (bitmap_of im))]> (fs w)) (stdout w ++ [MsgPreprocessing p; MsgTracing])).
Proof.
  intros Himg Hpbm Hprog. main_prefix Himg Hpbm.
  rewrite trace_with_potrace_run. cbn [fs stdout].
  rewrite lookup_insert_ne by apply pbm_ne_potrace. rewrite Hprog. by rewrite <- app_assoc.
Qed.

(** The drawing's path. *)
Lemma main_dxf_path p w d w' :
  main p w = (Ok (Some d), w') -> d = dxf_of (svg_of (pbm_of p)).
Proof.
  intros Hm.
  destruct (main_success_steps p w d w' Hm)
    as (w1 & pbm & w2 & w2' & svg & w3 & w3' & w4 & Hw1 & Hc & Hw2 & Ht & -> & _).
  rewrite convert_to_pbm_spec, Hw1 in Hc.
  destruct (pil_open _); [cbv zeta in Hc | done].
  destruct (open_write _ _); [injection Hc as <- <- | done].
  rewrite trace_with_potrace_run in Ht. cbv zeta in Ht.
  repeat case_match; simplify_eq; done.
Qed.

Lemma dot_notin_pbm : "."%char ∉ lit "pbm".
Proof. by apply (bool_decide_unpack _). Qed.

Lemma dot_notin_svg : "."%char ∉ lit "svg".
Proof. by apply (bool_decide_unpack _). Qed.

(** C30: For an ordinary file name [stem.ext] (the stem ends in a
    character other than a dot or a separator, the extension has
    neither, and the stem contains neither ".pbm" nor ".svg") the
    drawing is written at [stem.dxf], as the spec says. *)
Theorem main_output_path_plain stem x ext w d w' :
  x <> "."%char -> x <> "/"%char -> "."%char ∉ ext -> "/"%char ∉ ext ->
  PyStr.occursb (lit ".pbm") (stem ++ [x]) = false ->
  PyStr.occursb (lit ".svg") (stem ++ [x]) = false ->
  main ((stem ++ [x]) ++ "."%char :: ext) w = (Ok (Some d), w') ->
  d = (stem ++ [x]) ++ lit ".dxf".
Proof.
  intros Hx1 Hx2 Hd Hs Hpbm Hsvg Hm.
  rewrite (main_dxf_path _ _ _ _ Hm). unfold pbm_of. rewrite PyStr.splitext_plain by done.
  unfold dxf_of, svg_of, pbm_ext.
  rewrite (PyStr.replace_app_suffix _ "." (lit "pbm")) by
    (apply dot_notin_pbm || by apply PyStr.occursb_false).
  rewrite (PyStr.replace_app_suffix _ "." (lit "svg")) by
    (apply dot_notin_svg || by apply PyStr.occursb_false).
  done.
Qed.

(** C28: An input file that exists but that PIL cannot open crashes
    [main]: [Image.open] raises an [OSError] (or, on a directory, an
    [IsADirectoryError]) that nothing catches, after the preprocessing
    message and before any file is written. *)
Theorem main_undecodable_raises p w e :
  is_Some (fs w !! p) -> pil_open (fs w !! p) = Raise e ->
  main p w = (Raise e, World (fs w) (stdout w ++ [MsgPreprocessing p])).
Proof.
  intros Hex Himg.
  unfold main. rewrite io_bind_path_exists, bool_decide_true by done. cbn [negb].
  io_simpl_goal. rewrite io_bind_convert_to_pbm. cbn [fs stdout]. by rewrite Himg.
Qed.

(** Whatever [main] does, returning or raising, it keeps the file
    system a tree: every file it writes is in an existing directory. *)
Theorem main_preserves_wf p w : world_wf w -> world_wf (main p w).2.
Proof.
  revert w. change (preserves_wf (main p)). unfold main.
  preserves_tac; apply preserves_wf_trace_with_potrace.
Qed.

(** C38: [main] writes nothing but the three files the spec names: every
    path other than the bitmap, the SVG and the drawing derived from the
    input keeps its content, whatever [main] returns or raises. *)
Theorem main_writes_only p q w :
  q <> pbm_of p -> q <> svg_of (pbm_of p) -> q <> dxf_of (svg_of (pbm_of p)) ->
  fs (main p w).2 !! q = fs w !! q.
Proof.
  intros Hpbm Hsvg Hdxf. revert w. change (frame q (main p)). unfold main.
  apply frame_bind_any; [apply frame_path_exists | intros e].
  unfold mbind, mret, io_mbind, io_mret.
  repeat first
    [ apply frame_bind_convert_to_pbm; [done |]
    | apply frame_bind_trace; [done | |]
    | apply frame_svg_to_dxf; done
    | apply frame_bind_any; [| intros ?]
    | apply frame_print | apply frame_ret
    | progress case_match | progress cbv beta iota zeta ].
Qed.

(** C14: The drawing path is derived by [str.replace] over the whole SVG
    path (line 91), so a directory whose name contains ".svg" is renamed
    too: for an SVG path [d + "/" + f] with ".svg" in [d], the drawing
    goes into [d.replace(".svg", ".dxf")], another directory, and when
    that directory does not exist [doc.saveas] raises
    [FileNotFoundError], which nothing catches, after the bitmap and the
    SVG were written. *)
Theorem main_output_path_directory p w im shapes pls d f :
  pil_open (fs w !! p) = Ok im -> image_wf im = true -> writable (fs w) (pbm_of p) = true ->
  fs w !! potrace_path = Some Program -> writable (fs w) (svg_of (pbm_of p)) = true ->
  potrace_trace (bitmap_of im) = PotraceOk shapes ->
  dxf_polylines samples_per_curve_default (map shape_segments shapes) = Ok pls -> pls <> [] ->
  svg_of (pbm_of p) = d ++ "/"%char :: f -> ("/"%char ∉ f) -> last d <> Some "/"%char ->
  PyStr.occurs (lit ".svg") d -> fs w !! PyStr.replace d (lit ".svg") (lit ".dxf") = None ->
  dxf_of (svg_of (pbm_of p)) =
    PyStr.replace d (lit ".svg") (lit ".dxf") ++ "/"%char :: PyStr.replace f (lit ".svg") (lit ".dxf") /\
  PyStr.replace d (lit ".svg") (lit ".dxf") <> d /\
  main p w =
    (Raise FileNotFoundError,
     World (<[svg_of (pbm_of p) := SvgFile (Some (map shape_d shapes))]>
              (<[pbm_of p := BitmapFile (pbm_encode (bitmap_of im))]> (fs w)))
       (stdout w ++ [MsgPreprocessing p; MsgTracing; MsgExporting; MsgParsingSvg (svg_of (pbm_of p))])).
Proof.
  intros Himg Hwf Hpbm Hprog Hsvg Htr Hpls Hne Hsplit Hf Hl Hocc Hdir.
  assert (Hsl : "/"%char ∉ lit ".svg") by (apply (bool_decide_unpack _); vm_compute; exact I).
  assert (Hsl' : "/"%char ∉ lit ".dxf") by (apply (bool_decide_unpack _); vm_compute; exact I).
  set (X := PyStr.replace d (lit ".svg") (lit ".dxf")) in *.
  assert (Hdxf : dxf_of (svg_of (pbm_of p)) = X ++ "/"%char :: PyStr.replace f (lit ".svg") (lit ".dxf"))
    by (unfold dxf_of; rewrite Hsplit; by apply PyStr.replace_sep).
  assert (HlenX : length X = length d) by (by apply PyStr.replace_length).
  assert (Hlensvg : length (svg_of (pbm_of p)) = length (pbm_of p))
    by (by apply PyStr.replace_length).
  assert (HlenS : length X < length (svg_of (pbm_of p)))
    by (rewrite Hsplit, length_app; simpl; lia).
  split; [exact Hdxf |]. split; [by apply PyStr.replace_changes |].
  rewrite (main_traced p w im shapes), svg_to_dxf_eq by done. cbn [fs stdout].
  rewrite lookup_insert_eq, svg2paths2_potrace by (by eapply potrace_trace_wf).
  destruct shapes as [|s0 ss]; [by injection Hpls as <- |]. cbn [map] in *.
  rewrite Hpls. destruct pls as [|pl pls']; [done |].
  rewrite Hdxf, open_write_missing_dir.
  - cbn. by rewrite <- !app_assoc.
  - by apply PyStr.replace_notin.
  - intros HX. rewrite HX in HlenX. destruct Hocc as (a & b & ->). rewrite !length_app in HlenX.
    simpl in HlenX. lia.
  - intros HX. destruct (PyStr.replace_last d (lit ".svg") (lit ".dxf") _ ltac:(discriminate) ltac:(discriminate) HX) as [Hd | Hin]; [done |].
    by apply Hsl'.
  - rewrite !lookup_insert_ne; [done | intros Heq%(f_equal length); lia ..].
Qed.

End PipelineTheorems.

(** An input that is itself a [.pbm] file is its own bitmap path:
    [convert_to_pbm] overwrites it with the bitmap it saves.  The bytes
    change (the header comment is lost) while the image they hold does
    not. *)
Theorem main_overwrites_pbm_input :
  pbm_of (lit "scan.pbm") = lit "scan.pbm" /\
  fs (snd (@main square_tracer (lit "scan.pbm") pbm_input_world)) !! lit "scan.pbm" <>
    fs pbm_input_world !! lit "scan.pbm" /\
  pbm_decode commented_pbm = Some [[0; 255]%Z] /\
  fs (snd (@main square_tracer (lit "scan.pbm") pbm_input_world)) !! lit "scan.pbm" =
    Some (BitmapFile (pbm_encode [[0; 255]%Z])).
Proof.
  split; [vm_compute; reflexivity |]. split; [intros Heq; vm_compute in Heq; congruence |].
  split; vm_compute; reflexivity.
Qed.

(** ** Witnesses *)

Lemma main_undecodable_raises_witness :
  is_Some (fs corrupt_world !! lit "bad.png") /\
  pil_open (fs corrupt_world !! lit "bad.png") = Raise OSError /\
  @main square_tracer (lit "bad.png") corrupt_world =
    (Raise OSError, World (fs corrupt_world) (stdout corrupt_world ++ [MsgPreprocessing (lit "bad.png")])).
Proof.
  assert (H1 : is_Some (fs corrupt_world !! lit "bad.png")) by (vm_compute; eauto).
  assert (H2 : pil_open (fs corrupt_world !! lit "bad.png") = Raise OSError)
    by (vm_compute; reflexivity).
  split; [exact H1 |]. split; [exact H2 |].
  exact (@main_undecodable_raises square_tracer _ _ _ H1 H2).
Defined.

Lemma main_missing_image_witness :
  fs scan_world !! lit "nope.png" = None /\
  @main square_tracer (lit "nope.png") scan_world =
    (Ok None, World (fs scan_world) (stdout scan_world ++ [MsgImageNotFound])).
Proof.
  assert (H : fs scan_world !! lit "nope.png" = None) by (vm_compute; reflexivity).
  split; [exact H | exact (main_missing_image _ _ H)].
Defined.

Lemma main_output_invariant_witness :
  @main square_tracer (lit "scan.png") scan_world =
    (Ok (Some (lit "scan.dxf")), snd (@main square_tracer (lit "scan.png") scan_world)) /\
  exists pls,
    fs (snd (@main square_tracer (lit "scan.png") scan_world)) !! lit "scan.dxf" =
      Some (DxfFile (saved_document pls)) /\ pls <> [] /\
    forall pl, pl ∈ pls -> 2 <= length pl /\ separated far pl.
Proof.
  assert (H : @main square_tracer (lit "scan.png") scan_world =
    (Ok (Some (lit "scan.dxf")), snd (@main square_tracer (lit "scan.png") scan_world)))
    by (vm_compute; reflexivity).
  split; [exact H | exact (main_output_invariant _ _ _ _ H)].
Defined.

Lemma main_output_path_plain_witness :
  "n"%char <> "."%char /\ "n"%char <> "/"%char /\
  ("."%char ∉ lit "png") /\ ("/"%char ∉ lit "png") /\
  PyStr.occursb (lit ".pbm") (lit "sca" ++ ["n"%char]) = false /\
  PyStr.occursb (lit ".svg") (lit "sca" ++ ["n"%char]) = false /\
  @main square_tracer ((lit "sca" ++ ["n"%char]) ++ "."%char :: lit "png") scan_world =
    (Ok (Some (lit "scan.dxf")), snd (@main square_tracer (lit "scan.png") scan_world)) /\
  lit "scan.dxf" = (lit "sca" ++ ["n"%char]) ++ lit ".dxf".
Proof.
  assert (H1 : "n"%char <> "."%char) by discriminate.
  assert (H2 : "n"%char <> "/"%char) by discriminate.
  assert (H3 : "."%char ∉ lit "png") by (apply (bool_decide_unpack _); vm_compute; exact I).
  assert (H4 : "/"%char ∉ lit "png") by (apply (bool_decide_unpack _); vm_compute; exact I).
  assert (H5 : PyStr.occursb (lit ".pbm") (lit "sca" ++ ["n"%char]) = false) by (vm_compute; reflexivity).
  assert (H6 : PyStr.occursb (lit ".svg") (lit "sca" ++ ["n"%char]) = false) by (vm_compute; reflexivity).
  assert (H7 : @main square_tracer ((lit "sca" ++ ["n"%char]) ++ "."%char :: lit "png") scan_world =
    (Ok (Some (lit "scan.dxf")), snd (@main square_tracer (lit "scan.png") scan_world)))
    by (vm_compute; reflexivity).
  do 7 (split; [assumption |]).
  exact (main_output_path_plain _ _ _ _ _ _ H1 H2 H3 H4 H5 H6 H7).
Defined.

Lemma main_potrace_failure_witness :
  @main failing_tracer (lit "scan.png") scan_world =
    (Ok None,
     World (<[svg_of (pbm_of (lit "scan.png")) := SvgFile None]>
              (<[pbm_of (lit "scan.png") := BitmapFile (pbm_encode (bitmap_of scan_image))]> (fs scan_world)))
       (stdout scan_world ++ [MsgPreprocessing (lit "scan.png"); MsgTracing;
                              MsgPotraceFailed (lit "potrace: bad input"); MsgPotraceAborting])).
Proof.
  apply (@main_potrace_failure failing_tracer _ _ _ 1 _);
    [vm_compute; reflexivity .. | reflexivity | lia].
Defined.

Lemma main_blank_image_witness :
  @main square_tracer (lit "blank.png") blank_world =
    (Ok None,
     World (<[svg_of (pbm_of (lit "blank.png")) := SvgFile (Some [])]>
              (<[pbm_of (lit "blank.png") := BitmapFile (pbm_encode (bitmap_of blank_image))]> (fs blank_world)))
       (stdout blank_world ++
          [MsgPreprocessing (lit "blank.png"); MsgTracing; MsgExporting;
           MsgParsingSvg (svg_of (pbm_of (lit "blank.png"))); MsgNoPathsInSvg; MsgExportFailed])).
Proof.
  apply (@main_blank_image square_tracer _ _ blank_image);
    [vm_compute; reflexivity .. | repeat constructor; lia |].
  intros bits Hb. simpl. by rewrite bool_decide_true.
Defined.

Lemma main_raises_os_error_witness :
  @main square_tracer (lit "scan.png") bare_world =
    (Raise FileNotFoundError, snd (@main square_tracer (lit "scan.png") bare_world)) /\
  (os_error FileNotFoundError = true \/ FileNotFoundError = DecompressionBombError).
Proof.
  assert (H : @main square_tracer (lit "scan.png") bare_world =
    (Raise FileNotFoundError, snd (@main square_tracer (lit "scan.png") bare_world)))
    by (vm_compute; reflexivity).
  split; [exact H | exact (main_raises_os_error _ _ _ _ H)].
Defined.

Lemma main_output_path_directory_witness :
  exists pls,
  (pil_open (fs dir_world !! (lit "/x.svg/img.png")) = Ok scan_image) /\
  (image_wf scan_image = true) /\
  (writable (fs dir_world) (pbm_of (lit "/x.svg/img.png")) = true) /\
  (fs dir_world !! potrace_path = Some Program) /\
  (writable (fs dir_world) (svg_of (pbm_of (lit "/x.svg/img.png"))) = true) /\
  (@potrace_trace square_tracer (bitmap_of scan_image) = PotraceOk [square_shape]) /\
  (dxf_polylines samples_per_curve_default (map shape_segments [square_shape]) = Ok pls) /\
  (pls <> []) /\
  (svg_of (pbm_of (lit "/x.svg/img.png")) = lit "/x.svg" ++ "/"%char :: lit "img.svg") /\
  ("/"%char ∉ lit "img.svg") /\
  (last (lit "/x.svg") <> Some "/"%char) /\
  (PyStr.occurs (lit ".svg") (lit "/x.svg")) /\
  (fs dir_world !! PyStr.replace (lit "/x.svg") (lit ".svg") (lit ".dxf") = None) /\
  dxf_of (svg_of (pbm_of (lit "/x.svg/img.png"))) =
    PyStr.replace (lit "/x.svg") (lit ".svg") (lit ".dxf") ++ "/"%char :: PyStr.replace (lit "img.svg") (lit ".svg") (lit ".dxf") /\
  PyStr.replace (lit "/x.svg") (lit ".svg") (lit ".dxf") <> lit "/x.svg" /\
  @main square_tracer (lit "/x.svg/img.png") dir_world =
    (Raise FileNotFoundError,
     World (<[svg_of (pbm_of (lit "/x.svg/img.png")) := SvgFile (Some (map shape_d [square_shape]))]>
              (<[pbm_of (lit "/x.svg/img.png") := BitmapFile (pbm_encode (bitmap_of scan_image))]> (fs dir_world)))
       (stdout dir_world ++ [MsgPreprocessing (lit "/x.svg/img.png"); MsgTracing; MsgExporting; MsgParsingSvg (svg_of (pbm_of (lit "/x.svg/img.png")))])).
Proof.
  destruct (dxf_polylines samples_per_curve_default (map shape_segments [square_shape])) as [pls|e] eqn:E;
    [| vm_compute in E; discriminate].
  exists pls.
  assert (H0 : pil_open (fs dir_world !! (lit "/x.svg/img.png")) = Ok scan_image) by (vm_compute; reflexivity).
  assert (H1 : image_wf scan_image = true) by (reflexivity).
  assert (H2 : writable (fs dir_world) (pbm_of (lit "/x.svg/img.png")) = true) by (vm_compute; reflexivity).
  assert (H3 : fs dir_world !! potrace_path = Some Program) by (vm_compute; reflexivity).
  assert (H4 : writable (fs dir_world) (svg_of (pbm_of (lit "/x.svg/img.png"))) = true) by (vm_compute; reflexivity).
  assert (H5 : @potrace_trace square_tracer (bitmap_of scan_image) = PotraceOk [square_shape]) by (vm_compute; reflexivity).
  assert (H6 : dxf_polylines samples_per_curve_default (map shape_segments [square_shape]) = Ok pls) by (exact E).
  assert (H7 : pls <> []) by (intros ->; vm_compute in E; discriminate).
  assert (H8 : svg_of (pbm_of (lit "/x.svg/img.png")) = lit "/x.svg" ++ "/"%char :: lit "img.svg") by (vm_compute; reflexivity).
  assert (H9 : "/"%char ∉ lit "img.svg") by (apply (bool_decide_unpack _); vm_compute; exact I).
  assert (H10 : last (lit "/x.svg") <> Some "/"%char) by (vm_compute; discriminate).
  assert (H11 : PyStr.occurs (lit ".svg") (lit "/x.svg")) by (exists (lit "/x"), []; reflexivity).
  assert (H12 : fs dir_world !! PyStr.replace (lit "/x.svg") (lit ".svg") (lit ".dxf") = None) by (vm_compute; reflexivity).
  split; [exact H0 |]. split; [exact H1 |]. split; [exact H2 |]. split; [exact H3 |]. split; [exact H4 |]. split; [exact H5 |]. split; [reflexivity |]. split; [exact H7 |]. split; [exact H8 |]. split; [exact H9 |]. split; [exact H10 |]. split; [exact H11 |]. split; [exact H12 |].
  exact (@main_output_path_directory square_tracer _ _ _ _ _ _ _ H0 H1 H2 H3 H4 H5 H6 H7 H8 H9 H10 H11 H12).
Defined.

Lemma main_succeeds_witness :
  exists pls,
  @main square_tracer (lit "scan.png") scan_world =
    (Ok (Some (dxf_of (svg_of (pbm_of (lit "scan.png"))))),
     World (<[dxf_of (svg_of (pbm_of (lit "scan.png"))) := DxfFile (saved_document pls)]>
              (<[svg_of (pbm_of (lit "scan.png")) := SvgFile (Some (map shape_d [square_shape]))]>
                 (<[pbm_of (lit "scan.png") := BitmapFile (pbm_encode (bitmap_of scan_image))]> (fs scan_world))))
       (stdout scan_world ++ [MsgPreprocessing (lit "scan.png"); MsgTracing; MsgExporting;
          MsgParsingSvg (svg_of (pbm_of (lit "scan.png")));
          MsgDxfSaved (dxf_of (svg_of (pbm_of (lit "scan.png")))) (length pls); MsgDone])).
Proof.
  destruct (dxf_polylines samples_per_curve_default (map shape_segments [square_shape])) as [pls|e] eqn:E;
    [| vm_compute in E; discriminate].
  exists pls.
  apply (@main_succeeds square_tracer _ _ scan_image [square_shape] pls);
    [vm_compute; reflexivity .. | vm_compute; reflexivity | exact E |].
  intros ->. vm_compute in E. discriminate.
Defined.

Lemma main_potrace_missing_witness :
  @main square_tracer (lit "scan.png") bare_world =
    (Raise FileNotFoundError,
     World (<[pbm_of (lit "scan.png") := BitmapFile (pbm_encode (bitmap_of scan_image))]> (fs bare_world))
       (stdout bare_world ++ [MsgPreprocessing (lit "scan.png"); MsgTracing])).
Proof. apply (@main_potrace_missing square_tracer _ _ scan_image); vm_compute; reflexivity. Defined.

Lemma main_preserves_wf_witness :
  world_wf dir_world /\ world_wf (@main square_tracer (lit "/x.svg/img.png") dir_world).2.
Proof.
  assert (H : world_wf dir_world) by (apply (bool_decide_unpack _); vm_compute; exact I).
  split; [exact H | exact (@main_preserves_wf square_tracer _ _ H)].
Defined.

Lemma main_writes_only_witness :
  lit "scan.png" <> pbm_of (lit "scan.png") /\ lit "scan.png" <> svg_of (pbm_of (lit "scan.png")) /\
  lit "scan.png" <> dxf_of (svg_of (pbm_of (lit "scan.png"))) /\
  fs (@main square_tracer (lit "scan.png") scan_world).2 !! lit "scan.png" =
    fs scan_world !! lit "scan.png".
Proof.
  assert (H1 : lit "scan.png" <> pbm_of (lit "scan.png")) by (vm_compute; discriminate).
  assert (H2 : lit "scan.png" <> svg_of (pbm_of (lit "scan.png"))) by (vm_compute; discriminate).
  assert (H3 : lit "scan.png" <> dxf_of (svg_of (pbm_of (lit "scan.png"))))
    by (vm_compute; discriminate).
  split; [exact H1 |]. split; [exact H2 |]. split; [exact H3 |].
  exact (@main_writes_only square_tracer _ _ scan_world H1 H2 H3).
Defined.

End Pipeline.
