(* ===== verification/Traced.v ===== *)
(** * Traced: the polylines of straight-sided and holed paths

    General consequences of the sampling and the decimation of
    [svg_to_dxf] (lines 53-62) on the paths the script reads.
    - A path of straight sides each longer than [0.1 * samples] keeps
      every sample: [k * samples + 1] points for [k] sides, where the
      spec expects a straight segment to give two points
      ([straight_path_keeps_samples]); for the polygons potrace traces,
      whose curves close, the last point repeats the first
      ([traced_polygon_polyline]).
    - A straight segment of length at most 0.2 keeps its start and one
      sample and drops its end point ([short_segment_drops_end]).
    - A shape with a hole is one path: its coordinates run from the
      outer curve to the start of the hole, and the polyline has an edge
      from the outer curve to the hole ([shape_polyline_joins_hole]). *)

From S2P Require Import Prelude PyStr Geometry SvgPath PotraceSvg World Sampling Decimate SvgToDxf Pipeline.
From Stdlib Require Import QArith Lqa.

Module Traced.
Import SvgPath PotraceSvg SvgToDxf Pipeline.

(** The vertex [v] as the script writes it, [(x, -y)]. *)
Definition flip_vertex (v : complex) : vec2 := Vec2 (re v) (- im v).

(** The squared length of the side from [a] to [b]. *)
Definition side2 (a b : complex) : Q :=
  (re b - re a) * (re b - re a) + (im b - im a) * (im b - im a).

(** The path of straight sides from [v] through the vertices [vs]. *)
Fixpoint polyline_path (v : complex) (vs : list complex) : svg_path :=
  match vs with
  | [] => []
  | w :: ws => Line v w :: polyline_path w ws
  end.

(** Every side is longer than [0.1 * N]: consecutive samples are more
    than 0.1 apart. *)
Fixpoint long_sides (N : Z) (v : complex) (vs : list complex) : Prop :=
  match vs with
  | [] => True
  | w :: ws => (1 # 100) * inject_Z (N * N) < side2 v w /\ long_sides N w ws
  end.

(** The points a curve of potrace's corners passes through after its
    start ([Corner v e] draws [cur -> v -> e]); [None] for a curve with a
    Bezier segment. *)
Fixpoint corner_vertices (ts : list ptag) : option (list point) :=
  match ts with
  | [] => Some []
  | Corner v e :: ts' => vs ← corner_vertices ts'; Some (v :: e :: vs)
  | Curveto _ _ _ :: _ => None
  end.

(** The [i]-th sample of a segment, as a [Vec2]. *)
Definition sample (seg : svg_segment) (N : Z) (i : nat) : vec2 := to_vec2 (flip_point seg (ratio i N)).

(** The [N + 1] samples of a segment, and those after its start. *)
Definition seg_samples (N : Z) (seg : svg_segment) : list vec2 := map (sample seg N) (seq 0 (S (Z.to_nat N))).
Definition seg_tail (N : Z) (seg : svg_segment) : list vec2 := map (sample seg N) (seq 1 (Z.to_nat N)).

(** The file potrace writes for the traced square of side 10. *)
Definition square_svg_world : world :=
  World {[lit "sq.svg" := SvgFile (Some [shape_d square_shape])]} [].

(** The file potrace writes for the traced ring. *)
Definition ring_svg_world : world :=
  World {[lit "ring.svg" := SvgFile (Some [shape_d (Shape ring_outer [ring_hole])])]} [].

(** ** Sampling a path *)

Lemma sample_params_seq N :
  (1 <= N)%Z -> sample_params N = Ok (map (fun i => ratio i N) (seq 0 (S (Z.to_nat N)))).
Proof.
  intros HN. rewrite sample_params_pos by done. f_equal.
  unfold py_range. replace (Z.to_nat (N + 1)) with (S (Z.to_nat N)) by lia.
  by rewrite map_map.
Qed.

Lemma coords_samples (path : svg_path) N :
  (1 <= N)%Z ->
  exists cs, svg_path_to_dxf_coords path N = Ok cs /\
    map to_vec2 cs = mjoin (map (seg_samples N) path).
Proof.
  intros HN. induction path as [|seg path (cs & Hcs & Hm)]; [by exists [] |].
  cbn [svg_path_to_dxf_coords]. rewrite sample_params_seq, Hcs by done. cbn.
  eexists. split; [reflexivity |]. cbn [map]. rewrite map_app, Hm, !map_map. reflexivity.
Qed.

(** [decimate] on the [Vec2]s of the coordinates. *)
Lemma decimate_vec2 cs :
  decimate to_vec2 far cs =
    match map to_vec2 cs with [] => Raise IndexError | x :: xs => Ok (x :: greedy far x xs) end.
Proof. rewrite decimate_eq. by destruct cs. Qed.

Lemma simplify_path_samples (path : svg_path) N :
  (1 <= N)%Z ->
  simplify_path N path =
    match mjoin (map (seg_samples N) path) with
    | [] => Raise IndexError
    | x :: xs => Ok (x :: greedy far x xs)
    end.
Proof.
  intros HN. destruct (coords_samples path N HN) as (cs & Hcs & Hm).
  unfold simplify_path. rewrite Hcs. cbn. by rewrite decimate_vec2, Hm.
Qed.

(** ** The samples of a straight segment *)

Lemma ratio_0 N : ratio 0 N == 0.
Proof. unfold ratio. cbn. unfold Qdiv. by rewrite Qmult_0_l. Qed.

Lemma ratio_N N : (1 <= N)%Z -> ratio (Z.to_nat N) N == 1.
Proof.
  intros HN. unfold ratio. rewrite Z2Nat.id by lia. field.
  change 0%Q with (inject_Z 0). rewrite inject_Z_injective. lia.
Qed.

Lemma ratio_mono i j N : (1 <= N)%Z -> (i <= j)%nat -> ratio i N <= ratio j N.
Proof.
  intros HN Hij. unfold ratio. assert (H0 : 0 < inject_Z N) by (change 0 with (inject_Z 0); rewrite <- Zlt_Qlt; lia).
  apply Qmult_le_compat_r; [rewrite <- Zle_Qle; lia |].
  apply Qlt_le_weak, Qinv_lt_0_compat, H0.
Qed.

(** The squared distance of two samples of a line. *)
Lemma distance2_line a b N i j :
  distance2 (sample (Line a b) N i) (sample (Line a b) N j) ==
    (ratio i N - ratio j N) * (ratio i N - ratio j N) * side2 a b.
Proof. unfold sample, to_vec2, flip_point, distance2, side2. cbn. ring. Qed.

Lemma sample_line_0 a b N : vec2_equiv (sample (Line a b) N 0) (flip_vertex a).
Proof. unfold sample, to_vec2, flip_point, flip_vertex, vec2_equiv. cbn. rewrite ratio_0. split; ring. Qed.

Lemma sample_line_N a b N : (1 <= N)%Z -> vec2_equiv (sample (Line a b) N (Z.to_nat N)) (flip_vertex b).
Proof.
  intros HN. unfold sample, to_vec2, flip_point, flip_vertex, vec2_equiv. cbn.
  rewrite ratio_N by done. split; ring.
Qed.

Lemma far_line a b N i j :
  far (sample (Line a b) N i) (sample (Line a b) N j) = true <->
    (1 # 10) * (1 # 10) < (ratio i N - ratio j N) * (ratio i N - ratio j N) * side2 a b.
Proof. rewrite far_spec, distance2_line. reflexivity. Qed.

(** Samples [i] and [j] of a side are far apart when
    [(i - j)^2 * side2 > 0.01 * N^2]. *)
Lemma far_line_gap a b N i j :
  (1 <= N)%Z ->
  (1 # 100) * inject_Z (N * N) <
    inject_Z ((Z.of_nat i - Z.of_nat j) * (Z.of_nat i - Z.of_nat j)) * side2 a b ->
  far (sample (Line a b) N i) (sample (Line a b) N j) = true.
Proof.
  intros HN Hs. apply far_line.
  assert (Hq : 0 < inject_Z N) by (change 0 with (inject_Z 0); rewrite <- Zlt_Qlt; lia).
  assert (E : (ratio i N - ratio j N) * (ratio i N - ratio j N) * side2 a b ==
              inject_Z ((Z.of_nat i - Z.of_nat j) * (Z.of_nat i - Z.of_nat j)) * side2 a b /
                (inject_Z N * inject_Z N)).
  { unfold ratio, Z.sub. rewrite inject_Z_mult, !inject_Z_plus, !inject_Z_opp.
    field. intros E. rewrite E in Hq. exact (Qlt_irrefl 0 Hq). }
  rewrite E. rewrite (inject_Z_mult N N) in Hs. apply Qlt_shift_div_l; [by apply Qmult_lt_0_compat | nra].
Qed.

(** Consecutive samples of a long side are far apart. *)
Lemma far_line_step a b N i :
  (1 <= N)%Z -> (1 # 100) * inject_Z (N * N) < side2 a b ->
  far (sample (Line a b) N (S i)) (sample (Line a b) N i) = true.
Proof.
  intros HN Hs. apply far_line_gap; [done |].
  replace ((Z.of_nat (S i) - Z.of_nat i) * (Z.of_nat (S i) - Z.of_nat i))%Z with 1%Z by lia.
  change (inject_Z 1) with 1. by rewrite Qmult_1_l.
Qed.

Lemma separated_seq (g : nat -> vec2) k m :
  (forall i, far (g (S i)) (g i) = true) -> separated far (map g (seq k m)).
Proof.
  intros Hg. revert k. induction m as [|[|m] IH]; intros k; [done | done |].
  specialize (IH (S k)). cbn [seq map] in IH |- *. split; [apply Hg | exact IH].
Qed.

Lemma seg_samples_cons N seg : seg_samples N seg = sample seg N 0 :: seg_tail N seg.
Proof. reflexivity. Qed.

Lemma last_seg_tail N seg : (1 <= N)%Z -> last (seg_tail N seg) = Some (sample seg N (Z.to_nat N)).
Proof.
  intros HN. unfold seg_tail. replace (Z.to_nat N) with (S (Z.to_nat N - 1)) at 1 by lia.
  rewrite seq_S, map_app, last_app. cbn. f_equal. f_equal. lia.
Qed.

(** ** Decimating a path of long straight sides *)

(** The decimation drops exactly the repeated joints: the first sample
    of each side, equal to the last sample of the side before. *)
Lemma greedy_polyline N v vs lk :
  (1 <= N)%Z -> long_sides N v vs -> vec2_equiv lk (flip_vertex v) ->
  greedy far lk (mjoin (map (seg_samples N) (polyline_path v vs))) =
    mjoin (map (seg_tail N) (polyline_path v vs)).
Proof.
  intros HN. revert v lk. induction vs as [|w ws IH]; intros v lk Hl Hlk; [done |].
  destruct Hl as [Hs Hl]. cbn [polyline_path map].
  change (mjoin (?x :: ?l)) with (x ++ mjoin l). change (mjoin (?x :: ?l)) with (x ++ mjoin l).
  rewrite seg_samples_cons. cbn [app greedy].
  rewrite (far_proper _ _ (sample_line_0 v w N) _ _ Hlk), far_irrefl.
  rewrite greedy_app.
  assert (Hg : greedy far lk (seg_tail N (Line v w)) = seg_tail N (Line v w)).
  { rewrite (greedy_ext far lk (sample (Line v w) N 0)).
    - apply greedy_separated_id. rewrite <- seg_samples_cons. apply separated_seq.
      intros i. by apply far_line_step.
    - intros y. apply far_proper; [reflexivity |]. by rewrite Hlk, sample_line_0. }
  rewrite Hg, last_seg_tail by done. cbn [default]. f_equal.
  apply IH; [exact Hl | by apply sample_line_N].
Qed.

Lemma length_polyline_tail N v vs :
  length (mjoin (map (seg_tail N) (polyline_path v vs))) = (length vs * Z.to_nat N)%nat.
Proof.
  revert v. induction vs as [|w ws IH]; intros v; [done |]. cbn [polyline_path map].
  change (mjoin (?x :: ?l)) with (x ++ mjoin l).
  rewrite length_app, IH. unfold seg_tail. rewrite length_map, length_seq. cbn [length]. lia.
Qed.

Lemma last_polyline_tail N v vs w :
  (1 <= N)%Z -> last vs = Some w ->
  exists q, last (mjoin (map (seg_tail N) (polyline_path v vs))) = Some q /\ vec2_equiv q (flip_vertex w).
Proof.
  intros HN. revert v. induction vs as [|w' [|w'' ws] IH]; intros v Hw; [done | |].
  - injection Hw as <-. cbn. rewrite app_nil_r, last_seg_tail by done.
    eexists. split; [reflexivity | by apply sample_line_N].
  - rewrite last_cons_cons in Hw. destruct (IH w' Hw) as (q & Hq & Heq).
    exists q. split; [| done]. cbn [polyline_path map].
    change (mjoin (?x :: ?l)) with (x ++ mjoin l). rewrite last_app.
    cbn [polyline_path map] in Hq. by rewrite Hq.
Qed.

(** The whole path: the first sample, then every sample of every side
    after its start. *)
Lemma simplify_polyline N v w ws :
  (1 <= N)%Z -> long_sides N v (w :: ws) ->
  simplify_path N (polyline_path v (w :: ws)) =
    Ok (sample (Line v w) N 0 :: mjoin (map (seg_tail N) (polyline_path v (w :: ws)))).
Proof.
  intros HN Hl. rewrite simplify_path_samples by done.
  rewrite <- (greedy_polyline N v (w :: ws) (sample (Line v w) N 0)) by (done || apply sample_line_0).
  cbn [polyline_path map]. change (mjoin (?x :: ?l)) with (x ++ mjoin l).
  rewrite seg_samples_cons. cbn [app greedy]. by rewrite far_irrefl.
Qed.

(** ** A short straight segment *)

(** The first index where a test holds, or none up to [m]. *)
Lemma least_index (P : nat -> bool) m :
  (exists k, (k <= m)%nat /\ P k = true /\ forall i, (i < k)%nat -> P i = false) \/
  (forall i, (i <= m)%nat -> P i = false).
Proof.
  induction m as [|m [(k & Hk & Hp & Hmin) | Hm]].
  - destruct (P 0%nat) eqn:E; [left; exists 0%nat | right]; [split_and!; [lia | done | lia] |].
    intros i Hi. by replace i with 0%nat by lia.
  - left. exists k. split_and!; [lia | done | done].
  - destruct (P (S m)) eqn:E; [left; exists (S m) | right].
    + split_and!; [lia | done | intros i Hi; apply Hm; lia].
    + intros i Hi. destruct (decide (i = S m)) as [-> | Hne]; [done | apply Hm; lia].
Qed.

Lemma sq_nonneg x : 0 <= x * x.
Proof. destruct (Qlt_le_dec x 0); nra. Qed.

Lemma side2_nonneg a b : 0 <= side2 a b.
Proof. unfold side2. pose proof (sq_nonneg (re b - re a)). pose proof (sq_nonneg (im b - im a)). lra. Qed.

(** On a segment of length at most 0.2, a sample more than 0.1 from the
    start leaves every later sample within 0.1 of it. *)
Lemma short_line_near a b N k j :
  (1 <= N)%Z -> side2 a b <= 4 # 100 ->
  far (sample (Line a b) N k) (sample (Line a b) N 0) = true ->
  (k <= j <= Z.to_nat N)%nat ->
  far (sample (Line a b) N j) (sample (Line a b) N k) = false.
Proof.
  intros HN HS Hk Hj.
  destruct (far (sample (Line a b) N j) (sample (Line a b) N k)) eqn:E; [exfalso | done].
  apply far_line in E. apply far_line in Hk. rewrite ratio_0 in Hk.
  pose proof (ratio_bounds j N ltac:(lia) HN) as [Hj0 Hj1].
  pose proof (ratio_bounds k N ltac:(lia) HN) as [Hk0 Hk1].
  pose proof (ratio_mono k j N HN ltac:(lia)) as Hkj.
  pose proof (side2_nonneg a b) as HS0.
  revert E Hk Hj0 Hj1 Hk0 Hk1 Hkj HS HS0.
  generalize (ratio j N) (ratio k N) (side2 a b). intros rj rk S E Hk Hj0 Hj1 Hk0 Hk1 Hkj HS HS0.
  assert (Hsq1 : rj * rj <= 1) by nra.
  assert (Hsum : rj * rj * S <= S) by nra.
  assert (Hm0 : 0 <= (rj - rk) * rk * S) by (apply Qmult_le_0_compat; [nra | done]).
  assert (Hm1 : (rj - rk) * rk * S < 1 # 100) by nra.
  assert (Hsq : (1 # 10) * (1 # 10) * ((1 # 10) * (1 # 10)) <
                ((rj - rk) * (rj - rk) * S) * ((rk - 0) * (rk - 0) * S)) by nra.
  nra.
Qed.

Lemma simplify_line N seg :
  (1 <= N)%Z -> simplify_path N [seg] = Ok (sample seg N 0 :: greedy far (sample seg N 0) (seg_tail N seg)).
Proof.
  intros HN. rewrite simplify_path_samples by done.
  change (mjoin (map (seg_samples N) [seg])) with (seg_samples N seg ++ []).
  by rewrite app_nil_r.
Qed.

Lemma ratio_lt_1 k N : (1 <= N)%Z -> (k < Z.to_nat N)%nat -> ratio k N < 1.
Proof.
  intros HN Hk. unfold ratio.
  apply Qlt_shift_div_r; [change 0 with (inject_Z 0); rewrite <- Zlt_Qlt; lia |].
  rewrite Qmult_1_l, <- Zlt_Qlt. lia.
Qed.

(** ** Potrace's polygons *)

(** A curve of corners is the polyline through its vertices, from the
    curve's start. *)
Lemma tags_segments_corners cur ts vs :
  corner_vertices ts = Some vs -> tags_segments cur ts = polyline_path (cpt cur) (map cpt vs).
Proof.
  revert cur vs. induction ts as [|[v e | u w e] ts IH]; intros cur vs; cbn [corner_vertices].
  - by intros [= <-].
  - destruct (corner_vertices ts) as [vs'|] eqn:E; cbn; [| done].
    intros [= <-]. cbn. by rewrite (IH e vs').
  - done.
Qed.

Lemma last_map {A B} (f : A -> B) l : last (map f l) = f <$> last l.
Proof.
  induction l as [|x [|y l] IH]; [done | done |].
  cbn [map] in IH |- *. by rewrite !last_cons_cons.
Qed.

Lemma corner_vertices_last ts vs :
  corner_vertices ts = Some vs -> ts <> [] -> last vs = Some (curve_start ts).
Proof.
  unfold curve_start. revert vs.
  induction ts as [|[v e | u w e] ts IH]; intros vs; cbn [corner_vertices]; [done | | done].
  destruct (corner_vertices ts) as [vs'|] eqn:E; cbn; [| done]. intros [= <-] _.
  destruct ts as [|t ts]; [cbn in E; by injection E as <- |].
  rewrite (last_cons_cons (Corner v e)).
  destruct vs' as [|x vs'']; [destruct t; cbn in E; [by destruct (corner_vertices ts) | done] |].
  rewrite !last_cons_cons. by apply IH.
Qed.

(** A shape of corners without holes is one polyline, from the curve's
    start around to it. *)
Lemma shape_segments_corners sh vs :
  shape_holes sh = [] -> corner_vertices (shape_outer sh) = Some vs ->
  shape_segments sh = polyline_path (cpt (curve_start (shape_outer sh))) (map cpt vs).
Proof.
  intros Hh Hc. unfold shape_segments, path_segments, curve_segments. rewrite Hh. cbn.
  rewrite app_nil_r. by apply tags_segments_corners.
Qed.

Lemma dxf_polylines_single N path pl :
  simplify_path N path = Ok pl -> (2 <= length pl)%nat -> dxf_polylines N [path] = Ok [pl].
Proof.
  intros Hs Hl. unfold dxf_polylines. cbn [map_res]. rewrite Hs. cbn [res_map res_bind map_res].
  by rewrite filter_cons_True.
Qed.

(** [svg_to_dxf] on the file potrace writes for one shape. *)
Lemma svg_to_dxf_shape svg dxf N w sh pl :
  shape_wf sh -> fs w !! svg = Some (SvgFile (Some [shape_d sh])) -> writable (fs w) dxf = true ->
  simplify_path N (shape_segments sh) = Ok pl -> (2 <= length pl)%nat ->
  svg_to_dxf svg dxf N w =
    (Ok true, World (<[dxf := DxfFile (saved_document [pl])]> (fs w))
                (stdout w ++ [MsgParsingSvg svg; MsgDxfSaved dxf 1])).
Proof.
  intros Hwf Hw Hdxf Hs Hl. rewrite svg_to_dxf_eq, Hw.
  change [shape_d sh] with (map shape_d [sh]).
  rewrite (svg2paths2_potrace [sh]) by (by constructor). cbn [map].
  rewrite (dxf_polylines_single _ _ _ Hs Hl), (proj1 (writable_ok _ _) Hdxf). reflexivity.
Qed.

(** ** A shape with a hole *)

(** The first segment of a curve starts at the curve's start. *)
Lemma tags_segments_start N cur ts :
  ts <> [] -> exists g gs, tags_segments cur ts = g :: gs /\ vec2_equiv (sample g N 0) (flip_vertex (cpt cur)).
Proof.
  destruct ts as [|[v e | u w e] ts]; [done | |]; intros _; (eexists _, _; split; [reflexivity |]);
    unfold sample, to_vec2, flip_point, flip_vertex, vec2_equiv; cbn; rewrite ratio_0; split; ring.
Qed.

Lemma samples_ne N path : path <> [] -> mjoin (map (seg_samples N) path) <> [].
Proof.
  destruct path as [|g path]; [done |]. intros _. cbn [map].
  change (mjoin (?x :: ?l)) with (x ++ mjoin l). by rewrite seg_samples_cons.
Qed.

(** The polyline of a path whose later segments start far from every
    sample of its first part: the last point kept on the first part is
    followed by the start of the later part. *)
Lemma simplify_path_joins N path g gs :
  (1 <= N)%Z -> path <> [] ->
  Forall (fun y => far (sample g N 0) y = true) (mjoin (map (seg_samples N) path)) ->
  exists pl i p, simplify_path N (path ++ g :: gs) = Ok pl /\
    pl !! i = Some p /\ pl !! S i = Some (sample g N 0) /\ p ∈ mjoin (map (seg_samples N) path).
Proof.
  intros HN Hp Hfar. rewrite simplify_path_samples by done.
  rewrite map_app, join_app. cbn [map]. change (mjoin (?x :: ?l)) with (x ++ mjoin l).
  rewrite seg_samples_cons. pose proof (samples_ne N path Hp) as Hne. revert Hfar Hne.
  generalize (mjoin (map (seg_samples N) path)) as L. intros [|x xs] Hfar Hne; [done |]. cbn [app].
  rewrite greedy_app.
  assert (Hlk : default x (last (greedy far x xs)) ∈ x :: xs).
  { destruct (last (greedy far x xs)) eqn:E; cbn [default]; apply elem_of_cons; [right | by left].
    eapply elem_of_sublist; [by apply last_Some_elem_of | apply greedy_sublist]. }
  cbn [greedy]. rewrite (proj1 (Forall_forall _ _) Hfar _ Hlk).
  eexists _, (length (greedy far x xs)), _. split_and!; [reflexivity | | | exact Hlk].
  - change (x :: greedy far x xs ++ ?r) with ((x :: greedy far x xs) ++ r).
    rewrite lookup_app_l by (cbn [length]; lia).
    change (length (greedy far x xs)) with (pred (length (x :: greedy far x xs))).
    rewrite <- last_lookup, last_cons. by destruct (last _).
  - change (x :: greedy far x xs ++ ?r) with ((x :: greedy far x xs) ++ r).
    by apply list_lookup_middle.
Qed.

(** ** The polylines of straight paths *)

(** C22: The decimation does not keep both endpoints of a short straight
    segment: when the segment is at most 0.2 long and its sample before
    the end is more than 0.1 from its start, the polyline is its start and
    the first sample more than 0.1 from it, and the end point is dropped. *)
Theorem short_segment_drops_end N a b :
  (1 <= N)%Z -> side2 a b <= 4 # 100 ->
  (1 # 100) * inject_Z (N * N) < inject_Z ((N - 1) * (N - 1)) * side2 a b ->
  exists q, simplify_path N [Line a b] = Ok [sample (Line a b) N 0; q] /\
    vec2_equiv (sample (Line a b) N 0) (flip_vertex a) /\ ~ vec2_equiv q (flip_vertex b).
Proof.
  intros HN HS Hfar.
  assert (HN2 : (2 <= N)%Z).
  { destruct (Z.eq_dec N 1) as [->|]; [exfalso | lia].
    change (inject_Z ((1 - 1) * (1 - 1))) with 0 in Hfar. rewrite Qmult_0_l in Hfar.
    vm_compute in Hfar. discriminate. }
  assert (Hlast : far (sample (Line a b) N (Z.to_nat N - 1)) (sample (Line a b) N 0) = true).
  { apply far_line_gap; [done |].
    by replace ((Z.of_nat (Z.to_nat N - 1) - Z.of_nat 0) * (Z.of_nat (Z.to_nat N - 1) - Z.of_nat 0))%Z
      with ((N - 1) * (N - 1))%Z by lia. }
  destruct (least_index (fun i => far (sample (Line a b) N i) (sample (Line a b) N 0)) (Z.to_nat N - 1))
    as [(k & Hk & Hfk & Hmin) | Hnone];
    [| exfalso; pose proof (Hnone (Z.to_nat N - 1)%nat ltac:(lia)) as E; cbn beta in E; congruence].
  cbn beta in Hfk, Hmin.
  assert (Hk0 : k <> 0%nat) by (intros ->; by rewrite far_irrefl in Hfk).
  exists (sample (Line a b) N k). split_and!.
  - rewrite simplify_line by done. unfold seg_tail. f_equal. f_equal.
    replace (Z.to_nat N) with ((k - 1) + S (Z.to_nat N - k))%nat at 1 by lia.
    rewrite seq_app, map_app, greedy_app.
    replace (1 + (k - 1))%nat with k by lia. cbn [seq map].
    rewrite (greedy_near far (sample (Line a b) N 0) (map (sample (Line a b) N) (seq 1 (k - 1)))).
    + cbn [last default app greedy]. rewrite Hfk, greedy_near; [done |].
      apply Forall_map, Forall_seq. intros j Hj. apply short_line_near; [done | done | done | lia].
    + apply Forall_map, Forall_seq. intros i Hi. apply Hmin. lia.
  - apply sample_line_0.
  - intros Heq.
    assert (Hd : distance2 (sample (Line a b) N k) (sample (Line a b) N (Z.to_nat N)) == 0)
      by (rewrite Heq, (sample_line_N a b N HN); apply distance2_diag).
    rewrite distance2_line, ratio_N in Hd by done.
    apply far_line in Hfk. rewrite ratio_0 in Hfk.
    pose proof (ratio_lt_1 k N HN ltac:(lia)) as Hk1.
    pose proof (ratio_bounds k N ltac:(lia) HN) as [Hk0' _].
    pose proof (side2_nonneg a b) as HS0.
    revert Hd Hfk Hk1 Hk0' HS0. generalize (ratio k N) (side2 a b). intros r S Hd Hfk Hk1 Hk0' HS0.
    assert (HSpos : 0 < S) by nra.
    assert (Hr : 0 < (r - 1) * (r - 1)) by nra.
    nra.
Qed.

(** C23: A path of straight sides, each longer than [0.1 * samples], is
    not reduced to its vertices: the polyline holds its first point and
    every sample after the start of each side, [k * samples + 1] points
    for [k] sides; it runs from the first vertex to the last. *)
Theorem straight_path_keeps_samples N v vs w :
  (1 <= N)%Z -> last vs = Some w -> long_sides N v vs ->
  exists p0 q,
    simplify_path N (polyline_path v vs) = Ok (p0 :: mjoin (map (seg_tail N) (polyline_path v vs))) /\
    length (p0 :: mjoin (map (seg_tail N) (polyline_path v vs))) = (length vs * Z.to_nat N + 1)%nat /\
    last (p0 :: mjoin (map (seg_tail N) (polyline_path v vs))) = Some q /\
    vec2_equiv p0 (flip_vertex v) /\ vec2_equiv q (flip_vertex w).
Proof.
  intros HN Hw Hl. destruct vs as [|w0 ws]; [done |].
  destruct (last_polyline_tail N v (w0 :: ws) w HN Hw) as (q & Hq & Hqe).
  exists (sample (Line v w0) N 0), q. split; [by apply simplify_polyline |].
  split; [cbn [length]; rewrite length_polyline_tail; cbn [length]; lia |].
  split; [by rewrite last_cons, Hq | split; [apply sample_line_0 | exact Hqe]].
Qed.

(** C24: For a shape potrace traces with corners only, long sides and no
    hole, [svg_to_dxf] writes one closed polyline of
    [samples * (number of sides) + 1] points, whose first and last points
    are both the curve's start: the closing edge has length zero. *)
Theorem traced_polygon_polyline svg dxf N w sh vs :
  shape_holes sh = [] -> corner_vertices (shape_outer sh) = Some vs -> vs <> [] ->
  (1 <= N)%Z -> long_sides N (cpt (curve_start (shape_outer sh))) (map cpt vs) ->
  fs w !! svg = Some (SvgFile (Some [shape_d sh])) -> writable (fs w) dxf = true ->
  exists pl p q,
    svg_to_dxf svg dxf N w =
      (Ok true, World (<[dxf := DxfFile (saved_document [pl])]> (fs w))
                  (stdout w ++ [MsgParsingSvg svg; MsgDxfSaved dxf 1])) /\
    length pl = (length vs * Z.to_nat N + 1)%nat /\
    head pl = Some p /\ last pl = Some q /\
    vec2_equiv p (flip_vertex (cpt (curve_start (shape_outer sh)))) /\
    vec2_equiv q (flip_vertex (cpt (curve_start (shape_outer sh)))).
Proof.
  intros Hh Hc Hne HN Hl Hw Hdxf.
  assert (Ho : shape_outer sh <> []) by (intros E; rewrite E in Hc; by injection Hc as <-).
  assert (Hwf : shape_wf sh) by (unfold shape_wf; rewrite Hh; by repeat constructor).
  assert (Hlast : last (map cpt vs) = Some (cpt (curve_start (shape_outer sh))))
    by (rewrite last_map, (corner_vertices_last _ _ Hc Ho); reflexivity).
  pose proof (shape_segments_corners sh vs Hh Hc) as Hseg.
  rewrite <- (length_map cpt vs). revert Hl Hlast Hseg.
  generalize (cpt (curve_start (shape_outer sh))) as s. intros s Hl Hlast Hseg.
  destruct (map cpt vs) as [|w0 ws]; [by destruct vs |].
  destruct (last_polyline_tail N s (w0 :: ws) s HN Hlast) as (q & Hq & Hqe).
  exists (sample (Line s w0) N 0 :: mjoin (map (seg_tail N) (polyline_path s (w0 :: ws)))).
  exists (sample (Line s w0) N 0), q.
  assert (Hlen := length_polyline_tail N s (w0 :: ws)).
  split; [apply (svg_to_dxf_shape _ _ _ _ sh); [done | done | done | rewrite Hseg; by apply simplify_polyline |] |].
  { cbn [length] in Hlen |- *. nia. }
  split; [cbn [length] in Hlen |- *; lia |].
  split; [done | split; [by rewrite last_cons, Hq | split; [apply sample_line_0 | exact Hqe]]].
Qed.

(** C36: A hole is joined to its outer curve: for a shape potrace traces
    with a hole whose start is more than 0.1 from every sample of the
    outer curve, [svg_to_dxf] writes a single closed polyline in which a
    point sampled on the outer curve is followed by the start of the hole,
    an edge on neither curve. *)
Theorem shape_polyline_joins_hole svg dxf N w sh h hs :
  shape_wf sh -> shape_holes sh = h :: hs -> (1 <= N)%Z ->
  Forall (fun y => far (flip_vertex (cpt (curve_start h))) y = true)
    (mjoin (map (seg_samples N) (curve_segments (shape_outer sh)))) ->
  fs w !! svg = Some (SvgFile (Some [shape_d sh])) -> writable (fs w) dxf = true ->
  exists pl i p q,
    svg_to_dxf svg dxf N w =
      (Ok true, World (<[dxf := DxfFile (saved_document [pl])]> (fs w))
                  (stdout w ++ [MsgParsingSvg svg; MsgDxfSaved dxf 1])) /\
    pl !! i = Some p /\ pl !! S i = Some q /\
    p ∈ mjoin (map (seg_samples N) (curve_segments (shape_outer sh))) /\
    vec2_equiv q (flip_vertex (cpt (curve_start h))).
Proof.
  intros Hwf Hh HN Hfar Hw Hdxf.
  pose proof Hwf as Hwf'. unfold shape_wf in Hwf'. rewrite Hh in Hwf'.
  apply Forall_cons in Hwf' as [Ho Hwf']. apply Forall_cons in Hwf' as [Hh0 _].
  destruct (tags_segments_start N (curve_start h) h Hh0) as (g & gs & Hg & Hs0).
  assert (Hseg : shape_segments sh =
                 curve_segments (shape_outer sh) ++ g :: gs ++ mjoin (map curve_segments hs)).
  { unfold shape_segments, path_segments. rewrite Hh. cbn [map].
    change (mjoin (?x :: ?l)) with (x ++ mjoin l). change (mjoin (?x :: ?l)) with (x ++ mjoin l).
    unfold curve_segments at 2. by rewrite Hg. }
  assert (HO : curve_segments (shape_outer sh) <> []).
  { unfold curve_segments. destruct (shape_outer sh) as [|[] ?]; [done | discriminate | discriminate]. }
  destruct (simplify_path_joins N _ g (gs ++ mjoin (map curve_segments hs)) HN HO)
    as (pl & i & p & Hpl & Hp & Hq & Hin).
  { eapply Forall_impl; [exact Hfar |]. intros y Hy. by rewrite Hs0. }
  exists pl, i, p, (sample g N 0). split_and!; [| done | done | done | done].
  apply (svg_to_dxf_shape _ _ _ _ sh); [done | done | done | by rewrite Hseg |].
  apply lookup_lt_Some in Hq. lia.
Qed.

(** ** Witnesses *)

Lemma short_segment_drops_end_witness :
  (1 <= 40)%Z /\ side2 (pt 0 0) (pt (15 # 100) 0) <= 4 # 100 /\
  (1 # 100) * inject_Z (40 * 40) < inject_Z ((40 - 1) * (40 - 1)) * side2 (pt 0 0) (pt (15 # 100) 0) /\
  exists q, simplify_path 40 [Line (pt 0 0) (pt (15 # 100) 0)] =
              Ok [sample (Line (pt 0 0) (pt (15 # 100) 0)) 40 0; q] /\
    vec2_equiv (sample (Line (pt 0 0) (pt (15 # 100) 0)) 40 0) (flip_vertex (pt 0 0)) /\
    ~ vec2_equiv q (flip_vertex (pt (15 # 100) 0)).
Proof.
  assert (H1 : (1 <= 40)%Z) by lia.
  assert (H2 : side2 (pt 0 0) (pt (15 # 100) 0) <= 4 # 100) by (vm_compute; discriminate).
  assert (H3 : (1 # 100) * inject_Z (40 * 40) <
               inject_Z ((40 - 1) * (40 - 1)) * side2 (pt 0 0) (pt (15 # 100) 0))
    by (vm_compute; reflexivity).
  split; [exact H1 |]. split; [exact H2 |]. split; [exact H3 |].
  exact (short_segment_drops_end 40 _ _ H1 H2 H3).
Defined.

Lemma straight_path_keeps_samples_witness :
  let vs := [pt 10 0; pt 10 10; pt 0 10; pt 0 0] in
  (1 <= 40)%Z /\ last vs = Some (pt 0 0) /\ long_sides 40 (pt 0 0) vs /\
  exists p0 q,
    simplify_path 40 (polyline_path (pt 0 0) vs) =
      Ok (p0 :: mjoin (map (seg_tail 40) (polyline_path (pt 0 0) vs))) /\
    length (p0 :: mjoin (map (seg_tail 40) (polyline_path (pt 0 0) vs))) = 161%nat /\
    last (p0 :: mjoin (map (seg_tail 40) (polyline_path (pt 0 0) vs))) = Some q /\
    vec2_equiv p0 (flip_vertex (pt 0 0)) /\ vec2_equiv q (flip_vertex (pt 0 0)).
Proof.
  intros vs.
  assert (H1 : (1 <= 40)%Z) by lia.
  assert (H2 : last vs = Some (pt 0 0)) by reflexivity.
  assert (H3 : long_sides 40 (pt 0 0) vs) by (vm_compute; repeat split).
  split; [exact H1 |]. split; [exact H2 |]. split; [exact H3 |].
  exact (straight_path_keeps_samples 40 _ _ _ H1 H2 H3).
Defined.

Lemma traced_polygon_polyline_witness :
  let vs := [(10, 0); (10, 5); (10, 10); (5, 10); (0, 10); (0, 5); (0, 0); (5, 0)]%Z in
  shape_holes square_shape = [] /\ corner_vertices (shape_outer square_shape) = Some vs /\ vs <> [] /\
  (1 <= 40)%Z /\ long_sides 40 (cpt (curve_start (shape_outer square_shape))) (map cpt vs) /\
  fs square_svg_world !! lit "sq.svg" = Some (SvgFile (Some [shape_d square_shape])) /\
  writable (fs square_svg_world) (lit "sq.dxf") = true /\
  exists pl p q,
    svg_to_dxf (lit "sq.svg") (lit "sq.dxf") 40 square_svg_world =
      (Ok true, World (<[lit "sq.dxf" := DxfFile (saved_document [pl])]> (fs square_svg_world))
                  (stdout square_svg_world ++ [MsgParsingSvg (lit "sq.svg"); MsgDxfSaved (lit "sq.dxf") 1])) /\
    length pl = 321%nat /\ head pl = Some p /\ last pl = Some q /\
    vec2_equiv p (flip_vertex (cpt (curve_start (shape_outer square_shape)))) /\
    vec2_equiv q (flip_vertex (cpt (curve_start (shape_outer square_shape)))).
Proof.
  intros vs.
  assert (H1 : shape_holes square_shape = []) by reflexivity.
  assert (H2 : corner_vertices (shape_outer square_shape) = Some vs) by reflexivity.
  assert (H3 : vs <> []) by discriminate.
  assert (H4 : (1 <= 40)%Z) by lia.
  assert (H5 : long_sides 40 (cpt (curve_start (shape_outer square_shape))) (map cpt vs))
    by (vm_compute; repeat split).
  assert (H6 : fs square_svg_world !! lit "sq.svg" = Some (SvgFile (Some [shape_d square_shape])))
    by (vm_compute; reflexivity).
  assert (H7 : writable (fs square_svg_world) (lit "sq.dxf") = true) by (vm_compute; reflexivity).
  do 7 (split; [assumption |]).
  exact (traced_polygon_polyline _ _ _ _ _ _ H1 H2 H3 H4 H5 H6 H7).
Defined.

Lemma shape_polyline_joins_hole_witness :
  shape_wf (Shape ring_outer [ring_hole]) /\ shape_holes (Shape ring_outer [ring_hole]) = [ring_hole] /\
  (1 <= 40)%Z /\
  Forall (fun y => far (flip_vertex (cpt (curve_start ring_hole))) y = true)
    (mjoin (map (seg_samples 40) (curve_segments ring_outer))) /\
  fs ring_svg_world !! lit "ring.svg" = Some (SvgFile (Some [shape_d (Shape ring_outer [ring_hole])])) /\
  writable (fs ring_svg_world) (lit "ring.dxf") = true /\
  exists pl i p q,
    svg_to_dxf (lit "ring.svg") (lit "ring.dxf") 40 ring_svg_world =
      (Ok true, World (<[lit "ring.dxf" := DxfFile (saved_document [pl])]> (fs ring_svg_world))
                  (stdout ring_svg_world ++ [MsgParsingSvg (lit "ring.svg"); MsgDxfSaved (lit "ring.dxf") 1])) /\
    pl !! i = Some p /\ pl !! S i = Some q /\
    p ∈ mjoin (map (seg_samples 40) (curve_segments ring_outer)) /\
    vec2_equiv q (flip_vertex (cpt (curve_start ring_hole))).
Proof.
  assert (H1 : shape_wf (Shape ring_outer [ring_hole])) by (apply (bool_decide_unpack _); vm_compute; reflexivity).
  assert (H2 : shape_holes (Shape ring_outer [ring_hole]) = [ring_hole]) by reflexivity.
  assert (H3 : (1 <= 40)%Z) by lia.
  assert (H4 : Forall (fun y => far (flip_vertex (cpt (curve_start ring_hole))) y = true)
                 (mjoin (map (seg_samples 40) (curve_segments ring_outer))))
    by (apply (bool_decide_unpack _); vm_compute; reflexivity).
  assert (H5 : fs ring_svg_world !! lit "ring.svg" = Some (SvgFile (Some [shape_d (Shape ring_outer [ring_hole])])))
    by (vm_compute; reflexivity).
  assert (H6 : writable (fs ring_svg_world) (lit "ring.dxf") = true) by (vm_compute; reflexivity).
  do 6 (split; [assumption |]).
  exact (shape_polyline_joins_hole _ _ _ _ (Shape ring_outer [ring_hole]) _ _ H1 H2 H3 H4 H5 H6).
Defined.

End Traced.
